(** * Cloudreve: KS3 storage driver and archive service

    A shallow embedding of the KS3 driver ([package ks3]) and of the archive
    routines of the file manager ([package manager], archive.go), together
    with the properties their specification states about them.

    Go values are embedded as follows: [int64] and [int] as [Z] (with the
    64-bit wrap-around written out where the code adds), Go strings as
    [string], slices as [list], a [(T, error)] pair as [result T], a bare
    [error] as [option error].  Calls to the remote object store, the clock
    and the other collaborators of the code go through a state-passing
    monad that also records every remote call in order. *)

From Stdlib Require Import ZArith String List Lia Bool Ascii.
From Stdlib Require Import DecimalString DecimalZ DecimalPos.
From stdpp Require Import base option list strings gmap.

Local Open Scope string_scope.
Local Open Scope list_scope.
Local Open Scope Z_scope.

(** ** Shared Go vocabulary *)

Module golang.

(** [int64(x)] on a mathematical integer: two's complement wrap-around. *)
Definition wrap64 (z : Z) : Z := (z + 2 ^ 63) mod 2 ^ 64 - 2 ^ 63.

Definition MinInt64 : Z := - 2 ^ 63.
Definition MaxInt64 : Z := 2 ^ 63 - 1.

(** [strconv.Itoa] and the [%d] verb of [fmt.Sprintf]. *)
Definition itoa (z : Z) : string := NilZero.string_of_int (Z.to_int z).

(** The double-quote character, as a one-character string. *)
Definition dquote : string := String (ascii_of_nat 34) EmptyString.

(** [strings.TrimPrefix]. *)
Fixpoint strip_prefix (p s : string) : option string :=
  match p with
  | EmptyString => Some s
  | String a p' =>
      match s with
      | String b s' => if Ascii.eqb a b then strip_prefix p' s' else None
      | EmptyString => None
      end
  end.

Definition TrimPrefix (s p : string) : string :=
  match strip_prefix p s with Some r => r | None => s end.

(** No underscore among the characters of a string. *)
Fixpoint no_underscore (s : string) : bool :=
  match s with
  | EmptyString => true
  | String c s' => negb (Ascii.eqb c "_"%char) && no_underscore s'
  end.

(** [lo.Chunk]: consecutive groups of [size] elements, the last one
    possibly shorter.  [chunk_fuel] bounds the recursion by the length of
    the input, which it never exhausts when [size] is positive. *)
Fixpoint chunk_fuel {A} (fuel : nat) (size : nat) (l : list A) : list (list A) :=
  match fuel with
  | O => []
  | S fuel' =>
      match l with
      | [] => []
      | _ => take size l :: chunk_fuel fuel' size (drop size l)
      end
  end.

(** [lo.Chunk] panics when the size is not positive: [None]. *)
Definition Chunk {A} (l : list A) (size : Z) : option (list (list A)) :=
  if size <=? 0 then None
  else Some (chunk_fuel (length l) (Z.to_nat size) l).

End golang.

(** ** The KS3 driver *)

Module ks3.
Import golang.

(** *** Errors *)

Inductive error : Type :=
| AwsError (code : string) (message : string)
    (** an [awserr.Error] returned by the SDK *)
| OtherError (message : string)
    (** any other transport error *)
| ErrFileExisted
    (** [fs.ErrFileExisted] *)
| Errorf (context : string) (cause : error)
    (** [fmt.Errorf("<context>: %w", cause)] *)
| MetaMismatch (message : string).
    (** [serializer.NewError(serializer.CodeMetaMismatch, message, nil)] *)

Inductive result (A : Type) : Type :=
| Ok (a : A)
| Err (e : error).
Arguments Ok {A} a.
Arguments Err {A} e.

Definition ErrCodeNoSuchKey : string := "NoSuchKey".

(** *** Data *)

Record PolicySetting : Type := {
  ChunkSize : Z;
  S3DeleteBatchSize : Z;
}.

Record StoragePolicy : Type := {
  BucketName : string;
  IsPrivate : bool;
  Settings : PolicySetting;
}.

(** [MetaData]: what [Meta] extracts from a HEAD response. *)
Record MetaData : Type := {
  Size : Z;
  Etag : string;
}.

Record Driver : Type := {
  policy : StoragePolicy;
  chunkSize : Z;
}.

(** [fs.UploadProps], the fields the driver reads. Times are nanoseconds
    since the epoch. *)
Record UploadProps : Type := {
  SavePath : string;
  PropsSize : Z;
  MimeType : string;
  UriName : string;
  ExpireAt : Z;
  UploadSessionID : string;
}.

Record UploadRequest : Type := {
  Props : UploadProps;
  Mode : Z;
}.

Record UploadSession : Type := {
  SessionProps : UploadProps;
  SessionChunkSize : Z;
  Callback : string;
  CallbackSecret : string;
  UploadID : string;
  SentinelTaskID : Z;
}.

Record UploadCredential : Type := {
  CredUploadID : string;
  UploadURLs : list string;
  CompleteURL : string;
  CredSessionID : string;
  CredChunkSize : Z;
}.

Inductive HTTPMethod : Type := GET | PUT | POST.

(** [s3.GeneratePresignedUrlInput]. *)
Record GeneratePresignedUrlInput : Type := {
  InHTTPMethod : HTTPMethod;
  InBucket : string;
  InKey : string;
  InExpires : Z;
  InParameters : list (string * string);
  InContentType : option string;
  InResponseContentDisposition : option string;
}.

(** One entry of [DeleteObjectsOutput.Errors]. *)
Record DeleteError : Type := {
  ErrKey : string;
  ErrCode : string;
  ErrMessage : string;
}.

(** *** The remote service *)

(** Every request the driver sends to the object store. *)
Inductive call : Type :=
| CallHeadObject (bucket key : string)
| CallUpload (bucket key : string) (limit : Z) (contentType : string)
| CallDeleteObject (bucket key : string)
| CallDeleteObjects (bucket : string) (keys : list string)
| CallCreateMultipartUpload (bucket key : string) (expires : Z) (contentType : string)
| CallGeneratePresignedUrl (input : GeneratePresignedUrlInput)
| CallAbortMultipartUpload (bucket key uploadID : string).

(** What the object store answers. *)
Inductive reply : Type :=
| ReplyMeta (r : result MetaData)
| ReplyError (e : option error)
| ReplyDeleteErrors (r : result (list DeleteError))
| ReplyString (r : result string).

(** The object store and the clock, as the driver sees them: each
    operation answers from the current state of the environment and moves
    it on.  Nothing is assumed about the answers. *)
Class Backend (St : Type) : Type := {
  svc_HeadObject : string -> string -> St -> result MetaData * St;
  svc_Upload : string -> string -> Z -> string -> St -> option error * St;
  svc_DeleteObject : string -> string -> St -> option error * St;
  svc_DeleteObjects : string -> list string -> St -> result (list DeleteError) * St;
  svc_CreateMultipartUpload : string -> string -> Z -> string -> St -> result string * St;
  svc_GeneratePresignedUrl : GeneratePresignedUrlInput -> St -> result string * St;
  svc_AbortMultipartUpload : string -> string -> string -> St -> option error * St;
  (** [time.Now()], nanoseconds since the epoch *)
  clock_Now : St -> Z * St;
}.

Section Monad.
Context {St : Type}.

(** The environment, and the requests sent so far with their answers,
    oldest first. *)
Record World : Type := {
  backend : St;
  calls : list (call * reply);
}.

Definition M (A : Type) : Type := World -> A * World.

Definition ret {A} (a : A) : M A := fun w => (a, w).

Definition bind {A B} (m : M A) (k : A -> M B) : M B :=
  fun w => let (a, w') := m w in k a w'.

(** Send a request: run it against the environment and log it with
    its answer. *)
Definition request {A} (c : call) (log : A -> reply) (op : St -> A * St) : M A :=
  fun w =>
    let (a, st') := op (backend w) in
    (a, {| backend := st'; calls := calls w ++ [(c, log a)] |}).

(** Consult the environment without sending anything. *)
Definition observe {A} (op : St -> A * St) : M A :=
  fun w =>
    let (a, st') := op (backend w) in
    (a, {| backend := st'; calls := calls w |}).

Definition init (st : St) : World := {| backend := st; calls := [] |}.
End Monad.
Arguments World : clear implicits.
Arguments M : clear implicits.

Notation "'let*' x ':=' m 'in' k" := (bind m (fun x => k))
  (at level 10, x pattern, m at level 100, k at level 200).

(** [for _, x := range l { acc = body(acc, x) }] *)
Fixpoint foldM {St A B} (body : B -> A -> M St B) (l : list A) (acc : B) : M St B :=
  match l with
  | [] => ret acc
  | x :: l' => let* acc' := body acc x in foldM body l' acc'
  end.

(** How a Go call ends when it may also panic.  [OutOfFuel] is the
    embedding's own: a loop given too little fuel. *)
Inductive outcome (A : Type) : Type :=
| Returned (a : A)
| Panicked (reason : string)
| OutOfFuel.
Arguments Returned {A} a.
Arguments Panicked {A} reason.
Arguments OutOfFuel {A}.

(** *** Time *)

(** [time.Time.Sub]: a [Duration] in nanoseconds, saturating at the ends
    of [int64]. *)
Definition Sub (t u : Z) : Z :=
  if t - u <? MinInt64 then MinInt64
  else if MaxInt64 <? t - u then MaxInt64
  else t - u.

(** [int64(d.Seconds())]: whole seconds, truncated toward zero.
    [Seconds] goes through a [float64]; the integer quotient is what it
    gives unless the fraction rounds up to the next whole second, which
    takes a duration of months that ends within nanoseconds of one. *)
Definition Seconds (d : Z) : Z := Z.quot d 1000000000.

(** *** URLs *)

(** A parsed [url.URL]: [Base] stands for all that [String()] renders
    before the query (scheme, authority, escaped path); the query and the
    fragment are kept as the code touches or prints them. *)
Record URL : Type := {
  Base : string;
  ForceQuery : bool;
  RawQuery : string;
  Fragment : string;
}.

Definition set_RawQuery (u : URL) (q : string) : URL :=
  {| Base := Base u; ForceQuery := ForceQuery u; RawQuery := q; Fragment := Fragment u |}.

(** The [String] method of [url.URL]. *)
Definition URL_String (u : URL) : string :=
  Base u
    +:+ (if ForceQuery u || negb (String.eqb (RawQuery u) "")
         then "?" +:+ RawQuery u else "")
    +:+ (if negb (String.eqb (Fragment u) "")
         then "#" +:+ Fragment u else "").

(** *** The chunk planner *)

(** Modelled from the spec: [chunk.ChunkGroup] of package [chunk] (the
    ChunkPlanner), whose source is not part of this development.  Given
    the total size and the chunk size it produces
    [ceil(totalSize/chunkSize)] chunks and exposes a sequential cursor;
    the driver builds it with a zero [ConstantBackoff], so a failing
    chunk is surfaced without being retried. *)
Record ChunkGroup : Type := {
  totalSize : Z;
  groupChunkSize : Z;
  currentIndex : Z;
}.

Definition NewChunkGroup (file : UploadRequest) (chunkSize : Z) : ChunkGroup :=
  {| totalSize := PropsSize (Props file);
     groupChunkSize := chunkSize;
     currentIndex := -1 |}.

(** [ceil(totalSize/chunkSize)]. *)
Definition Num (c : ChunkGroup) : Z :=
  - ((- totalSize c) / groupChunkSize c).

Definition Index (c : ChunkGroup) : Z := currentIndex c.

(** [Next]: advance the cursor; [true] while it points at a chunk. *)
Definition Next (c : ChunkGroup) : ChunkGroup * bool :=
  let c' := {| totalSize := totalSize c;
               groupChunkSize := groupChunkSize c;
               currentIndex := currentIndex c + 1 |} in
  (c', currentIndex c' <? Num c').

(** [Process]: hand the current chunk to the processor.  [A] is what the
    processor leaves behind: its error, and the variables it captured. *)
Definition Process {St A} (c : ChunkGroup) (processor : ChunkGroup -> M St A) : M St A :=
  processor c.

(** [driver.GetSourceArgs], the fields [Source] reads. *)
Record GetSourceArgs : Type := {
  IsDownload : bool;
  DisplayName : string;
  Expire : option Z;
}.

(** [make([]string, n)]: panics on a negative length. *)
Definition make_strings (n : Z) : option (list string) :=
  if n <? 0 then None else Some (replicate (Z.to_nat n) "").

(** [s[i] = x]: panics out of range. *)
Definition store (s : list string) (i : Z) (x : string) : option (list string) :=
  if (0 <=? i) && (i <? Z.of_nat (length s))
  then Some (<[Z.to_nat i := x]> s)
  else None.

(** *** Collaborators of the driver *)

Record ThumbEncodeSetting : Type := {
  Format : string;
  Quality : Z;
}.

(** Declarations the driver takes from other packages and the standard
    library. *)
Class Collaborators : Type := {
  (** [fs.ModeOverwrite], a bit of the write-mode set *)
  ModeOverwrite : Z;
  (** [handler.mime.TypeByName] *)
  TypeByName : string -> string;
  (** [handler.settings.SiteURL(setting.UseFirstSiteUrl(ctx))] *)
  SiteURL : string;
  (** [routes.MasterSlaveCallbackUrl(site, types.PolicyTypeKs3, id, secret).String()] *)
  MasterSlaveCallbackUrl : string -> string -> string -> string;
  (** [handler.settings.ThumbSize] *)
  ThumbSize : Z * Z;
  (** [handler.settings.ThumbEncode] *)
  ThumbEncode : ThumbEncodeSetting;
  (** [url.PathEscape] *)
  PathEscape : string -> string;
  (** [url.Parse] *)
  Parse : string -> result URL;
}.

Section Operations.
Context {St : Type} {svc : Backend St} {env : Collaborators}.

(** [time.Until(t)]. *)
Definition Until (t : Z) : M St Z :=
  let* now := observe clock_Now in ret (Sub t now).

(** [New]: the chunk size defaults to 25 MiB when the policy leaves
    it unset. *)
Definition New (p : StoragePolicy) : Driver :=
  {| policy := p;
     chunkSize := if ChunkSize (Settings p) =? 0
                  then Z.shiftl 25 20
                  else ChunkSize (Settings p) |}.

(** [Meta]: HEAD the object. *)
Definition Meta (handler : Driver) (path : string) : M St (result MetaData) :=
  request (CallHeadObject (BucketName (policy handler)) path) ReplyMeta
          (svc_HeadObject (BucketName (policy handler)) path).

(** [CompleteUpload]. *)
Definition CompleteUpload (handler : Driver) (session : UploadSession)
  : M St (option error) :=
  if SentinelTaskID session =? 0 then ret None
  else
    let* res := Meta handler (SavePath (SessionProps session)) in
    match res with
    | Err err => ret (Some (Errorf "failed to get uploaded file size" err))
    | Ok res =>
        if negb (Size res =? PropsSize (SessionProps session)) then
          ret (Some (MetaMismatch
                       ("File size not match, expected: "
                          +:+ itoa (PropsSize (SessionProps session))
                          +:+ ", actual: " +:+ itoa (Size res))))
        else ret None
    end.

Definition mimeTypeOf (file : UploadRequest) : string :=
  if String.eqb (MimeType (Props file)) ""
  then TypeByName (UriName (Props file))
  else MimeType (Props file).

(** The transfer of [Put], after the duplicate check. *)
Definition Put_upload (handler : Driver) (file : UploadRequest) : M St (option error) :=
  let mimeType := mimeTypeOf file in
  let* err := request (CallUpload (BucketName (policy handler))
                                  (SavePath (Props file))
                                  (PropsSize (Props file)) mimeType) ReplyError
                      (svc_Upload (BucketName (policy handler))
                                  (SavePath (Props file))
                                  (PropsSize (Props file)) mimeType) in
  match err with
  | Some err => ret (Some err)
  | None => ret None
  end.

(** [file.Mode&fs.ModeOverwrite == fs.ModeOverwrite] *)
Definition overwrite (file : UploadRequest) : bool :=
  Z.land (Mode file) ModeOverwrite =? ModeOverwrite.

(** [Put]. *)
Definition Put (handler : Driver) (file : UploadRequest) : M St (option error) :=
  if negb (overwrite file) then
    let* m := Meta handler (SavePath (Props file)) in
    match m with
    | Ok _ => ret (Some ErrFileExisted)
    | Err _ => Put_upload handler file
    end
  else Put_upload handler file.

(** One round of the loop of [Delete] over the groups. *)
Definition Delete_group (handler : Driver)
           (acc : list string * option error) (group : list string)
  : M St (list string * option error) :=
  let '(failed, lastErr) := acc in
  let bucket := BucketName (policy handler) in
  match group with
  | [key] =>
      let* err := request (CallDeleteObject bucket key) ReplyError
                          (svc_DeleteObject bucket key) in
      match err with
      | Some (AwsError code msg) =>
          if String.eqb code ErrCodeNoSuchKey then ret (failed, lastErr)
          else ret (failed ++ [key], Some (AwsError code msg))
      | Some err => ret (failed ++ [key], Some err)
      | None => ret (failed, lastErr)
      end
  | _ =>
      let* res := request (CallDeleteObjects bucket group) ReplyDeleteErrors
                          (svc_DeleteObjects bucket group) in
      match res with
      | Err err => ret (failed ++ group, Some err)
      | Ok errors => ret (failed ++ map ErrKey errors, lastErr)
      end
  end.

(** The batch size of [Delete]: the policy's, or 1000 when unset. *)
Definition batchSizeOf (handler : Driver) : Z :=
  if S3DeleteBatchSize (Settings (policy handler)) =? 0 then 1000
  else S3DeleteBatchSize (Settings (policy handler)).

(** [Delete]. *)
Definition Delete (handler : Driver) (files : list string)
  : M St (outcome (list string * option error)) :=
  match Chunk files (batchSizeOf handler) with
  | None => ret (Panicked "lo.Chunk: size must be greater than 0")
  | Some groups =>
      let* r := foldM (Delete_group handler) groups ([], None) in
      ret (Returned r)
  end.

(** The time-to-live that [Thumb] and [Source] hand to the signer. *)
Definition ttlOf (expire : option Z) : M St Z :=
  match expire with
  | Some t => let* d := Until t in ret (Seconds d)
  | None => ret 604800
  end.

(** The tail shared by [Thumb] and [Source]: parse the signed URL and,
    for a public bucket, drop its query. *)
Definition finalURL (handler : Driver) (signed : string) : result string :=
  match Parse signed with
  | Err err => Err err
  | Ok u =>
      let u := if negb (IsPrivate (policy handler)) then set_RawQuery u "" else u in
      Ok (URL_String u)
  end.

Definition thumbParam : string :=
  let base := "@base@tag=imgScale&m=0&w=" +:+ itoa (fst ThumbSize)
                +:+ "&h=" +:+ itoa (snd ThumbSize) in
  let f := Format ThumbEncode in
  if String.eqb f "jpg" || String.eqb f "webp" then
    base +:+ "&q=" +:+ itoa (Quality ThumbEncode) +:+ "&F=" +:+ f
  else if String.eqb f "png" then base +:+ "&F=" +:+ f
  else base.

(** [Thumb]; [source] is [e.Source()]. *)
Definition Thumb (handler : Driver) (expire : option Z) (ext : string) (source : string)
  : M St (result string) :=
  let* ttl := ttlOf expire in
  let input := {| InHTTPMethod := GET;
                  InBucket := BucketName (policy handler);
                  InKey := source +:+ thumbParam;
                  InExpires := ttl;
                  InParameters := [];
                  InContentType := None;
                  InResponseContentDisposition := None |} in
  let* thumbUrl := request (CallGeneratePresignedUrl input) ReplyString
                           (svc_GeneratePresignedUrl input) in
  match thumbUrl with
  | Err err => ret (Err err)
  | Ok thumbUrl => ret (finalURL handler thumbUrl)
  end.

(** [Source]; [source] is [e.Source()]. *)
Definition Source (handler : Driver) (source : string) (args : GetSourceArgs)
  : M St (result string) :=
  let contentDescription :=
    if IsDownload args
    then Some ("attachment; filename=" +:+ dquote
                 +:+ PathEscape (DisplayName args) +:+ dquote)
    else None in
  let* ttl := ttlOf (Expire args) in
  let input := {| InHTTPMethod := GET;
                  InBucket := BucketName (policy handler);
                  InKey := source;
                  InExpires := ttl;
                  InParameters := [];
                  InContentType := None;
                  InResponseContentDisposition := contentDescription |} in
  let* downloadUrl := request (CallGeneratePresignedUrl input) ReplyString
                              (svc_GeneratePresignedUrl input) in
  match downloadUrl with
  | Err err => ret (Err err)
  | Ok downloadUrl => ret (finalURL handler downloadUrl)
  end.

Definition octetStream : string := "application/octet-stream".

(** The processor [Token] hands to [Process]: sign the upload URL of
    part [Index + 1] and store it at [Index] of [urls]. *)
Definition signChunk (handler : Driver) (uploadSession : UploadSession)
           (uploadID : string) (urls : list string) (c : ChunkGroup)
  : M St (outcome (list string * option error)) :=
  let* d := Until (ExpireAt (SessionProps uploadSession)) in
  let expireSeconds := Seconds d in
  let partNumber := Index c + 1 in
  let input := {| InHTTPMethod := PUT;
                  InBucket := BucketName (policy handler);
                  InKey := SavePath (SessionProps uploadSession);
                  InExpires := expireSeconds;
                  InParameters := [("partNumber", itoa partNumber);
                                   ("uploadId", uploadID)];
                  InContentType := Some octetStream;
                  InResponseContentDisposition := None |} in
  let* signed := request (CallGeneratePresignedUrl input) ReplyString
                         (svc_GeneratePresignedUrl input) in
  match signed with
  | Err err =>
      ret (Returned (urls,
             Some (Errorf ("failed to generate presigned upload url for chunk "
                             +:+ itoa partNumber) err)))
  | Ok signedURL =>
      match store urls (Index c) signedURL with
      | Some urls' => ret (Returned (urls', None))
      | None => ret (Panicked "index out of range")
      end
  end.

(** [for chunks.Next() { err := chunks.Process(...); ... }] *)
Fixpoint Token_loop (fuel : nat) (handler : Driver) (uploadSession : UploadSession)
         (uploadID : string) (chunks : ChunkGroup) (urls : list string)
  : M St (outcome (result (list string))) :=
  match fuel with
  | O => ret OutOfFuel
  | S fuel' =>
      let (chunks', more) := Next chunks in
      if more then
        let* r := Process chunks' (signChunk handler uploadSession uploadID urls) in
        match r with
        | Returned (urls', None) =>
            Token_loop fuel' handler uploadSession uploadID chunks' urls'
        | Returned (_, Some err) => ret (Returned (Err err))
        | Panicked reason => ret (Panicked reason)
        | OutOfFuel => ret OutOfFuel
        end
      else ret (Returned (Ok urls))
  end.

(** [Token].  The session is handed back as the call leaves it. *)
Definition Token (handler : Driver) (uploadSession : UploadSession) (file : UploadRequest)
  : M St (outcome (UploadSession * result UploadCredential)) :=
  let* m := Meta handler (SavePath (Props file)) in
  match m with
  | Ok _ => ret (Returned (uploadSession, Err ErrFileExisted))
  | Err _ =>
      let siteURL := SiteURL in
      let uploadSession :=
        {| SessionProps := SessionProps uploadSession;
           SessionChunkSize := chunkSize handler;
           Callback := MasterSlaveCallbackUrl siteURL
                         (UploadSessionID (SessionProps uploadSession))
                         (CallbackSecret uploadSession);
           CallbackSecret := CallbackSecret uploadSession;
           UploadID := UploadID uploadSession;
           SentinelTaskID := SentinelTaskID uploadSession |} in
      let mimeType := mimeTypeOf file in
      let bucket := BucketName (policy handler) in
      let* res := request (CallCreateMultipartUpload bucket
                             (SavePath (SessionProps uploadSession))
                             (ExpireAt (SessionProps uploadSession)) mimeType)
                          ReplyString
                          (svc_CreateMultipartUpload bucket
                             (SavePath (SessionProps uploadSession))
                             (ExpireAt (SessionProps uploadSession)) mimeType) in
      match res with
      | Err err =>
          ret (Returned (uploadSession,
                         Err (Errorf "failed to create multipart upload" err)))
      | Ok resUploadID =>
          let uploadSession :=
            {| SessionProps := SessionProps uploadSession;
               SessionChunkSize := SessionChunkSize uploadSession;
               Callback := Callback uploadSession;
               CallbackSecret := CallbackSecret uploadSession;
               UploadID := resUploadID;
               SentinelTaskID := SentinelTaskID uploadSession |} in
          let chunks := NewChunkGroup file (chunkSize handler) in
          match make_strings (Num chunks) with
          | None => ret (Panicked "makeslice: len out of range")
          | Some urls =>
              let* signedAll := Token_loop (S (Z.to_nat (Num chunks))) handler
                                  uploadSession resUploadID chunks urls in
              match signedAll with
              | OutOfFuel => ret OutOfFuel
              | Panicked reason => ret (Panicked reason)
              | Returned (Err err) => ret (Returned (uploadSession, Err err))
              | Returned (Ok urls) =>
                  let* d := Until (ExpireAt (SessionProps uploadSession)) in
                  let expireSeconds := Seconds d in
                  let input := {| InHTTPMethod := POST;
                                  InBucket := bucket;
                                  InKey := SavePath (Props file);
                                  InExpires := expireSeconds;
                                  InParameters := [("uploadId", resUploadID)];
                                  InContentType := Some octetStream;
                                  InResponseContentDisposition := None |} in
                  let* signed := request (CallGeneratePresignedUrl input) ReplyString
                                         (svc_GeneratePresignedUrl input) in
                  match signed with
                  | Err err => ret (Returned (uploadSession, Err err))
                  | Ok signedURL =>
                      ret (Returned (uploadSession, Ok
                             {| CredUploadID := resUploadID;
                                UploadURLs := urls;
                                CompleteURL := signedURL;
                                CredSessionID := UploadSessionID (SessionProps uploadSession);
                                CredChunkSize := chunkSize handler |}))
                  end
              end
          end
      end
  end.

(** [CancelToken]. *)
Definition CancelToken (handler : Driver) (uploadSession : UploadSession)
  : M St (option error) :=
  request (CallAbortMultipartUpload (BucketName (policy handler))
             (SavePath (SessionProps uploadSession)) (UploadID uploadSession))
          ReplyError
          (svc_AbortMultipartUpload (BucketName (policy handler))
             (SavePath (SessionProps uploadSession)) (UploadID uploadSession)).

End Operations.

(** *** Vocabulary of the specification *)

(** What [String] prints of a URL apart from its query. *)
Definition without_query (u : URL) : string :=
  Base u +:+ (if ForceQuery u then "?" else "")
         +:+ (if negb (String.eqb (Fragment u) "") then "#" +:+ Fragment u else "").

(** The request [Token] sends for chunk [i] (part [i + 1]), paired
    with a successful answer. *)
Definition partExchange (handler : Driver) (uploadSession : UploadSession)
           (uploadID : string) (i : nat) (signed : Z * string) : call * reply :=
  (CallGeneratePresignedUrl
     {| InHTTPMethod := PUT;
        InBucket := BucketName (policy handler);
        InKey := SavePath (SessionProps uploadSession);
        InExpires := fst signed;
        InParameters := [("partNumber", itoa (Z.of_nat i + 1)); ("uploadId", uploadID)];
        InContentType := Some octetStream;
        InResponseContentDisposition := None |},
   ReplyString (Ok (snd signed))).

(** **** Delete *)

Definition isNoSuchKey (e : error) : bool :=
  match e with
  | AwsError code _ => String.eqb code ErrCodeNoSuchKey
  | _ => false
  end.

(** The keys that one exchange with the store leaves undeleted: the key
    of a single delete answered by an error other than not-found; all
    the keys of a batch whose request failed; the keys a batch answer
    lists with an error. *)
Definition failedKeys (x : call * reply) : list string :=
  match x with
  | (CallDeleteObject _ key, ReplyError (Some e)) =>
      if isNoSuchKey e then [] else [key]
  | (CallDeleteObjects _ keys, ReplyDeleteErrors (Err _)) => keys
  | (CallDeleteObjects _ _, ReplyDeleteErrors (Ok errors)) => map ErrKey errors
  | _ => []
  end.

(** The error a request itself ended with, a not-found on a single
    delete apart. *)
Definition callError (x : call * reply) : option error :=
  match x with
  | (CallDeleteObject _ _, ReplyError (Some e)) =>
      if isNoSuchKey e then None else Some e
  | (CallDeleteObjects _ _, ReplyDeleteErrors (Err e)) => Some e
  | _ => None
  end.

Definition lastErrorFrom (start : option error) (log : list (call * reply))
  : option error :=
  fold_left (fun acc x => match callError x with Some e => Some e | None => acc end)
            log start.

Definition lastError : list (call * reply) -> option error := lastErrorFrom None.

(** The request [Delete] sends for one group. *)
Definition groupCall (bucket : string) (group : list string) : call :=
  match group with
  | [key] => CallDeleteObject bucket key
  | _ => CallDeleteObjects bucket group
  end.


End ks3.

(** ** An in-memory object store

    A small stand-in for the remote service, in the manner of a test
    double: a bucket is a list of [(key, size)] pairs, some keys refuse
    deletion, and the signer prints its inputs into the URL. *)

Module fake.
Import golang ks3.

Record Store : Type := {
  objects : list (string * Z);
  locked : list string;
  now : Z;
  uploads : Z;
}.

Fixpoint lookup (key : string) (l : list (string * Z)) : option Z :=
  match l with
  | [] => None
  | (k, v) :: l' => if String.eqb k key then Some v else lookup key l'
  end.

Definition remove (key : string) (l : list (string * Z)) : list (string * Z) :=
  filter (fun kv => negb (String.eqb (fst kv) key)) l.

Definition mem (key : string) (l : list string) : bool :=
  existsb (String.eqb key) l.

Definition with_objects (st : Store) (o : list (string * Z)) : Store :=
  {| objects := o; locked := locked st; now := now st; uploads := uploads st |}.

Definition head (bucket key : string) (st : Store) : result MetaData * Store :=
  match lookup key (objects st) with
  | Some size => (Ok {| Size := size; Etag := "etag" |}, st)
  | None => (Err (AwsError "NotFound" "Not Found"), st)
  end.

Definition upload (bucket key : string) (size : Z) (contentType : string) (st : Store)
  : option error * Store :=
  (None, with_objects st ((key, size) :: remove key (objects st))).

(** Deleting a locked key is refused; deleting an absent key answers
    [NoSuchKey]. *)
Definition delete_error (st : Store) (key : string) : option (string * string) :=
  if mem key (locked st) then Some ("AccessDenied", "Access Denied")
  else match lookup key (objects st) with
       | Some _ => None
       | None => Some (ErrCodeNoSuchKey, "The specified key does not exist.")
       end.

Definition delete_one (bucket key : string) (st : Store) : option error * Store :=
  match delete_error st key with
  | Some (code, msg) => (Some (AwsError code msg), st)
  | None => (None, with_objects st (remove key (objects st)))
  end.

Fixpoint delete_many_errors (st : Store) (keys : list string) : list DeleteError :=
  match keys with
  | [] => []
  | k :: keys' =>
      match delete_error st k with
      | Some (code, msg) =>
          {| ErrKey := k; ErrCode := code; ErrMessage := msg |}
            :: delete_many_errors st keys'
      | None => delete_many_errors st keys'
      end
  end.

Definition delete_many (bucket : string) (keys : list string) (st : Store)
  : result (list DeleteError) * Store :=
  (Ok (delete_many_errors st keys),
   with_objects st
     (filter (fun kv => negb (mem (fst kv) keys) || mem (fst kv) (locked st))
             (objects st))).

Definition create_multipart (bucket key : string) (expires : Z) (contentType : string)
           (st : Store) : result string * Store :=
  (Ok ("upload-" +:+ itoa (uploads st)),
   {| objects := objects st; locked := locked st; now := now st;
      uploads := uploads st + 1 |}).

Fixpoint print_parameters (ps : list (string * string)) : string :=
  match ps with
  | [] => ""
  | (k, v) :: ps' => "&" +:+ k +:+ "=" +:+ v +:+ print_parameters ps'
  end.

Definition presign (input : GeneratePresignedUrlInput) (st : Store)
  : result string * Store :=
  (Ok ("https://" +:+ InBucket input +:+ ".ks3.example/" +:+ InKey input
         +:+ "?Expires=" +:+ itoa (InExpires input)
         +:+ print_parameters (InParameters input)
         +:+ "&Signature=c2ln"), st).

Definition abort (bucket key uploadID : string) (st : Store) : option error * Store :=
  (None, st).

#[export] Instance store_backend : Backend Store := {|
  svc_HeadObject := head;
  svc_Upload := upload;
  svc_DeleteObject := delete_one;
  svc_DeleteObjects := delete_many;
  svc_CreateMultipartUpload := create_multipart;
  svc_GeneratePresignedUrl := presign;
  svc_AbortMultipartUpload := abort;
  clock_Now := fun st => (now st, st);
|}.

(** Split a URL at its first [?]: enough of [url.Parse] for the URLs the
    fake signer prints. *)
Fixpoint cut_query (s : string) : string * option string :=
  match s with
  | EmptyString => (EmptyString, None)
  | String c s' =>
      if Ascii.eqb c "?"%char then (EmptyString, Some s')
      else let (b, q) := cut_query s' in (String c b, q)
  end.

Definition parse (s : string) : result URL :=
  match cut_query s with
  | (b, Some q) => Ok {| Base := b; ForceQuery := String.eqb q ""; RawQuery := q; Fragment := "" |}
  | (b, None) => Ok {| Base := b; ForceQuery := false; RawQuery := ""; Fragment := "" |}
  end.

#[export] Instance collaborators : Collaborators := {|
  ModeOverwrite := 1;
  TypeByName := fun _ => "application/octet-stream";
  SiteURL := "https://cloud.example";
  MasterSlaveCallbackUrl := fun site id secret =>
    site +:+ "/api/v4/callback/ks3/" +:+ id +:+ "/" +:+ secret;
  ThumbSize := (400, 300);
  ThumbEncode := {| Format := "jpg"; Quality := 85 |};
  PathEscape := fun s => s;
  Parse := parse;
|}.

Definition empty : Store := {| objects := []; locked := []; now := 0; uploads := 0 |}.

Definition bucketPolicy (private : bool) (chunk batch : Z) : StoragePolicy :=
  {| BucketName := "bucket"; IsPrivate := private;
     Settings := {| ChunkSize := chunk; S3DeleteBatchSize := batch |} |}.

Definition props (path : string) (size : Z) (expireAt : Z) : UploadProps :=
  {| SavePath := path; PropsSize := size; MimeType := ""; UriName := path;
     ExpireAt := expireAt; UploadSessionID := "session-1" |}.

Definition session (path : string) (size : Z) (sentinel : Z) : UploadSession :=
  {| SessionProps := props path size 3600000000000; SessionChunkSize := 0;
     Callback := ""; CallbackSecret := "secret"; UploadID := "";
     SentinelTaskID := sentinel |}.

Definition uploadRequest (path : string) (size : Z) (mode : Z) : UploadRequest :=
  {| Props := props path size 3600000000000; Mode := mode |}.

Definition handler : Driver := New (bucketPolicy true 0 0).
Definition publicHandler : Driver := New (bucketPolicy false 4 0).

Definition holding (objs : list (string * Z)) : World Store :=
  init (with_objects empty objs).

Definition past : GetSourceArgs :=
  {| IsDownload := false; DisplayName := "a"; Expire := Some 90000000000 |}.

Definition at100s : World Store :=
  init {| objects := [("a", 9)]; locked := []; now := 100000000000; uploads := 0 |}.

End fake.

(** ** Further vocabulary for the driver *)

Module ks3_more.
Import golang ks3.

(** A request of [Delete]. *)
Definition isDeleteCall (c : call) : bool :=
  match c with
  | CallDeleteObject _ _ | CallDeleteObjects _ _ => true
  | _ => false
  end.

(** A signing request. *)
Definition isPresign (c : call) : bool :=
  match c with
  | CallGeneratePresignedUrl _ => true
  | _ => false
  end.

(** The number of groups [lo.Chunk] cuts [n] keys into. *)
Definition groupCount (n : nat) (batch : Z) : Z :=
  (Z.of_nat n + batch - 1) / batch.

(** The requests sent from the world [w] to the world [w']. *)
Definition sentBetween {St} (w w' : World St) : list (call * reply) :=
  drop (length (calls w)) (calls w').

(** The session as [Token] leaves it before it asks for a multipart
    upload: the chunk size and the callback address are set. *)
Definition prepared {env : Collaborators} (handler : Driver) (s : UploadSession)
  : UploadSession :=
  {| SessionProps := SessionProps s;
     SessionChunkSize := chunkSize handler;
     Callback := MasterSlaveCallbackUrl SiteURL (UploadSessionID (SessionProps s))
                   (CallbackSecret s);
     CallbackSecret := CallbackSecret s;
     UploadID := UploadID s;
     SentinelTaskID := SentinelTaskID s |}.

(** The session once the store has issued the upload [id]. *)
Definition withUpload (s : UploadSession) (id : string) : UploadSession :=
  {| SessionProps := SessionProps s;
     SessionChunkSize := SessionChunkSize s;
     Callback := Callback s;
     CallbackSecret := CallbackSecret s;
     UploadID := id;
     SentinelTaskID := SentinelTaskID s |}.

(** The credential agrees with the session it was issued for. *)
Definition agrees (cred : UploadCredential) (s : UploadSession) : Prop :=
  CredUploadID cred = UploadID s
  /\ CredChunkSize cred = SessionChunkSize s
  /\ CredSessionID cred = UploadSessionID (SessionProps s).

End ks3_more.

(** ** More drivers and stores for the in-memory service *)

Module fake_more.
Import golang ks3 ks3_more fake.

(** A policy with a negative batch size. *)
Definition brokenHandler : Driver := New (bucketPolicy true 0 (-1)).

(** Batches of two keys. *)
Definition pairsHandler : Driver := New (bucketPolicy true 0 2).

(** The keys [a] and [b], of which [a] refuses deletion. *)
Definition guarded : World Store :=
  init {| objects := [("a", 9); ("b", 3)]; locked := ["a"]; now := 0; uploads := 0 |}.

(** An upload of 10 bytes to the free key [f], in chunks of 4. *)
Definition tokenRun
  : outcome (UploadSession * result UploadCredential) * World Store :=
  Token publicHandler (session "f" 10 7) (uploadRequest "f" 10 0) (holding []).

Definition issuedSession : UploadSession :=
  withUpload (prepared publicHandler (session "f" 10 7)) "upload-0".

Definition issuedCredential : result UploadCredential :=
  match fst tokenRun with
  | Returned (_, r) => r
  | _ => Err ErrFileExisted
  end.

End fake_more.

(** ** The listing of the KS3 driver *)

Module ks3_list.
Import golang ks3.

(** *** Data *)

(** [s3.Object], the fields [List] reads; both are pointers. *)
Record Object : Type := {
  Key : option string;
  ObjectSize : option Z;
}.

(** [s3.CommonPrefix]. *)
Record CommonPrefix : Type := {
  Prefix : option string;
}.

(** [s3.ListObjectsInput], the fields [List] sets. *)
Record ListObjectsInput : Type := {
  InputBucket : string;
  InputPrefix : string;
  MaxKeys : Z;
  Delimiter : option string;
  Marker : option string;
}.

(** [s3.ListObjectsOutput], the fields [List] reads. *)
Record ListObjectsOutput : Type := {
  Contents : list Object;
  CommonPrefixes : list CommonPrefix;
  IsTruncated : option bool;
  NextMarker : option string;
}.

(** [fs.PhysicalObject]. *)
Record PhysicalObject : Type := {
  Name : string;
  Source : string;
  RelativePath : string;
  Size : Z;
  IsDir : bool;
  LastModify : Z;
}.

(** *** Collaborators *)

(** The listing request of the object store, the clock, and the path
    functions of the standard library. *)
Class Lister (St : Type) : Type := {
  (** [handler.svc.ListObjectsWithContext] *)
  svc_ListObjects : ListObjectsInput -> St -> result ListObjectsOutput * St;
  (** [time.Now()] *)
  time_Now : St -> Z * St;
  (** [filepath.Rel]: [None] when it returns an error *)
  filepath_Rel : string -> string -> option string;
  (** [path.Base] *)
  path_Base : string -> string;
  (** [filepath.ToSlash] *)
  filepath_ToSlash : string -> string;
}.

(** The object store, the listing requests sent so far with their
    answers, and the counts handed to [onProgress], oldest first. *)
Record Listing (St : Type) : Type := {
  remote : St;
  sent : list (ListObjectsInput * result ListObjectsOutput);
  reported : list Z;
}.
Arguments remote {St} _.
Arguments sent {St} _.
Arguments reported {St} _.

Definition L (St A : Type) : Type := Listing St -> A * Listing St.

Definition unit_ {St A} (a : A) : L St A := fun w => (a, w).

Definition then_ {St A B} (m : L St A) (k : A -> L St B) : L St B :=
  fun w => let (a, w') := m w in k a w'.

Notation "'let+' x ':=' m 'in' k" := (then_ m (fun x => k))
  (at level 10, x pattern, m at level 100, k at level 200).

Section Listing.
Context {St : Type} {lister : Lister St}.

Definition ListObjects (opt : ListObjectsInput) : L St (result ListObjectsOutput) :=
  fun w =>
    let (r, st) := svc_ListObjects opt (remote w) in
    (r, {| remote := st; sent := sent w ++ [(opt, r)]; reported := reported w |}).

Definition Now : L St Z :=
  fun w =>
    let (t, st) := time_Now (remote w) in
    (t, {| remote := st; sent := sent w; reported := reported w |}).

(** [onProgress(n)]. *)
Definition report (n : Z) : L St unit :=
  fun w => (tt, {| remote := remote w; sent := sent w; reported := reported w ++ [n] |}).

Definition nilDereference : string :=
  "invalid memory address or nil pointer dereference".

(** [opt.Marker = res.NextMarker] *)
Definition withMarker (opt : ListObjectsInput) (marker : option string) : ListObjectsInput :=
  {| InputBucket := InputBucket opt; InputPrefix := InputPrefix opt;
     MaxKeys := MaxKeys opt; Delimiter := Delimiter opt; Marker := marker |}.

(** The loop that fetches the pages. *)
Fixpoint fetchPages (fuel : nat) (opt : ListObjectsInput)
         (objects : list Object) (commons : list CommonPrefix)
  : L St (outcome (result (ListObjectsInput * list Object * list CommonPrefix))) :=
  match fuel with
  | O => unit_ OutOfFuel
  | S fuel' =>
      let+ res := ListObjects opt in
      match res with
      | Err err => unit_ (Returned (Err err))
      | Ok res =>
          let objects := objects ++ Contents res in
          let commons := commons ++ CommonPrefixes res in
          match IsTruncated res with
          | None => unit_ (Panicked nilDereference)
          | Some true => fetchPages fuel' (withMarker opt (NextMarker res)) objects commons
          | Some false => unit_ (Returned (Ok (opt, objects, commons)))
          end
      end
  end.

(** The loop over the common prefixes: a prefix that [filepath.Rel]
    rejects is skipped; a nil prefix panics.  [None] is the panic. *)
Fixpoint directories (prefix : string) (commons : list CommonPrefix)
         (res : list PhysicalObject) : L St (option (list PhysicalObject)) :=
  match commons with
  | [] => unit_ (Some res)
  | object :: commons' =>
      match Prefix object with
      | None => unit_ None
      | Some p =>
          match filepath_Rel prefix p with
          | None => directories prefix commons' res
          | Some rel =>
              let+ now := Now in
              directories prefix commons'
                (res ++ [{| Name := path_Base p;
                            Source := "";
                            RelativePath := filepath_ToSlash rel;
                            Size := 0;
                            IsDir := true;
                            LastModify := now |}])
          end
      end
  end.

(** The loop over the objects. *)
Fixpoint files (prefix : string) (objects : list Object)
         (res : list PhysicalObject) : L St (option (list PhysicalObject)) :=
  match objects with
  | [] => unit_ (Some res)
  | object :: objects' =>
      match Key object with
      | None => unit_ None
      | Some key =>
          match filepath_Rel prefix key with
          | None => files prefix objects' res
          | Some rel =>
              match ObjectSize object with
              | None => unit_ None
              | Some size =>
                  let+ now := Now in
                  files prefix objects'
                    (res ++ [{| Name := path_Base key;
                                Source := key;
                                RelativePath := filepath_ToSlash rel;
                                Size := size;
                                IsDir := false;
                                LastModify := now |}])
              end
          end
      end
  end.

(** The prefix [List] asks for: [base] without one leading slash, and
    with a closing slash unless it is empty. *)
Definition prefixOf (base : string) : string :=
  let base := TrimPrefix base "/" in
  if negb (String.eqb base "") then base +:+ "/" else base.

(** [List]; [onProgress] tells whether the callback is set, a nil
    function panicking when called.  [fuel] bounds the number of pages
    fetched. *)
Definition List (fuel : nat) (handler : Driver) (base : string)
           (onProgress : bool) (recursive : bool)
  : L St (outcome (result (list PhysicalObject))) :=
  let base := prefixOf base in
  let opt := {| InputBucket := BucketName (policy handler);
                InputPrefix := base;
                MaxKeys := 1000;
                Delimiter := if negb recursive then Some "/" else None;
                Marker := None |} in
  let+ pages := fetchPages fuel opt [] [] in
  match pages with
  | OutOfFuel => unit_ OutOfFuel
  | Panicked reason => unit_ (Panicked reason)
  | Returned (Err err) => unit_ (Returned (Err err))
  | Returned (Ok (opt, objects, commons)) =>
      let+ res := directories (InputPrefix opt) commons [] in
      match res with
      | None => unit_ (Panicked nilDereference)
      | Some res =>
          if negb onProgress then unit_ (Panicked nilDereference)
          else
            let+ _ := report (Z.of_nat (length commons)) in
            let+ res := files (InputPrefix opt) objects res in
            match res with
            | None => unit_ (Panicked nilDereference)
            | Some res =>
                let+ _ := report (Z.of_nat (length objects)) in
                unit_ (Returned (Ok res))
            end
      end
  end.

(** *** Vocabulary for the properties of the listing *)

Definition exchange : Type := (ListObjectsInput * result ListObjectsOutput)%type.

(** A page that announces more. *)
Definition truncated (p : exchange) : bool :=
  match snd p with
  | Ok res => match IsTruncated res with Some true => true | _ => false end
  | Err _ => false
  end.

(** Requests that follow one another as the loop sends them: the first
    is [opt]; after a page that announces more, the next request is the
    same with the marker the page gave, whatever it is; any other answer
    is the last. *)
Fixpoint chained (opt : ListObjectsInput) (pages : list exchange) : Prop :=
  match pages with
  | [] => True
  | p :: rest =>
      fst p = opt
      /\ match snd p with
         | Ok res =>
             if truncated p then chained (withMarker opt (NextMarker res)) rest
             else rest = []
         | Err _ => rest = []
         end
  end.

Definition objectsOf (pages : list exchange) : list Object :=
  flat_map (fun p => match snd p with Ok res => Contents res | Err _ => [] end) pages.

Definition commonsOf (pages : list exchange) : list CommonPrefix :=
  flat_map (fun p => match snd p with Ok res => CommonPrefixes res | Err _ => [] end) pages.

(** An entry without the instant it was made at. *)
Definition untimed (o : PhysicalObject) : PhysicalObject :=
  {| Name := Name o; Source := Source o; RelativePath := RelativePath o;
     Size := Size o; IsDir := IsDir o; LastModify := 0 |}.

(** The entry of a common prefix, if it has one. *)
Definition directoryOf (prefix : string) (c : CommonPrefix) : option PhysicalObject :=
  match Prefix c with
  | None => None
  | Some p =>
      match filepath_Rel prefix p with
      | None => None
      | Some rel =>
          Some {| Name := path_Base p; Source := ""; RelativePath := filepath_ToSlash rel;
                  Size := 0; IsDir := true; LastModify := 0 |}
      end
  end.

(** The entry of an object, if it has one. *)
Definition fileOf (prefix : string) (o : Object) : option PhysicalObject :=
  match Key o, ObjectSize o with
  | Some key, Some size =>
      match filepath_Rel prefix key with
      | None => None
      | Some rel =>
          Some {| Name := path_Base key; Source := key;
                  RelativePath := filepath_ToSlash rel;
                  Size := size; IsDir := false; LastModify := 0 |}
      end
  | _, _ => None
  end.

(** The first request of [List]. *)
Definition firstRequest (handler : Driver) (base : string) (recursive : bool)
  : ListObjectsInput :=
  {| InputBucket := BucketName (policy handler);
     InputPrefix := prefixOf base;
     MaxKeys := 1000;
     Delimiter := if negb recursive then Some "/" else None;
     Marker := None |}.

End Listing.
End ks3_list.

(** ** A scripted object store for the listing *)

Module fake_lister.
Import golang ks3 ks3_list.

(** The answers the store will give, in order, and its clock. *)
Record Script : Type := {
  answers : list (result ListObjectsOutput);
  clock : Z;
}.

Definition answer (opt : ListObjectsInput) (st : Script)
  : result ListObjectsOutput * Script :=
  match answers st with
  | [] => (Err (OtherError "connection reset"), st)
  | r :: rest => (r, {| answers := rest; clock := clock st |})
  end.

Definition tick (st : Script) : Z * Script :=
  (clock st, {| answers := answers st; clock := clock st + 1 |}).

(** The last element of a slash-separated path. *)
Fixpoint baseFrom (s cur last : string) : string :=
  match s with
  | EmptyString => if String.eqb cur "" then last else cur
  | String c s' =>
      if Ascii.eqb c "/"%char
      then baseFrom s' "" (if String.eqb cur "" then last else cur)
      else baseFrom s' (cur +:+ String c EmptyString) last
  end.

#[export] Instance scripted : Lister Script := {|
  svc_ListObjects := answer;
  time_Now := tick;
  filepath_Rel := fun base target => strip_prefix base target;
  path_Base := fun s => baseFrom s "" "";
  filepath_ToSlash := fun s => s;
|}.

Definition script (l : list (result ListObjectsOutput)) : Listing Script :=
  {| remote := {| answers := l; clock := 7 |}; sent := []; reported := [] |}.

Definition object (key : string) (size : Z) : Object :=
  {| Key := Some key; ObjectSize := Some size |}.

(** Two pages under [docs/]: a folder and a file, then one more file. *)
Definition page1 : ListObjectsOutput :=
  {| Contents := [object "docs/a.txt" 3];
     CommonPrefixes := [{| Prefix := Some "docs/sub/" |}];
     IsTruncated := Some true;
     NextMarker := Some "docs/a.txt" |}.

Definition page2 : ListObjectsOutput :=
  {| Contents := [object "docs/b.txt" 5; object "elsewhere" 9];
     CommonPrefixes := [];
     IsTruncated := Some false;
     NextMarker := None |}.

Definition timeout : error := OtherError "request timeout".

Definition docsRequest : ListObjectsInput :=
  {| InputBucket := "bucket"; InputPrefix := "docs/"; MaxKeys := 1000;
     Delimiter := Some "/"; Marker := None |}.

End fake_lister.

(** ** The archive routines of the file manager *)

Module manager.
Import golang.

(** *** Errors *)

Inductive error : Type :=
| OtherError (message : string)
    (** an error of a collaborator *)
| Errorf (context : string) (cause : error)
    (** [fmt.Errorf("<context>: %w", cause)] *)
| ErrNotSupportedAction (detail : string)
    (** [fs.ErrNotSupportedAction.WithError(fmt.Errorf(detail))] *)
| ErrFileSizeTooBig (detail : string)
    (** [fs.ErrFileSizeTooBig.WithError(fmt.Errorf(detail))] *)
| ErrEntityNotExist
    (** [fs.ErrEntityNotExist] *)
| ErrArchiveSrcSizeTooBig.
    (** [fs.ErrArchiveSrcSizeTooBig] *)

Inductive result (A : Type) : Type :=
| Ok (a : A)
| Err (e : error).
Arguments Ok {A} a.
Arguments Err {A} e.

(** *** Data *)

Record ArchivedFile : Type := {
  Name : string;
  Size : Z;
  UpdatedAt : option Z;
  IsDirectory : bool;
}.

Definition ArchiveListCacheTTL : Z := 3600.

(** The keys of the [ZipEncodings] table; an encoding is known by its
    key. *)
Definition ZipEncodings : list string :=
  [ "ibm866"; "iso8859_2"; "iso8859_3"; "iso8859_4"; "iso8859_5"; "iso8859_6";
    "iso8859_7"; "iso8859_8"; "iso8859_8I"; "iso8859_10"; "iso8859_13";
    "iso8859_14"; "iso8859_15"; "iso8859_16"; "koi8r"; "koi8u"; "macintosh";
    "windows874"; "windows1250"; "windows1251"; "windows1252"; "windows1253";
    "windows1254"; "windows1255"; "windows1256"; "windows1257"; "windows1258";
    "macintoshcyrillic"; "gbk"; "gb18030"; "big5"; "eucjp"; "iso2022jp";
    "shiftjis"; "euckr"; "utf16be"; "utf16le" ].

(** [ZipEncodings[key]]. *)
Definition lookupEncoding (key : string) : option string :=
  if existsb (String.eqb key) ZipEncodings then Some key else None.

Inductive FileType : Type := FileTypeFile | FileTypeFolder.

(** An [fs.File] as the archive routines read it, with the files below
    it when it is a folder. *)
#[local] Set Warnings "-register-all".
Inductive File : Type := MkFile {
  Type_ : FileType;
  FileSize : Z;
  Ext : string;
  IsSymbolic : bool;
  DisplayName : string;
  Uri : string;
  UriDir : string;
  PrimaryEntityID : Z;
  FileUpdatedAt : Z;
  Children : list File;
}.

(** [fs.Entity]. *)
Record Entity : Type := {
  ID : Z;
  EntitySize : Z;
}.

(** An open [entitysource.EntitySource]. *)
Record EntitySource : Type := {
  SourceEntity : Entity;
}.

(** A [zip.File] of an archive's central directory: its header and what
    [FileInfo()] tells. *)
Record ZipFile : Type := {
  HdrName : string;
  HdrNonUTF8 : bool;
  HdrComment : string;
  InfoSize : Z;
  InfoModTime : Z;
  InfoIsDir : bool;
}.

(** A [sevenzip.File]. *)
Record SevenZipFile : Type := {
  SzName : string;
  SzSize : Z;
  SzModTime : Z;
  SzIsDir : bool;
}.

Inductive Method : Type := Store | Deflate.

(** [zip.FileHeader]. *)
Record FileHeader : Type := {
  HeaderName : string;
  Modified : Z;
  UncompressedSize64 : Z;
  HeaderMethod : Method;
}.

(** An entry of the archive being written: its header, and whether its
    body was copied to the end. *)
Record ZipEntry : Type := {
  EntryHeader : FileHeader;
  EntryComplete : bool;
}.

(** The options of [CreateArchive]; [DryRun] and [ProgressFunc] tell
    whether the callback is set. *)
Record Option_ : Type := {
  ArchiveCompression : bool;
  DryRun : bool;
  ProgressFunc : bool;
  MaxArchiveSize : Z;
}.

(** *** Collaborators *)

(** What the manager asks of the file system, the storage layer, the
    archive readers and the standard library. *)
Record Env : Type := {
  (** [m.fs.Get] / [m.Get] with the options of the call *)
  Get : string -> result File;
  (** [fs.FindDesiredEntity(file, entity, m.hasher, nil)] *)
  FindDesiredEntity : File -> string -> option Entity;
  (** [m.user.Edges.Group.Settings.DecompressSize] *)
  DecompressSize : Z;
  (** [strings.ToLower] *)
  ToLower : string -> string;
  (** [m.GetEntitySource]: by entity id, or for a given entity *)
  GetEntitySource : Z -> option Entity -> result EntitySource;
  (** [zip.NewReader] over a section of the source *)
  zip_NewReader : EntitySource -> Z -> result (list ZipFile);
  (** [sevenzip.NewReader] *)
  sevenzip_NewReader : EntitySource -> Z -> result (list SevenZipFile);
  (** [enc.NewDecoder().String]: [None] when decoding fails *)
  decodeString : string -> string -> option string;
  (** [util.FormSlash] *)
  FormSlash : string -> string;
  (** [filepath.FromSlash(path.Join(parent, name))] *)
  JoinFromSlash : string -> string -> string;
  (** the error of [zipWriter.CreateHeader], if any *)
  CreateHeaderError : FileHeader -> option error;
  (** the error of [io.Copy(writer, es)], if any *)
  CopyError : EntitySource -> option error;
}.

(** What a call does that can be seen from outside. *)
Inductive event : Type :=
| EvOpen (entityID : Z)
    (** an entity source was opened *)
| EvClose (entityID : Z)
| EvDecode (format : string) (entityID : Z)
    (** a format decoder ran over the source *)
| EvDryRun (zipName : string) (entity : Entity)
| EvProgress (compressed size reserved : Z)
| EvWarnCompress (uri : string) (err : error)
    (** "Failed to compress file ..., skipping it..." *)
| EvWarnWalk (uri : string) (err : error).
    (** "Failed to walk folder ..., skipping it..." *)

Record World : Type := {
  env : Env;
  (** the listing cache: value and instant of expiry *)
  kv : gmap string (list ArchivedFile * Z);
  (** [time.Now().Unix()] *)
  now : Z;
  events : list event;
  (** the archive written so far *)
  archive : list ZipEntry;
  archiveClosed : bool;
}.

Definition M (A : Type) : Type := World -> A * World.

Definition ret {A} (a : A) : M A := fun w => (a, w).

Definition bind {A B} (m : M A) (k : A -> M B) : M B :=
  fun w => let (a, w') := m w in k a w'.

Notation "'let*' x ':=' m 'in' k" := (bind m (fun x => k))
  (at level 10, x pattern, m at level 100, k at level 200).

Definition ask {A} (f : Env -> A) : M A := fun w => (f (env w), w).

Definition emit (e : event) : M unit :=
  fun w => (tt, {| env := env w; kv := kv w; now := now w;
                   events := events w ++ [e];
                   archive := archive w; archiveClosed := archiveClosed w |}).

(** Modelled from the spec: the [cache.Driver] collaborator ([m.kv]), a
    generic TTL key-value store whose source is not part of this
    development.  [Set] keeps a value for [ttl] seconds from now; [Get]
    finds it until then. *)
Definition kv_Set (key : string) (value : list ArchivedFile) (ttl : Z) : M unit :=
  fun w => (tt, {| env := env w;
                   kv := <[key := (value, now w + ttl)]> (kv w);
                   now := now w; events := events w;
                   archive := archive w; archiveClosed := archiveClosed w |}).

Definition kv_Get (key : string) : M (option (list ArchivedFile)) :=
  fun w =>
    match kv w !! key with
    | Some (value, expires) =>
        if now w <? expires then (Some value, w) else (None, w)
    | None => (None, w)
    end.

(** *** Listing *)

Definition getArchiveListCacheKey (entity : Z) (encoding : string) : string :=
  "archive_list_" +:+ itoa entity +:+ "_" +:+ encoding.

(** The body of the loop of [getZipFileList].  The loop also decodes
    the comment of the header copy, which no result field reads. *)
Definition zipFileEntry (e : Env) (textEncoding : option string) (f : ZipFile)
  : ArchivedFile :=
  let name :=
    match textEncoding with
    | Some enc =>
        if HdrNonUTF8 f then
          match decodeString e enc (HdrName f) with
          | Some filename => filename
          | None => HdrName f
          end
        else HdrName f
    | None => HdrName f
    end in
  {| Name := FormSlash e name;
     Size := InfoSize f;
     UpdatedAt := Some (InfoModTime f);
     IsDirectory := InfoIsDir f |}.

Definition getZipFileList (file : EntitySource) (size : Z) (textEncoding : option string)
  : M (result (list ArchivedFile)) :=
  let* _ := emit (EvDecode "zip" (ID (SourceEntity file))) in
  let* e := ask id in
  match zip_NewReader e file size with
  | Err err => ret (Err (Errorf "failed to create zip reader" err))
  | Ok files => ret (Ok (map (zipFileEntry e textEncoding) files))
  end.

Definition get7zFileList (file : EntitySource) (size : Z) (textEncoding : option string)
  : M (result (list ArchivedFile)) :=
  let* _ := emit (EvDecode "7z" (ID (SourceEntity file))) in
  let* e := ask id in
  match sevenzip_NewReader e file size with
  | Err err => ret (Err (Errorf "failed to create 7z reader" err))
  | Ok files =>
      ret (Ok (map (fun f => {| Name := FormSlash e (SzName f);
                                Size := SzSize f;
                                UpdatedAt := Some (SzModTime f);
                                IsDirectory := SzIsDir f |}) files))
  end.

(** [ListArchiveFiles], from the cache lookup on: the source is open
    from [GetEntitySource] to the deferred [Close]. *)
Definition ListArchiveFiles_miss (file : File) (targetEntity : Entity)
           (enc : option string) (cacheKey : string)
  : M (result (list ArchivedFile)) :=
  let* e := ask id in
  match GetEntitySource e 0 (Some targetEntity) with
  | Err err => ret (Err (Errorf "failed to get entity source" err))
  | Ok es =>
      let* _ := emit (EvOpen (ID (SourceEntity es))) in
      let* r :=
        (let readerFunc :=
           if String.eqb (Ext file) "zip" then Some getZipFileList
           else if String.eqb (Ext file) "7z" then Some get7zFileList
           else None in
         match readerFunc with
         | None =>
             ret (Err (ErrNotSupportedAction
                         ("not supported archive format: " +:+ Ext file)))
         | Some readerFunc =>
             let* fileList := readerFunc es (EntitySize targetEntity) enc in
             match fileList with
             | Err err => ret (Err (Errorf "failed to read file list" err))
             | Ok fileList =>
                 let* _ := kv_Set cacheKey fileList ArchiveListCacheTTL in
                 ret (Ok fileList)
             end
         end) in
      let* _ := emit (EvClose (ID (SourceEntity es))) in
      ret r
  end.

(** [ListArchiveFiles], up to the cache lookup: the file, the entity
    and the text encoding the call is about, or the error it ends
    with. *)
Definition resolveTarget (e : Env) (uri : string) (entity zipEncoding : string)
  : result (File * Entity * option string) :=
  match Get e uri with
  | Err err => Err (Errorf "failed to get file" err)
  | Ok file =>
      match Type_ file with
      | FileTypeFolder =>
          Err (ErrNotSupportedAction ("path " +:+ uri +:+ " is not a file"))
      | FileTypeFile =>
          if (0 <? DecompressSize e) && (DecompressSize e <? FileSize file) then
            Err (ErrFileSizeTooBig
                   ("file size " +:+ itoa (FileSize file)
                      +:+ " exceeds the limit " +:+ itoa (DecompressSize e)))
          else
            match FindDesiredEntity e file entity with
            | None => Err ErrEntityNotExist
            | Some targetEntity =>
                if String.eqb zipEncoding "" then Ok (file, targetEntity, None)
                else match lookupEncoding (ToLower e zipEncoding) with
                     | Some enc => Ok (file, targetEntity, Some enc)
                     | None =>
                         Err (ErrNotSupportedAction
                                ("not supported zip encoding: " +:+ zipEncoding))
                     end
            end
      end
  end.

(** [ListArchiveFiles]. *)
Definition ListArchiveFiles (uri : string) (entity zipEncoding : string)
  : M (result (list ArchivedFile)) :=
  let* e := ask id in
  match resolveTarget e uri entity zipEncoding with
  | Err err => ret (Err err)
  | Ok (file, targetEntity, enc) =>
      let cacheKey := getArchiveListCacheKey (ID targetEntity) zipEncoding in
      let* res := kv_Get cacheKey in
      match res with
      | Some res => ret (Ok res)
      | None => ListArchiveFiles_miss file targetEntity enc cacheKey
      end
  end.

(** *** Creation *)

(** [zipWriter.CreateHeader] followed by [io.Copy]: the entry is in the
    archive as soon as its header is written. *)
Definition push_entry (h : FileHeader) (complete : bool) : M unit :=
  fun w => (tt, {| env := env w; kv := kv w; now := now w; events := events w;
                   archive := archive w ++ [{| EntryHeader := h;
                                               EntryComplete := complete |}];
                   archiveClosed := archiveClosed w |}).

(** The deferred [zipWriter.Close()]. *)
Definition close_archive : M unit :=
  fun w => (tt, {| env := env w; kv := kv w; now := now w; events := events w;
                   archive := archive w; archiveClosed := true |}).

(** [compressFileToArchive]. *)
Definition compressFileToArchive (parent : string) (file : File)
           (compression : bool) (dryrun : bool) : M (option error) :=
  let* e := ask id in
  match GetEntitySource e (PrimaryEntityID file) None with
  | Err err =>
      ret (Some (Errorf ("failed to get entity source for file " +:+ Uri file) err))
  | Ok es =>
      let zipName := JoinFromSlash e parent (DisplayName file) in
      if dryrun then
        let* _ := emit (EvDryRun zipName (SourceEntity es)) in
        ret None
      else
        let header := {| HeaderName := zipName;
                         Modified := FileUpdatedAt file;
                         UncompressedSize64 := FileSize file mod 2 ^ 64;
                         HeaderMethod := if negb compression then Store else Deflate |} in
        match CreateHeaderError e header with
        | Some err =>
            ret (Some (Errorf ("failed to create zip header for " +:+ Uri file) err))
        | None =>
            match CopyError e es with
            | Some err => let* _ := push_entry header false in ret (Some err)
            | None => let* _ := push_entry header true in ret None
            end
        end
  end.

(** The files below a folder, depth first, each folder before its
    content. *)
Fixpoint descendants (f : File) : list File :=
  (fix below (l : list File) : list File :=
     match l with
     | [] => []
     | c :: l' => c :: descendants c ++ below l'
     end) (Children f).

(** Modelled from the spec: [m.Walk], the walk of the virtual file
    system, whose source is not part of this development.  It visits the
    descendants of [root] depth first and hands each to [walk]; an error
    of [walk] ends the walk and is returned. *)
Fixpoint walkFiles {S} (walk : File -> S -> M (option error * S)) (l : list File) (s : S)
  : M (option error * S) :=
  match l with
  | [] => ret (None, s)
  | f :: l' =>
      let* r := walk f s in
      match r with
      | (Some err, s') => ret (Some err, s')
      | (None, s') => walkFiles walk l' s'
      end
  end.

Definition Walk {S} (root : File) (walk : File -> S -> M (option error * S)) (s : S)
  : M (option error * S) :=
  walkFiles walk (descendants root) s.

(** The local variables the loops of [CreateArchive] update: [failed]
    (an [int], which takes one step per file or folder and stays far from
    the ends of its range) and [compressed] (an [int64] sum of sizes). *)
Record Counters : Type := {
  failed : Z;
  compressed : Z;
}.

(** One file reaching the archive, at a root or inside a walk:
    compress it, count a failure, add its size, report progress.  The
    size check that follows differs between the two places. *)
Definition archiveOne (o : Option_) (parent : string) (f : File) (c : Counters)
  : M Counters :=
  let* err := compressFileToArchive parent f (ArchiveCompression o) (DryRun o) in
  let* failed' :=
    match err with
    | Some err =>
        let* _ := emit (EvWarnCompress (Uri f) err) in
        ret (failed c + 1)
    | None => ret (failed c)
    end in
  let compressed' := wrap64 (compressed c + FileSize f) in
  let* _ := if ProgressFunc o
            then emit (EvProgress compressed' (FileSize f) 0)
            else ret tt in
  ret {| failed := failed'; compressed := compressed' |}.

Definition overLimit (o : Option_) (c : Counters) : bool :=
  (0 <? MaxArchiveSize o) && (MaxArchiveSize o <? compressed c).

(** The function [CreateArchive] hands to [Walk] for the folder [file]. *)
Definition walkFunc (o : Option_) (file : File) (f : File) (c : Counters)
  : M (option error * Counters) :=
  match Type_ f, IsSymbolic f with
  | FileTypeFolder, _ | _, true => ret (None, c)
  | _, _ =>
      let* c' := archiveOne o (TrimPrefix (UriDir f) (UriDir file)) f c in
      if overLimit o c' then ret (Some ErrArchiveSrcSizeTooBig, c')
      else ret (None, c')
  end.

(** The loop of [CreateArchive] over the resolved roots.  [Some err]
    is the early [return 0, err]. *)
Fixpoint archiveRoots (o : Option_) (files : list File) (c : Counters)
  : M (option error * Counters) :=
  match files with
  | [] => ret (None, c)
  | file :: files' =>
      match Type_ file with
      | FileTypeFile =>
          let* c' := archiveOne o "/" file c in
          if overLimit o c' then ret (Some ErrArchiveSrcSizeTooBig, c')
          else archiveRoots o files' c'
      | FileTypeFolder =>
          let* r := Walk file (walkFunc o file) c in
          match r with
          | (Some err, c') =>
              let* _ := emit (EvWarnWalk (Uri file) err) in
              archiveRoots o files'
                {| failed := failed c' + 1; compressed := compressed c' |}
          | (None, c') => archiveRoots o files' c'
          end
      end
  end.

(** The first loop of [CreateArchive]: resolve every root. *)
Fixpoint resolveRoots (e : Env) (uris : list string) : result (list File) :=
  match uris with
  | [] => Ok []
  | uri :: uris' =>
      match Get e uri with
      | Err err => Err (Errorf ("failed to get file " +:+ uri) err)
      | Ok file =>
          match resolveRoots e uris' with
          | Err err => Err err
          | Ok files => Ok (file :: files)
          end
      end
  end.

(** [CreateArchive]: the failure count and the error it returns. *)
Definition CreateArchive (uris : list string) (o : Option_) : M (Z * option error) :=
  let* e := ask id in
  match resolveRoots e uris with
  | Err err => ret (0, Some err)
  | Ok files =>
      let* r := archiveRoots o files {| failed := 0; compressed := 0 |} in
      let* _ := close_archive in
      match r with
      | (Some err, _) => ret (0, Some err)
      | (None, c) => ret (failed c, None)
      end
  end.

(** *** Vocabulary of the specification *)

(** [w] after more events and more archive entries. *)
Definition extend (w : World) (evs : list event) (ents : list ZipEntry) : World :=
  {| env := env w; kv := kv w; now := now w;
     events := events w ++ evs;
     archive := archive w ++ ents;
     archiveClosed := archiveClosed w |}.

(** What a call on the miss path does when the source opens and the
    format is known: it opens the source, runs the decoder once, and
    closes the source; only a successful decode is stored. *)
Definition decoded (e : Env) (file : File) (es : EntitySource) (size : Z)
           (enc : option string) : option (string * result (list ArchivedFile)) :=
  if String.eqb (Ext file) "zip" then
    Some ("zip",
          match zip_NewReader e es size with
          | Err err => Err (Errorf "failed to create zip reader" err)
          | Ok files => Ok (map (zipFileEntry e enc) files)
          end)
  else if String.eqb (Ext file) "7z" then
    Some ("7z",
          match sevenzip_NewReader e es size with
          | Err err => Err (Errorf "failed to create 7z reader" err)
          | Ok files =>
              Ok (map (fun f => {| Name := FormSlash e (SzName f);
                                   Size := SzSize f;
                                   UpdatedAt := Some (SzModTime f);
                                   IsDirectory := SzIsDir f |}) files)
          end)
  else None.

Definition stored (w : World) (key : string) (value : list ArchivedFile) : World :=
  {| env := env w;
     kv := <[key := (value, now w + ArchiveListCacheTTL)]> (kv w);
     now := now w; events := events w;
     archive := archive w; archiveClosed := archiveClosed w |}.

(** A file that [CreateArchive] hands to [compressFileToArchive]: not a
    folder, not a symbolic link. *)
Definition archivable (f : File) : bool :=
  match Type_ f, IsSymbolic f with
  | FileTypeFolder, _ | _, true => false
  | _, _ => true
  end.

(** The files a root brings to the archive, each with the parent path
    its entry is named under. *)
Definition targetsOf (root : File) : list (string * File) :=
  match Type_ root with
  | FileTypeFile => [("/", root)]
  | FileTypeFolder =>
      map (fun f => (TrimPrefix (UriDir f) (UriDir root), f))
          (List.filter archivable (descendants root))
  end.

Definition headerOf (e : Env) (o : Option_) (t : string * File) : FileHeader :=
  {| HeaderName := JoinFromSlash e (fst t) (DisplayName (snd t));
     Modified := FileUpdatedAt (snd t);
     UncompressedSize64 := FileSize (snd t) mod 2 ^ 64;
     HeaderMethod := if negb (ArchiveCompression o) then Store else Deflate |}.

(** What compressing one file comes to: the error, if any, and the
    entries the archive gains. *)
Definition compressOutcome (e : Env) (o : Option_) (t : string * File)
  : option error * list ZipEntry :=
  match GetEntitySource e (PrimaryEntityID (snd t)) None with
  | Err err =>
      (Some (Errorf ("failed to get entity source for file " +:+ Uri (snd t)) err), [])
  | Ok es =>
      if DryRun o then (None, [])
      else
        match CreateHeaderError e (headerOf e o t) with
        | Some err =>
            (Some (Errorf ("failed to create zip header for " +:+ Uri (snd t)) err), [])
        | None =>
            match CopyError e es with
            | Some err =>
                (Some err, [{| EntryHeader := headerOf e o t; EntryComplete := false |}])
            | None =>
                (None, [{| EntryHeader := headerOf e o t; EntryComplete := true |}])
            end
        end
  end.

Definition fails (e : Env) (o : Option_) (t : string * File) : bool :=
  match fst (compressOutcome e o t) with Some _ => true | None => false end.

Definition entriesOf (e : Env) (o : Option_) (t : string * File) : list ZipEntry :=
  snd (compressOutcome e o t).

Definition sizesOf (ts : list (string * File)) : list Z :=
  map (fun t => FileSize (snd t)) ts.

(** The byte counter after the given sizes. *)
Definition totalOf (total : Z) (sizes : list Z) : Z :=
  fold_left (fun t s => wrap64 (t + s)) sizes total.

(** The byte counter never passes the ceiling, if one is set. *)
Fixpoint withinLimit (o : Option_) (total : Z) (sizes : list Z) : bool :=
  match sizes with
  | [] => true
  | s :: sizes' =>
      let total' := wrap64 (total + s) in
      negb ((0 <? MaxArchiveSize o) && (MaxArchiveSize o <? total'))
      && withinLimit o total' sizes'
  end.

Definition failuresIn (e : Env) (o : Option_) (ts : list (string * File)) : Z :=
  Z.of_nat (length (List.filter (fails e o) ts)).

(** The counters after the targets [ts], none of which passes the
    ceiling. *)
Definition after (e : Env) (o : Option_) (c : Counters) (ts : list (string * File))
  : Counters :=
  {| failed := failed c + failuresIn e o ts;
     compressed := totalOf (compressed c) (sizesOf ts) |}.

End manager.

(** ** A small file tree and archive store for the manager *)

Module fakefs.
Import golang manager.

Definition file (name : string) (size : Z) (entity : Z) : File :=
  {| Type_ := FileTypeFile; FileSize := size; Ext := "txt"; IsSymbolic := false;
     DisplayName := name; Uri := "cloudreve://my/" +:+ name; UriDir := "/";
     PrimaryEntityID := entity; FileUpdatedAt := 0; Children := [] |}.

Definition zipFile (name : string) (size : Z) (entity : Z) : File :=
  {| Type_ := FileTypeFile; FileSize := size; Ext := "zip"; IsSymbolic := false;
     DisplayName := name; Uri := "cloudreve://my/" +:+ name; UriDir := "/";
     PrimaryEntityID := entity; FileUpdatedAt := 0; Children := [] |}.

Definition inFolder (dir : string) (f : File) : File :=
  {| Type_ := Type_ f; FileSize := FileSize f; Ext := Ext f; IsSymbolic := IsSymbolic f;
     DisplayName := DisplayName f; Uri := "cloudreve://my/" +:+ dir +:+ "/" +:+ DisplayName f;
     UriDir := "/" +:+ dir; PrimaryEntityID := PrimaryEntityID f;
     FileUpdatedAt := FileUpdatedAt f; Children := Children f |}.

Definition folder (name : string) (children : list File) : File :=
  {| Type_ := FileTypeFolder; FileSize := 0; Ext := ""; IsSymbolic := false;
     DisplayName := name; Uri := "cloudreve://my/" +:+ name; UriDir := "/";
     PrimaryEntityID := 0; FileUpdatedAt := 0;
     Children := map (inFolder name) children |}.

Fixpoint find (uri : string) (l : list File) : option File :=
  match l with
  | [] => None
  | f :: l' => if String.eqb (Uri f) uri then Some f else find uri l'
  end.

Definition asciiLower (c : ascii) : ascii :=
  let n := nat_of_ascii c in
  if (65 <=? n)%nat && (n <=? 90)%nat then ascii_of_nat (n + 32) else c.

Fixpoint lower (s : string) : string :=
  match s with
  | EmptyString => EmptyString
  | String c s' => String (asciiLower c) (lower s')
  end.

(** The tree [roots]; entity [i] has [i] bytes; the entities listed in
    [unreadable] cannot be copied, those in [corrupt] cannot be decoded;
    a readable archive lists the single entry [readme.txt]. *)
Definition tree (roots : list File) (unreadable corrupt : list Z) : Env :=
  {| Get := fun uri => match find uri roots with
                       | Some f => Ok f
                       | None => Err (OtherError "not found")
                       end;
     FindDesiredEntity := fun f _ =>
       Some {| ID := PrimaryEntityID f; EntitySize := FileSize f |};
     DecompressSize := 0;
     ToLower := lower;
     GetEntitySource := fun id ent =>
       match ent with
       | Some ent => Ok {| SourceEntity := ent |}
       | None => Ok {| SourceEntity := {| ID := id; EntitySize := id |} |}
       end;
     zip_NewReader := fun es _ =>
       if existsb (Z.eqb (ID (SourceEntity es))) corrupt
       then Err (OtherError "zip: not a valid zip file")
       else Ok [{| HdrName := "readme.txt"; HdrNonUTF8 := false; HdrComment := "";
                   InfoSize := 12; InfoModTime := 0; InfoIsDir := false |}];
     sevenzip_NewReader := fun es _ => Ok [];
     decodeString := fun _ s => Some s;
     FormSlash := fun s => s;
     JoinFromSlash := fun parent name =>
       if String.eqb parent "/" then "/" +:+ name else parent +:+ "/" +:+ name;
     CreateHeaderError := fun _ => None;
     CopyError := fun es =>
       if existsb (Z.eqb (ID (SourceEntity es))) unreadable
       then Some (OtherError "unexpected EOF")
       else None |}.

Definition start (e : Env) (t : Z) : World :=
  {| env := e; kv := ∅; now := t; events := []; archive := []; archiveClosed := false |}.

Definition options (max : Z) : Option_ :=
  {| ArchiveCompression := false; DryRun := false; ProgressFunc := false;
     MaxArchiveSize := max |}.

Definition three : list File := [file "a" 10 1; file "b" 10 2; file "c" 10 3].

Definition uris : list string :=
  ["cloudreve://my/a"; "cloudreve://my/b"; "cloudreve://my/c"].

(** The three files, of which [a] cannot be read. *)
Definition oneUnreadable : World := start (tree three [1] []) 0.

Definition entry (name : string) (size : Z) (complete : bool) : ZipEntry :=
  {| EntryHeader := {| HeaderName := name; Modified := 0;
                       UncompressedSize64 := size; HeaderMethod := Store |};
     EntryComplete := complete |}.

Definition docs : File := folder "docs" [file "big" 20 1; file "small" 1 2].

Definition archives : Env := tree [zipFile "z.zip" 20 1; zipFile "bad.zip" 20 2] [] [2].

Definition zipUri : string := "cloudreve://my/z.zip".

End fakefs.

(** ** Further vocabulary for the archive routines *)

Module manager_more.
Import golang manager.

(** The compression method an archive is written with. *)
Definition methodOf (o : Option_) : Method :=
  if negb (ArchiveCompression o) then Store else Deflate.

(** The warnings of [CreateArchive]: one per counted failure. *)
Definition isWarning (e : event) : bool :=
  match e with
  | EvWarnCompress _ _ | EvWarnWalk _ _ => true
  | _ => false
  end.

Definition warnings (evs : list event) : Z :=
  Z.of_nat (length (List.filter isWarning evs)).

(** What one file adds to the log when the byte counter stands at
    [total]: the dry-run report, the warning of a failure, the progress
    report. *)
Definition logOfOne (e : Env) (o : Option_) (total : Z) (t : string * File) : list event :=
  match GetEntitySource e (PrimaryEntityID (snd t)) None with
  | Ok es =>
      if DryRun o
      then [EvDryRun (JoinFromSlash e (fst t) (DisplayName (snd t))) (SourceEntity es)]
      else []
  | Err _ => []
  end
  ++ match fst (compressOutcome e o t) with
     | Some err => [EvWarnCompress (Uri (snd t)) err]
     | None => []
     end
  ++ (if ProgressFunc o
      then [EvProgress (wrap64 (total + FileSize (snd t))) (FileSize (snd t)) 0]
      else []).

Fixpoint logOf (e : Env) (o : Option_) (total : Z) (ts : list (string * File))
  : list event :=
  match ts with
  | [] => []
  | t :: ts' => logOfOne e o total t ++ logOf e o (wrap64 (total + FileSize (snd t))) ts'
  end.

(** The progress reports owed to the files [ts], from the counter
    [total] on. *)
Fixpoint progressOf (total : Z) (ts : list (string * File)) : list event :=
  match ts with
  | [] => []
  | t :: ts' =>
      EvProgress (wrap64 (total + FileSize (snd t))) (FileSize (snd t)) 0
        :: progressOf (wrap64 (total + FileSize (snd t))) ts'
  end.

Definition isProgress (e : event) : bool :=
  match e with
  | EvProgress _ _ _ => true
  | _ => false
  end.

Definition isFileRoot (f : File) : bool :=
  match Type_ f with
  | FileTypeFile => true
  | FileTypeFolder => false
  end.

Fixpoint sumZ (l : list Z) : Z :=
  match l with
  | [] => 0
  | x :: l' => x + sumZ l'
  end.

(** The files of a walk over [l] that go to the archive, named under
    their path below the parent of [root]. *)
Definition walkTargets (root : File) (l : list File) : list (string * File) :=
  map (fun f => (TrimPrefix (UriDir f) (UriDir root), f)) (List.filter archivable l).

(** The byte counter stands above a configured ceiling. *)
Definition over (o : Option_) (total : Z) : bool :=
  (0 <? MaxArchiveSize o) && (MaxArchiveSize o <? total).

(** What a call of [ListArchiveFiles] may add to the log. *)
Inductive sourceUse : list event -> Prop :=
| NotOpened : sourceUse []
| OpenedAndClosed (id : Z) : sourceUse [EvOpen id; EvClose id]
| DecodedOnce (fmt : string) (id : Z) : sourceUse [EvOpen id; EvDecode fmt id; EvClose id].

(** An upper-case ASCII letter, which [strings.ToLower] never leaves in
    its result. *)
Definition isUpper (c : ascii) : bool :=
  let n := nat_of_ascii c in (65 <=? n)%nat && (n <=? 90)%nat.

Fixpoint hasUpper (s : string) : bool :=
  match s with
  | EmptyString => false
  | String c s' => isUpper c || hasUpper s'
  end.

(** Two listed files that differ at most in their names. *)
Definition sameButName (a b : ArchivedFile) : Prop :=
  Size a = Size b /\ UpdatedAt a = UpdatedAt b /\ IsDirectory a = IsDirectory b.

End manager_more.

(** ** More options and requests over the small tree *)

Module fakefs_more.
Import golang manager fakefs.

(** A rehearsal: compression on, both callbacks set, no ceiling. *)
Definition rehearsal : Option_ :=
  {| ArchiveCompression := true; DryRun := true; ProgressFunc := true;
     MaxArchiveSize := 0 |}.


(** The source of entity 1 of [archives]. *)
Definition source1 : EntitySource :=
  {| SourceEntity := {| ID := 1; EntitySize := 20 |} |}.

Definition readme : ZipFile :=
  {| HdrName := "readme.txt"; HdrNonUTF8 := false; HdrComment := "";
     InfoSize := 12; InfoModTime := 0; InfoIsDir := false |}.

End fakefs_more.

(** * Facts about the shared vocabulary *)

Module golang_spec.
Import golang.

(** [itoa] prints distinct integers differently. *)
Lemma itoa_inj a b : itoa a = itoa b -> a = b.
Proof.
  unfold itoa. intros Heq.
  assert (Hnn : forall z, Z.to_int z <> Decimal.Pos Decimal.Nil
                          /\ Z.to_int z <> Decimal.Neg Decimal.Nil).
  { intros [|p|p]; simpl; split; try discriminate;
      intros [= Hp]; exact (Unsigned.to_uint_nonnil p Hp). }
  apply DecimalZ.to_int_inj.
  assert (Hs : Some (Z.to_int a) = Some (Z.to_int b)).
  { rewrite <- (NilZero.isi (Z.to_int a)) by apply Hnn.
    rewrite <- (NilZero.isi (Z.to_int b)) by apply Hnn.
    rewrite Heq. reflexivity. }
  injection Hs. auto.
Qed.

Lemma string_of_uint_no_underscore d :
  no_underscore (NilEmpty.string_of_uint d) = true.
Proof. induction d; simpl; auto. Qed.

Lemma itoa_no_underscore z : no_underscore (itoa z) = true.
Proof.
  unfold itoa, NilZero.string_of_int, NilZero.string_of_uint.
  destruct (Z.to_int z) as [d|d]; destruct d; simpl;
    auto using string_of_uint_no_underscore.
Qed.

(** Two strings free of underscores, each followed by an underscore
    and a tail: equal wholes have equal parts. *)
Lemma split_at_underscore s1 :
  forall s2 t1 t2,
    no_underscore s1 = true -> no_underscore s2 = true ->
    s1 +:+ String "_" t1 = s2 +:+ String "_" t2 ->
    s1 = s2 /\ t1 = t2.
Proof.
  induction s1 as [|c s1 IH]; intros [|c2 s2] t1 t2 H1 H2 Heq; simpl in *.
  - injection Heq as ->. auto.
  - injection Heq as <- _. rewrite Ascii.eqb_refl in H2. discriminate.
  - injection Heq as -> _. rewrite Ascii.eqb_refl in H1. discriminate.
  - injection Heq as -> Heq.
    apply andb_true_iff in H1 as [_ H1]. apply andb_true_iff in H2 as [_ H2].
    destruct (IH s2 t1 t2 H1 H2 Heq) as [-> ->]. auto.
Qed.

End golang_spec.

(** * Properties of the KS3 driver *)

Module ks3_spec.
Import golang ks3.

Section Driver.
Context {St : Type} {svc : Backend St} {env : Collaborators}.

Lemma Meta_calls handler path (w w' : World St) r :
  Meta handler path w = (r, w') ->
  calls w' = calls w ++ [(CallHeadObject (BucketName (policy handler)) path, ReplyMeta r)].
Proof.
  unfold Meta, request. destruct (svc_HeadObject _ _ _) as [a st].
  intros [= <- <-]. reflexivity.
Qed.

(** *** CompleteUpload *)

(** A session without a sentinel task is completed without asking the
    store anything. *)
Lemma CompleteUpload_without_sentinel handler session (w : World St) :
  SentinelTaskID session = 0 ->
  CompleteUpload handler session w = (None, w).
Proof.
  intros Hs. unfold CompleteUpload. rewrite Hs. reflexivity.
Qed.

(** C1 (amended): [CompleteUpload] verifies the size only for a
    session that carries a sentinel task.  For such a session it fetches
    the object's metadata with one HEAD request and succeeds exactly when
    the fetch gives a size equal to the session's expected size: any
    other size gives the size-mismatch error, and a fetch that fails
    gives its error, wrapped.  A session without a sentinel task succeeds
    with nothing fetched, whatever the store holds. *)
Theorem CompleteUpload_size_verified handler session (w : World St) :
  let path := SavePath (SessionProps session) in
  let expected := PropsSize (SessionProps session) in
  let fetch := Meta handler path w in
  (SentinelTaskID session = 0 -> CompleteUpload handler session w = (None, w))
  /\ (SentinelTaskID session <> 0 ->
      snd (CompleteUpload handler session w) = snd fetch
      /\ calls (snd fetch)
         = calls w ++ [(CallHeadObject (BucketName (policy handler)) path,
                        ReplyMeta (fst fetch))]
      /\ (fst (CompleteUpload handler session w) = None
          <-> exists meta, fst fetch = Ok meta /\ Size meta = expected)
      /\ (forall meta,
            fst fetch = Ok meta -> Size meta <> expected ->
            fst (CompleteUpload handler session w)
            = Some (MetaMismatch
                      ("File size not match, expected: " +:+ itoa expected
                         +:+ ", actual: " +:+ itoa (Size meta))))
      /\ (forall err,
            fst fetch = Err err ->
            fst (CompleteUpload handler session w)
            = Some (Errorf "failed to get uploaded file size" err))).
Proof.
  cbv zeta. split; [apply CompleteUpload_without_sentinel|].
  intros Hsentinel. unfold CompleteUpload.
  destruct (SentinelTaskID session =? 0) eqn:Ez; [lia|]. clear Ez.
  unfold bind.
  destruct (Meta handler (SavePath (SessionProps session)) w) as [r w'] eqn:Hm.
  cbn [fst snd].
  split; [|split; [apply (Meta_calls _ _ _ _ _ Hm)|]].
  { destruct r as [meta|err]; [|reflexivity].
    destruct (negb (Size meta =? PropsSize (SessionProps session))); reflexivity. }
  destruct r as [meta|err].
  - destruct (Size meta =? PropsSize (SessionProps session)) eqn:E; cbn [negb fst ret].
    + apply Z.eqb_eq in E. split; [|split].
      * split; [intros _; exists meta; auto | reflexivity].
      * intros meta' [= <-] Hne. contradiction.
      * intros err [=].
    + apply Z.eqb_neq in E. split; [|split].
      * split; [discriminate|]. intros (meta' & [= <-] & Heq). contradiction.
      * intros meta' [= <-] _. reflexivity.
      * intros err [=].
  - cbn [fst ret]. split; [|split].
    + split; [discriminate|]. intros (meta & [=] & _).
    + intros meta [=].
    + intros err' [= <-]. reflexivity.
Qed.

(** *** The duplicate check of Put and Token *)

Lemma Put_upload_calls handler file (w : World St) :
  exists e,
    calls (snd (Put_upload handler file w)) =
    calls w ++ [(CallUpload (BucketName (policy handler)) (SavePath (Props file))
                   (PropsSize (Props file)) (mimeTypeOf file), ReplyError e)].
Proof.
  unfold Put_upload, bind, request.
  destruct (svc_Upload _ _ _ _ _) as [e st]. exists e.
  destruct e; reflexivity.
Qed.

(** C4: when an object already exists at the destination (the HEAD
    request succeeds), [Put] without the overwrite flag and [Token]
    both fail with the file-exists error having sent nothing but that
    HEAD request; [Put] with the overwrite flag sends no HEAD request
    and goes straight to the transfer. *)
Theorem duplicate_check_precedes_transfer handler session file (w w' : World St) meta :
  Meta handler (SavePath (Props file)) w = (Ok meta, w') ->
  Put handler file w =
    (if overwrite file then Put_upload handler file w
     else (Some ErrFileExisted, w'))
  /\ Token handler session file w = (Returned (session, Err ErrFileExisted), w')
  /\ calls w' = calls w ++
       [(CallHeadObject (BucketName (policy handler)) (SavePath (Props file)),
         ReplyMeta (Ok meta))]
  /\ exists e,
       calls (snd (Put_upload handler file w)) =
       calls w ++ [(CallUpload (BucketName (policy handler)) (SavePath (Props file))
                      (PropsSize (Props file)) (mimeTypeOf file), ReplyError e)].
Proof.
  intros Hm. repeat split.
  - unfold Put, overwrite.
    destruct (Z.land (Mode file) ModeOverwrite =? ModeOverwrite); simpl; [reflexivity|].
    unfold bind. rewrite Hm. reflexivity.
  - unfold Token, bind. rewrite Hm. reflexivity.
  - eapply Meta_calls; eauto.
  - apply Put_upload_calls.
Qed.

(** *** The time-to-live of Source and Thumb *)

Lemma ttlOf_default (w : World St) : ttlOf None w = (604800, w).
Proof. reflexivity. Qed.

Lemma ttlOf_expire t (w : World St) :
  ttlOf (Some t) w =
    (Seconds (Sub t (fst (clock_Now (backend w)))),
     {| backend := snd (clock_Now (backend w)); calls := calls w |}).
Proof.
  unfold ttlOf, Until, bind, ret, observe.
  destruct (clock_Now (backend w)); reflexivity.
Qed.

(** An expiry one second or more in the past gives a negative
    time-to-live: nothing clamps it. *)
Lemma ttlOf_past_expiry t (w : World St) :
  t + 1000000000 <= fst (clock_Now (backend w)) ->
  fst (ttlOf (Some t) w) < 0.
Proof.
  intros Hpast. rewrite ttlOf_expire. simpl.
  set (now := fst (clock_Now (backend w))) in *.
  assert (Hd : Sub t now <= - 1000000000).
  { unfold Sub, MinInt64, MaxInt64.
    destruct (t - now <? - 2 ^ 63) eqn:E1; [lia|].
    destruct (2 ^ 63 - 1 <? t - now) eqn:E2; lia. }
  unfold Seconds.
  pose proof (Z.quot_le_mono (Sub t now) (- 1000000000) 1000000000 ltac:(lia) Hd) as Hq.
  change (- 1000000000 ÷ 1000000000) with (-1) in Hq. lia.
Qed.

(** *** Public and private URLs *)

Lemma URL_String_no_query u : URL_String (set_RawQuery u "") = without_query u.
Proof.
  unfold URL_String, without_query, set_RawQuery; simpl.
  rewrite orb_false_r. reflexivity.
Qed.

Lemma finalURL_printed handler signed :
  finalURL handler signed
  = match Parse signed with
    | Err e => Err e
    | Ok u => Ok (if IsPrivate (policy handler) then URL_String u else without_query u)
    end.
Proof.
  unfold finalURL. destruct (Parse signed) as [u|e]; [|reflexivity].
  destruct (IsPrivate (policy handler)); cbn [negb]; [reflexivity|].
  rewrite URL_String_no_query. reflexivity.
Qed.

(** C10: [Source] and [Thumb] each send one signing request, for the
    object's key in the policy's bucket ([Thumb] with the thumbnail
    parameters appended to the key), and return the URL the signer
    produced, parsed and printed again.  Under a policy that is not
    private the whole query is left out of the print, so nothing of the
    signature or expiry parameters is returned; only under a private
    policy is the query kept.  A call fails only when the signer or the
    parser does, with that error. *)
Theorem public_url_drops_query handler source args expire ext (w : World St) :
  let printed u := if IsPrivate (policy handler) then URL_String u else without_query u in
  let returned reply :=
    match reply with
    | Err e => Err e
    | Ok signed => match Parse signed with
                   | Err e => Err e
                   | Ok u => Ok (printed u)
                   end
    end in
  (exists input reply,
      calls (snd (Source handler source args w))
      = calls w ++ [(CallGeneratePresignedUrl input, ReplyString reply)]
      /\ InBucket input = BucketName (policy handler)
      /\ InKey input = source
      /\ fst (Source handler source args w) = returned reply)
  /\ (exists input reply,
         calls (snd (Thumb handler expire ext source w))
         = calls w ++ [(CallGeneratePresignedUrl input, ReplyString reply)]
         /\ InBucket input = BucketName (policy handler)
         /\ InKey input = source +:+ thumbParam
         /\ fst (Thumb handler expire ext source w) = returned reply).
Proof.
  cbv zeta. split.
  - unfold Source, bind.
    assert (Hcalls : calls (snd (ttlOf (Expire args) w)) = calls w).
    { destruct (Expire args) as [t|]; [rewrite ttlOf_expire|]; reflexivity. }
    destruct (ttlOf (Expire args) w) as [ttl w1]. cbn [snd] in Hcalls.
    unfold request.
    destruct (svc_GeneratePresignedUrl _ _) as [[signed|e] st]; unfold ret;
      cbn [fst snd calls]; rewrite Hcalls, ?finalURL_printed;
      eexists _, _; repeat split.
  - unfold Thumb, bind.
    assert (Hcalls : calls (snd (ttlOf expire w)) = calls w).
    { destruct expire as [t|]; [rewrite ttlOf_expire|]; reflexivity. }
    destruct (ttlOf expire w) as [ttl w1]. cbn [snd] in Hcalls.
    unfold request.
    destruct (svc_GeneratePresignedUrl _ _) as [[signed|e] st]; unfold ret;
      cbn [fst snd calls]; rewrite Hcalls, ?finalURL_printed;
      eexists _, _; repeat split.
Qed.

(** *** Token: one signed URL per chunk *)

Lemma Num_Next c : Num (fst (Next c)) = Num c.
Proof. reflexivity. Qed.

Lemma take_S_insert {A} (l : list A) k x :
  (k < length l)%nat -> take (S k) (<[k:=x]> l) = take k l ++ [x].
Proof.
  intros Hk. erewrite take_S_r.
  - rewrite take_insert_ge by lia. reflexivity.
  - apply list_lookup_insert_eq. exact Hk.
Qed.

Lemma Token_loop_spec handler uploadSession uploadID size csize :
  forall fuel (k : nat) urls (w w' : World St) r,
    let chunks := {| totalSize := size; groupChunkSize := csize;
                     currentIndex := Z.of_nat k - 1 |} in
    Z.of_nat (length urls) = Num chunks ->
    (length urls - k < fuel)%nat ->
    Token_loop fuel handler uploadSession uploadID chunks urls w = (r, w') ->
    match r with
    | Returned (Ok urls') =>
        exists signed : list (Z * string),
          urls' = take k urls ++ map snd signed
          /\ (k + length signed = Nat.max k (length urls))%nat
          /\ calls w' = calls w ++
               imap (fun i => partExchange handler uploadSession uploadID (k + i)) signed
    | Returned (Err _) => True
    | Panicked _ => False
    | OutOfFuel => False
    end.
Proof.
  induction fuel as [|fuel IH]; intros k urls w w' r chunks Hlen Hfuel Hrun.
  { lia. }
  simpl in Hrun. unfold Num in *. simpl in *.
  replace (Z.of_nat k - 1 + 1) with (Z.of_nat k) in Hrun by lia.
  destruct (Z.of_nat k <? - (- size / csize)) eqn:Hmore.
  - (* one more chunk to sign *)
    apply Z.ltb_lt in Hmore.
    unfold Process, signChunk, Until, observe, request, Index in Hrun.
    unfold bind, ret in Hrun. simpl in Hrun.
    destruct (clock_Now (backend w)) as [now st1]. simpl in Hrun.
    destruct (svc_GeneratePresignedUrl _ st1) as [[url|e] st2] eqn:Esign.
    + unfold store in Hrun.
      destruct ((0 <=? Z.of_nat k) && (Z.of_nat k <? Z.of_nat (length urls))) eqn:Hin.
      2:{ apply andb_false_iff in Hin as [Hin|Hin]; lia. }
      rewrite Nat2Z.id in Hrun.
      assert (Hc : {| totalSize := size; groupChunkSize := csize;
                      currentIndex := Z.of_nat k |}
                   = {| totalSize := size; groupChunkSize := csize;
                        currentIndex := Z.of_nat (S k) - 1 |}) by (f_equal; lia).
      rewrite Hc in Hrun. clear Hc.
      apply IH in Hrun; [| rewrite length_insert; exact Hlen
                         | rewrite length_insert; lia].
      rename Hrun into IH'.
      destruct r as [[urls'|e]| |]; try exact IH'.
      destruct IH' as (signed & Hurls & Hn & Hcalls).
      exists ((Seconds (Sub (ExpireAt (SessionProps uploadSession)) now), url) :: signed).
      simpl in *. split; [|split].
      * rewrite Hurls, take_S_insert by lia.
        rewrite <- app_assoc. reflexivity.
      * rewrite length_insert in Hn. lia.
      * rewrite Hcalls. rewrite <- app_assoc. simpl.
        f_equal. f_equal.
        -- unfold partExchange. simpl.
           replace (k + 0)%nat with k by lia. reflexivity.
        -- apply imap_ext. intros i x _. simpl.
           replace (k + S i)%nat with (S (k + i)) by lia. reflexivity.
    + injection Hrun as <- <-. exact I.
  - (* the cursor is past the last chunk *)
    apply Z.ltb_ge in Hmore.
    injection Hrun as <- <-.
    exists []. simpl. rewrite app_nil_r, app_nil_r.
    split; [|split; [lia|reflexivity]].
    rewrite take_ge by lia. reflexivity.
Qed.

(** The loop of [Token] is given fuel enough: the call always returns
    or panics, and panics only on a negative chunk count. *)
Lemma Token_has_enough_fuel handler uploadSession file (w : World St) :
  match fst (Token handler uploadSession file w) with
  | Returned _ => True
  | Panicked _ => Num (NewChunkGroup file (chunkSize handler)) < 0
  | OutOfFuel => False
  end.
Proof.
  unfold Token, bind.
  destruct (Meta handler (SavePath (Props file)) w) as [[m|headErr] w1]; [exact I|].
  unfold request at 1.
  destruct (svc_CreateMultipartUpload _ _ _ _ _) as [[uid|e] st2]; [|exact I].
  unfold make_strings.
  set (chunks := NewChunkGroup file (chunkSize handler)) in *.
  destruct (Num chunks <? 0) eqn:Hneg; [simpl; lia|].
  apply Z.ltb_ge in Hneg.
  match goal with
  | |- context [Token_loop ?f ?h ?s ?u ?c ?l ?w0] =>
      destruct (Token_loop f h s u c l w0) as [r w3] eqn:Hloop
  end.
  unfold chunks, NewChunkGroup in Hloop.
  change (-1) with (Z.of_nat 0 - 1) in Hloop.
  apply Token_loop_spec in Hloop.
  2:{ rewrite length_replicate, Z2Nat.id by exact Hneg. reflexivity. }
  2:{ rewrite length_replicate. unfold Num. simpl. lia. }
  destruct r as [[urls|e]| |]; try contradiction; [|exact I].
  unfold Until, observe, request. unfold bind, ret.
  destruct (clock_Now (backend w3)) as [now st4]. simpl.
  destruct (svc_GeneratePresignedUrl _ st4) as [[curl|e] st5]; exact I.
Qed.

(** The chunk count of the planner is the ceiling of the quotient. *)
Lemma Num_ceiling size csize :
  0 < csize ->
  let n := Num {| totalSize := size; groupChunkSize := csize; currentIndex := -1 |} in
  (n - 1) * csize < size <= n * csize.
Proof.
  intros Hc. unfold Num; simpl.
  pose proof (Z.div_mod (- size) csize ltac:(lia)) as Hdm.
  pose proof (Z.mod_pos_bound (- size) csize Hc) as Hb.
  nia.
Qed.

(** C3: a successful [Token] call for an upload of expected size [E],
    on a driver built by [New] (chunk size [C]: the policy's, or 25 MiB
    when the policy leaves it at zero), returns [n] upload URLs with
    [(n - 1) * C < E <= n * C], that is [n = ceil(E/C)]; they are, in
    order, the answers to one signing request per part number
    [1 .. n], followed by one signing request for the finalize URL. *)
Theorem Token_signs_one_url_per_chunk p uploadSession file
        (w w' : World St) session' cred :
  0 <= ChunkSize (Settings p) ->
  Token (New p) uploadSession file w = (Returned (session', Ok cred), w') ->
  let E := PropsSize (Props file) in
  let C := if ChunkSize (Settings p) =? 0 then 26214400 else ChunkSize (Settings p) in
  let n := Z.of_nat (length (UploadURLs cred)) in
  (n - 1) * C < E <= n * C
  /\ CredChunkSize cred = C
  /\ exists headErr createCall (signed : list (Z * string)) completeInput,
       map snd signed = UploadURLs cred
       /\ InHTTPMethod completeInput = POST
       /\ InParameters completeInput = [("uploadId", CredUploadID cred)]
       /\ calls w' = calls w
            ++ [(CallHeadObject (BucketName p) (SavePath (Props file)),
                 ReplyMeta (Err headErr));
                (createCall, ReplyString (Ok (CredUploadID cred)))]
            ++ imap (partExchange (New p) session' (CredUploadID cred)) signed
            ++ [(CallGeneratePresignedUrl completeInput,
                 ReplyString (Ok (CompleteURL cred)))].
Proof.
  intros Hp Hrun.
  set (C := if ChunkSize (Settings p) =? 0 then 26214400 else ChunkSize (Settings p)).
  assert (HC : chunkSize (New p) = C /\ 0 < C).
  { subst C. simpl. change (Z.shiftl 25 20) with 26214400.
    destruct (ChunkSize (Settings p) =? 0) eqn:E0; split; lia. }
  destruct HC as [HC Hpos].
  unfold Token, bind in Hrun.
  destruct (Meta (New p) (SavePath (Props file)) w) as [[m|headErr] w1] eqn:Hmeta;
    [discriminate|].
  apply Meta_calls in Hmeta.
  unfold request at 1 in Hrun.
  destruct (svc_CreateMultipartUpload _ _ _ _ _) as [[uid|e] st2] eqn:Ecreate;
    [|discriminate].
  unfold make_strings in Hrun.
  set (chunks := NewChunkGroup file (chunkSize (New p))) in *.
  destruct (Num chunks <? 0) eqn:Hneg; [discriminate|].
  apply Z.ltb_ge in Hneg.
  match type of Hrun with
  | context [Token_loop ?f ?h ?s ?u ?c ?l ?w0] =>
      destruct (Token_loop f h s u c l w0) as [r w3] eqn:Hloop
  end.
  assert (Hspec := Hloop).
  unfold chunks, NewChunkGroup in Hspec.
  change (-1) with (Z.of_nat 0 - 1) in Hspec.
  apply Token_loop_spec in Hspec.
  2:{ rewrite length_replicate, Z2Nat.id by exact Hneg. reflexivity. }
  2:{ rewrite length_replicate. unfold Num. simpl. lia. }
  destruct r as [[urls|e]| |]; try discriminate; try contradiction.
  destruct Hspec as (signed & Hurls & Hn & Hcalls).
  simpl in Hurls. subst urls.
  rewrite length_replicate in Hn. simpl in Hn.
  unfold Until, observe, request in Hrun. unfold bind, ret in Hrun.
  destruct (clock_Now (backend w3)) as [now st4].
  simpl in Hrun.
  destruct (svc_GeneratePresignedUrl _ st4) as [[curl|e] st5] eqn:Ecomplete;
    [|discriminate].
  injection Hrun as Hsession Hcred Hworld.
  subst session' cred w'. simpl.
  assert (Hn' : Z.of_nat (length (map snd signed)) = Num chunks).
  { rewrite length_map, Hn. rewrite Z2Nat.id by exact Hneg. reflexivity. }
  rewrite Hn'.
  split; [|split; [exact HC|]].
  - pose proof (Num_ceiling (PropsSize (Props file)) C Hpos) as Hceil.
    simpl in Hceil. unfold chunks, NewChunkGroup. rewrite HC. exact Hceil.
  - match type of Ecomplete with
    | svc_GeneratePresignedUrl ?i _ = _ => eexists headErr, _, signed, i
    end.
    split; [reflexivity|]. split; [reflexivity|]. split; [reflexivity|].
    simpl. rewrite Hcalls. simpl. rewrite Hmeta.
    rewrite <- !app_assoc. simpl. reflexivity.
Qed.

(** *** Delete *)

Lemma Delete_group_spec handler failed lastErr group (w : World St) :
  exists x st',
    Delete_group handler (failed, lastErr) group w =
      ((failed ++ failedKeys x, lastErrorFrom lastErr [x]),
       {| backend := st'; calls := calls w ++ [x] |})
    /\ fst x = groupCall (BucketName (policy handler)) group.
Proof.
  unfold Delete_group, groupCall.
  destruct group as [|key [|key' group]].
  - unfold bind, request.
    destruct (svc_DeleteObjects _ _ _) as [[errors|e] st]; simpl.
    + exists (CallDeleteObjects (BucketName (policy handler)) [],
              ReplyDeleteErrors (Ok errors)), st. split; reflexivity.
    + exists (CallDeleteObjects (BucketName (policy handler)) [],
              ReplyDeleteErrors (Err e)), st. split; reflexivity.
  - unfold bind, request.
    destruct (svc_DeleteObject _ _ _) as [e st]; simpl.
    exists (CallDeleteObject (BucketName (policy handler)) key, ReplyError e), st.
    split; [|reflexivity].
    destruct e as [[code msg| | | |]|]; simpl; rewrite ?app_nil_r; try reflexivity.
    destruct (String.eqb code ErrCodeNoSuchKey); simpl; rewrite ?app_nil_r; reflexivity.
  - unfold bind, request.
    destruct (svc_DeleteObjects _ _ _) as [[errors|e] st]; simpl.
    + exists (CallDeleteObjects (BucketName (policy handler)) (key :: key' :: group),
              ReplyDeleteErrors (Ok errors)), st. split; reflexivity.
    + exists (CallDeleteObjects (BucketName (policy handler)) (key :: key' :: group),
              ReplyDeleteErrors (Err e)), st. split; reflexivity.
Qed.

Lemma Delete_loop_spec handler :
  forall groups failed lastErr (w : World St),
  exists log w',
    foldM (Delete_group handler) groups (failed, lastErr) w =
      ((failed ++ concat (map failedKeys log), lastErrorFrom lastErr log), w')
    /\ calls w' = calls w ++ log
    /\ map fst log = map (groupCall (BucketName (policy handler))) groups.
Proof.
  induction groups as [|group groups IH]; intros failed lastErr w.
  - exists [], w. simpl. rewrite !app_nil_r. repeat split; reflexivity.
  - destruct (Delete_group_spec handler failed lastErr group w) as (x & st' & Hx & Hcall).
    cbn [foldM]. unfold bind. rewrite Hx.
    edestruct IH as (log & w' & Hrun & Hcalls & Hmap).
    exists (x :: log), w'. rewrite Hrun. simpl in *.
    rewrite <- !app_assoc. rewrite Hcalls, Hcall, Hmap, <- app_assoc.
    repeat split; reflexivity.
Qed.

Lemma chunk_fuel_concat {A} (size : nat) :
  (0 < size)%nat ->
  forall fuel (l : list A),
    (length l <= fuel)%nat ->
    concat (chunk_fuel fuel size l) = l
    /\ Forall (fun g => (0 < length g <= size)%nat) (chunk_fuel fuel size l).
Proof.
  intros Hsize. induction fuel as [|fuel IH]; intros l Hl.
  - destruct l; [split; [reflexivity | constructor] | simpl in Hl; lia].
  - destruct l as [|a l]; [split; [reflexivity | constructor]|].
    cbn [chunk_fuel].
    destruct (IH (drop size (a :: l))) as [Hc Hf].
    { rewrite length_drop. simpl in *. lia. }
    split.
    + cbn [concat]. rewrite Hc. apply take_drop.
    + constructor; [|exact Hf].
      rewrite length_take. simpl. lia.
Qed.

(** X19: with a batch size that is not negative, [Delete] cuts the
    keys into consecutive groups of at most the batch size (1000 when
    unset) and sends one request per group, whatever the earlier requests
    answered: a single-delete call for a group of one key, a batch call
    otherwise.  The keys it returns are those the answers name: the key
    of a single delete answered by an error other than not-found, every
    key of a batch whose request failed, and every key a batch answer
    lists, whatever the code listed with it.  The error it returns is the
    last error a request itself ended with (not-found on a single delete
    apart), and nil when only batch answers listed keys.  Deleting one
    key that the store answers with not-found returns no failed key and
    no error. *)
Theorem Delete_reports_failed_keys handler files (w : World St) :
  0 <= S3DeleteBatchSize (Settings (policy handler)) ->
  (exists groups log w',
      Chunk files (batchSizeOf handler) = Some groups
      /\ concat groups = files
      /\ Forall (fun g => 0 < Z.of_nat (length g) <= batchSizeOf handler) groups
      /\ Delete handler files w =
           (Returned (concat (map failedKeys log), lastError log), w')
      /\ calls w' = calls w ++ log
      /\ map fst log = map (groupCall (BucketName (policy handler))) groups)
  /\ (forall key msg st',
         files = [key] ->
         svc_DeleteObject (BucketName (policy handler)) key (backend w)
           = (Some (AwsError ErrCodeNoSuchKey msg), st') ->
         fst (Delete handler files w) = Returned ([], None)).
Proof.
  intros Hbatch.
  assert (Hpos : 0 < batchSizeOf handler).
  { unfold batchSizeOf.
    destruct (S3DeleteBatchSize (Settings (policy handler)) =? 0) eqn:E; lia. }
  assert (Hchunk : Chunk files (batchSizeOf handler)
                   = Some (chunk_fuel (length files) (Z.to_nat (batchSizeOf handler)) files)).
  { unfold Chunk. destruct (batchSizeOf handler <=? 0) eqn:E; [lia | reflexivity]. }
  split.
  - destruct (chunk_fuel_concat (A := string) (Z.to_nat (batchSizeOf handler))
                ltac:(lia) (length files) files ltac:(lia)) as [Hconcat Hsizes].
    destruct (Delete_loop_spec handler
                (chunk_fuel (length files) (Z.to_nat (batchSizeOf handler)) files)
                [] None w) as (log & w' & Hrun & Hcalls & Hmap).
    exists (chunk_fuel (length files) (Z.to_nat (batchSizeOf handler)) files), log, w'.
    split; [exact Hchunk|]. split; [exact Hconcat|]. split.
    { eapply Forall_impl; [exact Hsizes|]. simpl. intros g Hg. lia. }
    split; [|split; assumption].
    unfold Delete. fold (batchSizeOf handler). rewrite Hchunk.
    unfold bind. rewrite Hrun. reflexivity.
  - intros key msg st' -> Hanswer.
    unfold Delete. fold (batchSizeOf handler). rewrite Hchunk.
    replace (Z.to_nat (batchSizeOf handler)) with (S (Z.to_nat (batchSizeOf handler - 1)))
      by lia.
    cbn [length chunk_fuel take]. rewrite take_nil.
    cbn [foldM Delete_group]. unfold bind, request. rewrite Hanswer.
    reflexivity.
Qed.

End Driver.
End ks3_spec.

(** * The driver against the in-memory store *)

Module ks3_examples.
Import golang ks3 ks3_spec fake.

(** C1, counterexample: a session without a sentinel task expects 100
    bytes, the stored object has 99, and [CompleteUpload] succeeds without
    fetching anything. *)
Lemma CompleteUpload_mismatch_accepted :
  fst (Meta handler "a" (holding [("a", 99)])) = Ok {| Size := 99; Etag := "etag" |}
  /\ PropsSize (SessionProps (session "a" 100 0)) = 100
  /\ CompleteUpload handler (session "a" 100 0) (holding [("a", 99)])
     = (None, holding [("a", 99)]).
Proof. repeat split. Qed.

(** C1 at work: with a sentinel task, 100 stored bytes pass for an
    expected 100, 99 do not, and a missing object fails the fetch. *)
Lemma CompleteUpload_size_verified_witness :
  fst (CompleteUpload handler (session "a" 100 7) (holding [("a", 100)])) = None
  /\ fst (CompleteUpload handler (session "a" 100 7) (holding [("a", 99)]))
     = Some (MetaMismatch "File size not match, expected: 100, actual: 99")
  /\ fst (CompleteUpload handler (session "a" 100 7) (holding []))
     = Some (Errorf "failed to get uploaded file size" (AwsError "NotFound" "Not Found")).
Proof.
  pose proof (CompleteUpload_size_verified handler (session "a" 100 7)
                (holding [("a", 100)])) as Hequal.
  pose proof (CompleteUpload_size_verified handler (session "a" 100 7)
                (holding [("a", 99)])) as Hshort.
  pose proof (CompleteUpload_size_verified handler (session "a" 100 7)
                (holding [])) as Hmissing.
  cbv zeta in Hequal, Hshort, Hmissing.
  destruct (proj2 Hequal ltac:(discriminate)) as (_ & _ & Hiff & _).
  destruct (proj2 Hshort ltac:(discriminate)) as (_ & _ & _ & Hmismatch & _).
  destruct (proj2 Hmissing ltac:(discriminate)) as (_ & _ & _ & _ & Hfailed).
  split; [|split].
  - apply Hiff. exists {| Size := 100; Etag := "etag" |}. split; reflexivity.
  - rewrite (Hmismatch {| Size := 99; Etag := "etag" |} eq_refl ltac:(discriminate)).
    reflexivity.
  - apply (Hfailed (AwsError "NotFound" "Not Found") eq_refl).
Defined.

(** C4 at work: the key [a] is taken; [Put] and [Token] stop after the
    HEAD request. *)
Lemma duplicate_check_precedes_transfer_witness :
  Put handler (uploadRequest "a" 5 0) (holding [("a", 9)])
  = (Some ErrFileExisted,
     {| backend := with_objects empty [("a", 9)];
        calls := [(CallHeadObject "bucket" "a",
                   ReplyMeta (Ok {| Size := 9; Etag := "etag" |}))] |})
  /\ fst (Token handler (session "a" 5 7) (uploadRequest "a" 5 0) (holding [("a", 9)]))
     = Returned (session "a" 5 7, Err ErrFileExisted).
Proof.
  pose proof (duplicate_check_precedes_transfer handler (session "a" 5 7)
                (uploadRequest "a" 5 0) (holding [("a", 9)])
                (snd (Meta handler "a" (holding [("a", 9)])))
                {| Size := 9; Etag := "etag" |} eq_refl) as (HPut & HToken & _).
  split.
  - exact HPut.
  - rewrite HToken. reflexivity.
Defined.

(** C6, the failing input: the clock reads 100 s, the requested expiry
    is the instant 90 s; [Source] and [Thumb] both ask the signer for a
    time-to-live of -10 seconds. *)
Theorem ttl_negative_for_past_expiry :
  map (fun x => match fst x with
                | CallGeneratePresignedUrl input => InExpires input
                | _ => 0
                end)
      (calls (snd (Source handler "a" past at100s))
       ++ calls (snd (Thumb handler (Some 90000000000) "jpg" "a" at100s)))
  = [-10; -10].
Proof. reflexivity. Qed.

(** C10 at work: the public bucket hands out the bare URL of the
    object and of its thumbnail; the private bucket keeps the query. *)
Lemma public_url_drops_query_witness :
  fst (Source publicHandler "a" past at100s) = Ok "https://bucket.ks3.example/a"
  /\ fst (Thumb publicHandler None "jpg" "a" at100s)
     = Ok "https://bucket.ks3.example/a@base@tag=imgScale&m=0&w=400&h=300&q=85&F=jpg"
  /\ fst (Source handler "a" past at100s)
     = Ok "https://bucket.ks3.example/a?Expires=-10&Signature=c2ln".
Proof.
  pose proof (public_url_drops_query publicHandler "a" past None "jpg" at100s) as Hpublic.
  pose proof (public_url_drops_query handler "a" past None "jpg" at100s) as Hprivate.
  cbv zeta in Hpublic, Hprivate.
  destruct Hpublic as [(i1 & r1 & Hc1 & _ & _ & Hsource) (i2 & r2 & Hc2 & _ & _ & Hthumb)].
  destruct Hprivate as [(i3 & r3 & Hc3 & _ & _ & Hsigned) _].
  vm_compute in Hc1, Hc2, Hc3.
  injection Hc1 as _ <-. injection Hc2 as _ <-. injection Hc3 as _ <-.
  rewrite Hsource, Hthumb, Hsigned. repeat split.
Defined.

(** C3 at work: 10 bytes in chunks of 4 give 3 upload URLs. *)
Lemma Token_signs_one_url_per_chunk_witness :
  let r := Token (New (bucketPolicy false 4 0)) (session "a" 10 7)
             (uploadRequest "a" 10 0) (holding []) in
  exists session' cred,
    fst r = Returned (session', Ok cred)
    /\ length (UploadURLs cred) = 3%nat.
Proof.
  intros r.
  destruct (fst r) as [[session' [cred|e]]| |] eqn:Hr; try discriminate.
  exists session', cred. split; [reflexivity|].
  pose proof (Token_signs_one_url_per_chunk (bucketPolicy false 4 0) (session "a" 10 7)
                (uploadRequest "a" 10 0) (holding []) (snd r) session' cred
                ltac:(simpl; lia)
                ltac:(rewrite <- Hr; apply surjective_pairing)) as (Hn & _).
  simpl in Hn. lia.
Defined.

(** C5, the failing input: of the keys [a] and [b] only [a] is
    stored.  Deleted together they go out as one batch request; the
    answer lists [b] with the not-found code, and [Delete] returns [b] as
    failed, with a nil error.  Deleted alone, the same absent key [b]
    goes out as a single delete, whose not-found answer is ignored:
    nothing fails. *)
Theorem Delete_batch_not_found_is_failure :
  Delete handler ["a"; "b"] (holding [("a", 9)])
  = (Returned (["b"], None),
     {| backend := with_objects empty [];
        calls := [(CallDeleteObjects "bucket" ["a"; "b"],
                   ReplyDeleteErrors
                     (Ok [{| ErrKey := "b"; ErrCode := ErrCodeNoSuchKey;
                             ErrMessage := "The specified key does not exist." |}]))] |})
  /\ Delete handler ["b"] (holding [("a", 9)])
     = (Returned ([], None),
        {| backend := with_objects empty [("a", 9)];
           calls := [(CallDeleteObject "bucket" "b",
                      ReplyError (Some (AwsError ErrCodeNoSuchKey
                                          "The specified key does not exist.")))] |}).
Proof. split; reflexivity. Qed.

(** X19 at work: deleting the one absent key [b] fails nothing, and two
    keys at the default batch size go out as one batch request. *)
Lemma Delete_reports_failed_keys_witness :
  fst (Delete handler ["b"] (holding [("a", 9)])) = Returned ([], None)
  /\ exists log w',
       Delete handler ["a"; "b"] (holding [("a", 9)])
       = (Returned (concat (map failedKeys log), lastError log), w')
       /\ map fst log = [CallDeleteObjects "bucket" ["a"; "b"]].
Proof.
  pose proof (Delete_reports_failed_keys handler ["b"] (holding [("a", 9)])) as Hone.
  pose proof (Delete_reports_failed_keys handler ["a"; "b"] (holding [("a", 9)])) as Htwo.
  split.
  - apply (proj2 (Hone ltac:(simpl; lia))
                 "b" "The specified key does not exist." (with_objects empty [("a", 9)])
                 eq_refl eq_refl).
  - destruct (proj1 (Htwo ltac:(simpl; lia)))
      as (groups & log & w' & Hchunk & _ & _ & Hrun & _ & Hmap).
    exists log, w'. split; [exact Hrun|].
    rewrite Hmap. injection Hchunk as <-. reflexivity.
Defined.

End ks3_examples.

(** * Further properties of the KS3 driver *)

Module ks3_props.
Import golang ks3 ks3_spec ks3_more.

Section Driver.
Context {St : Type} {svc : Backend St} {env : Collaborators}.

(** *** Delete: groups and requests *)

Lemma batchSizeOf_positive handler :
  0 <= S3DeleteBatchSize (Settings (policy handler)) -> 0 < batchSizeOf handler.
Proof.
  unfold batchSizeOf.
  destruct (S3DeleteBatchSize (Settings (policy handler)) =? 0) eqn:E; lia.
Qed.

Lemma chunk_fuel_length {A} (size : nat) :
  (0 < size)%nat ->
  forall fuel (l : list A),
    (length l <= fuel)%nat ->
    Z.of_nat (length (chunk_fuel fuel size l)) = groupCount (length l) (Z.of_nat size).
Proof.
  intros Hsize. unfold groupCount.
  induction fuel as [|fuel IH]; intros l Hl.
  - destruct l; [|simpl in Hl; lia]. simpl.
    symmetry. apply Z.div_small. lia.
  - destruct l as [|a l].
    { simpl. symmetry. apply Z.div_small. lia. }
    cbn [chunk_fuel length]. rewrite Nat2Z.inj_succ, IH.
    2:{ rewrite length_drop. simpl in *. lia. }
    rewrite length_drop. cbn [length].
    destruct (Nat.le_gt_cases (S (length l)) size) as [Hle|Hgt].
    + replace (S (length l) - size)%nat with 0%nat by lia.
      rewrite (Z.div_small (Z.of_nat 0 + Z.of_nat size - 1)) by lia.
      change (Z.succ 0) with 1.
      apply (Z.div_unique _ _ 1 (Z.of_nat (S (length l)) - 1)); lia.
    + rewrite Nat2Z.inj_sub by lia.
      replace (Z.of_nat (S (length l)) + Z.of_nat size - 1)
        with (Z.of_nat (S (length l)) - Z.of_nat size + Z.of_nat size - 1
              + 1 * Z.of_nat size) by lia.
      rewrite Z.div_add by lia. lia.
Qed.

(** X11: with a negative batch size in the policy, [Delete] panics in
    [lo.Chunk] before any request is sent, whatever the keys, an empty
    list included. *)
Theorem Delete_negative_batch_panics handler files (w : World St) :
  S3DeleteBatchSize (Settings (policy handler)) < 0 ->
  exists reason, Delete handler files w = (Panicked reason, w).
Proof.
  intros Hneg. unfold Delete, batchSizeOf, Chunk.
  destruct (S3DeleteBatchSize (Settings (policy handler)) =? 0) eqn:E; [lia|].
  destruct (S3DeleteBatchSize (Settings (policy handler)) <=? 0) eqn:E'; [|lia].
  eexists. reflexivity.
Qed.

(** X12: with a batch size [b] that is not negative (1000 standing for
    0), [Delete] returns after sending [ceil(n/b)] requests for [n] keys,
    each of them a delete request: none at all for no key. *)
Theorem Delete_request_count handler files (w : World St) :
  0 <= S3DeleteBatchSize (Settings (policy handler)) ->
  exists r log w',
    Delete handler files w = (Returned r, w')
    /\ calls w' = calls w ++ log
    /\ Z.of_nat (length log) = groupCount (length files) (batchSizeOf handler)
    /\ Forall (fun x => isDeleteCall (fst x) = true) log
    /\ (files = [] -> r = ([], None) /\ log = []).
Proof.
  intros Hbatch. pose proof (batchSizeOf_positive handler Hbatch) as Hpos.
  unfold Delete. fold (batchSizeOf handler). unfold Chunk.
  destruct (batchSizeOf handler <=? 0) eqn:E; [lia|]. clear E.
  set (groups := chunk_fuel (length files) (Z.to_nat (batchSizeOf handler)) files).
  destruct (Delete_loop_spec handler groups [] None w) as (log & w' & Hrun & Hcalls & Hmap).
  unfold bind. rewrite Hrun. unfold ret.
  eexists _, log, w'. split; [reflexivity|]. split; [exact Hcalls|].
  assert (Hlen : length log = length groups).
  { rewrite <- (length_map fst log), Hmap, length_map. reflexivity. }
  split.
  { rewrite Hlen. unfold groups.
    rewrite chunk_fuel_length by lia. rewrite Z2Nat.id by lia. reflexivity. }
  split.
  { apply List.Forall_forall. intros x Hx.
    apply (in_map fst) in Hx. rewrite Hmap in Hx.
    apply in_map_iff in Hx as (g & <- & _).
    unfold groupCall. destruct g as [|k [|k' g]]; reflexivity. }
  intros ->. subst groups. cbn in Hlen.
  destruct log; [|discriminate]. split; reflexivity.
Qed.

Lemma lastErrorFrom_origin bucket :
  forall log groups start e,
    map fst log = map (groupCall bucket) groups ->
    Forall (fun g : list string => g <> []) groups ->
    lastErrorFrom start log = Some e ->
    start = Some e
    \/ exists x, In x log /\ callError x = Some e /\ failedKeys x <> [].
Proof.
  induction log as [|x log IH]; intros groups start e Hmap Hne Hlast.
  - left. exact Hlast.
  - destruct groups as [|g groups]; [discriminate|].
    cbn [map] in Hmap. injection Hmap as Hx Hmap.
    apply Forall_cons in Hne as [Hg Hne].
    unfold lastErrorFrom in Hlast. cbn [fold_left] in Hlast.
    apply (IH groups) in Hlast; [|exact Hmap|exact Hne].
    destruct Hlast as [Hhere|(y & Hy & Herr & Hkeys)].
    + destruct (callError x) as [e'|] eqn:Herr; [|left; exact Hhere].
      right. exists x. split; [left; reflexivity|]. split; [congruence|].
      destruct x as [c rep]. cbn [fst] in Hx. subst c.
      unfold groupCall in Herr |- *.
      destruct g as [|k [|k' g]]; [congruence| |].
      * cbn in Herr |- *. destruct rep as [|[err|]| |]; try discriminate.
        destruct (isNoSuchKey err); [discriminate|]. discriminate.
      * cbn in Herr |- *. destruct rep as [| |[errors|err]|]; try discriminate.
    + right. exists y. split; [right; exact Hy|]. auto.
Qed.

(** X13: when [Delete] returns an error, it returns failed keys with
    it: the error is that of one of its requests, and that request left
    at least one key undeleted. *)
Theorem Delete_error_comes_with_failed_keys handler files (w w' : World St) failed err :
  0 <= S3DeleteBatchSize (Settings (policy handler)) ->
  Delete handler files w = (Returned (failed, Some err), w') ->
  failed <> []
  /\ exists x, In x (sentBetween w w') /\ callError x = Some err.
Proof.
  intros Hbatch Hrun. pose proof (batchSizeOf_positive handler Hbatch) as Hpos.
  unfold Delete in Hrun. fold (batchSizeOf handler) in Hrun. unfold Chunk in Hrun.
  destruct (batchSizeOf handler <=? 0) eqn:E; [lia|]. clear E.
  set (groups := chunk_fuel (length files) (Z.to_nat (batchSizeOf handler)) files) in *.
  destruct (Delete_loop_spec handler groups [] None w) as (log & w1 & Hloop & Hcalls & Hmap).
  unfold bind in Hrun. rewrite Hloop in Hrun. unfold ret in Hrun.
  injection Hrun as Hfailed Herr <-.
  destruct (chunk_fuel_concat (A := string) (Z.to_nat (batchSizeOf handler))
              ltac:(lia) (length files) files ltac:(lia)) as [_ Hsizes].
  fold groups in Hsizes.
  destruct (lastErrorFrom_origin (BucketName (policy handler)) log groups None err Hmap)
    as [Hnone|(x & Hx & Hcall & Hkeys)]; [| exact Herr | discriminate |].
  { eapply Forall_impl; [exact Hsizes|]. intros g Hg ->. simpl in Hg. lia. }
  split.
  - subst failed. cbn [app]. intros Hnil.
    apply Hkeys. clear - Hx Hnil.
    induction log as [|y log IH]; [destruct Hx|].
    cbn [map concat] in Hnil. apply app_eq_nil in Hnil as [Hy Hrest].
    destruct Hx as [->|Hx]; [exact Hy | exact (IH Hx Hrest)].
  - exists x. split; [|exact Hcall].
    unfold sentBetween. rewrite Hcalls, drop_app_length. exact Hx.
Qed.

(** *** Token: the requests and the session *)

(** The signing loop sends signing requests only, whatever its fuel. *)
Lemma Token_loop_calls handler s uploadID :
  forall fuel chunks urls (w : World St),
  exists log,
    calls (snd (Token_loop fuel handler s uploadID chunks urls w)) = calls w ++ log
    /\ Forall (fun x => isPresign (fst x) = true) log.
Proof.
  induction fuel as [|fuel IH]; intros chunks urls w.
  { exists []. simpl. rewrite app_nil_r. auto. }
  cbn [Token_loop]. unfold Next. cbv zeta.
  match goal with |- context [if ?b then _ else _] => destruct b end.
  2:{ exists []. simpl. rewrite app_nil_r. auto. }
  unfold Process, signChunk, Until, observe, request.
  unfold bind, ret. cbn [backend calls].
  destruct (clock_Now (backend w)) as [now st1]. cbn [backend calls].
  destruct (svc_GeneratePresignedUrl _ st1) as [[url|e] st2].
  - destruct (store urls _ url) as [urls'|].
    + match goal with
      | |- context [Token_loop fuel _ _ _ ?c ?u ?w0] =>
          destruct (IH c u w0) as (log & Hcalls & Hlog)
      end.
      eexists (_ :: log). rewrite Hcalls. cbn [calls]. rewrite <- app_assoc.
      split; [reflexivity|]. constructor; [reflexivity | exact Hlog].
    + eexists [_]. cbn [snd calls]. split; [reflexivity|].
      constructor; [reflexivity | constructor].
  - eexists [_]. cbn [snd calls]. split; [reflexivity|].
    constructor; [reflexivity | constructor].
Qed.

(** [Token], path by path. *)
Lemma Token_run handler s file (w w' : World St) out :
  Token handler s file w = (out, w') ->
  let bucket := BucketName (policy handler) in
  let head := CallHeadObject bucket (SavePath (Props file)) in
  let create := CallCreateMultipartUpload bucket (SavePath (SessionProps s))
                  (ExpireAt (SessionProps s)) (mimeTypeOf file) in
  exists hr st1,
    svc_HeadObject bucket (SavePath (Props file)) (backend w) = (hr, st1)
    /\ match hr with
       | Ok _ =>
           out = Returned (s, Err ErrFileExisted)
           /\ w' = {| backend := st1; calls := calls w ++ [(head, ReplyMeta hr)] |}
       | Err _ =>
           exists cr st2,
             svc_CreateMultipartUpload bucket (SavePath (SessionProps s))
               (ExpireAt (SessionProps s)) (mimeTypeOf file) st1 = (cr, st2)
             /\ match cr with
                | Err e =>
                    out = Returned (prepared handler s,
                                    Err (Errorf "failed to create multipart upload" e))
                    /\ w' = {| backend := st2;
                               calls := calls w ++ [(head, ReplyMeta hr);
                                                    (create, ReplyString cr)] |}
                | Ok id =>
                    exists signs,
                      calls w' = calls w ++ [(head, ReplyMeta hr); (create, ReplyString cr)]
                                         ++ signs
                      /\ Forall (fun x => isPresign (fst x) = true) signs
                      /\ match out with
                         | Returned (s', r) =>
                             s' = withUpload (prepared handler s) id
                             /\ match r with
                                | Ok cred => agrees cred s'
                                | Err _ => True
                                end
                         | _ => True
                         end
                end
       end.
Proof.
  intros Hrun. cbv zeta. unfold Token, bind, Meta in Hrun. unfold request at 1 in Hrun.
  destruct (svc_HeadObject _ _ (backend w)) as [[m|he] st1].
  { eexists _, _. split; [reflexivity|]. injection Hrun as <- <-. auto. }
  eexists _, _. split; [reflexivity|].
  unfold request at 1 in Hrun. cbn [backend calls SessionProps] in Hrun.
  destruct (svc_CreateMultipartUpload _ _ _ _ st1) as [[id|e] st2].
  2:{ eexists _, _. split; [reflexivity|]. injection Hrun as <- <-.
      rewrite <- app_assoc. auto. }
  eexists _, _. split; [reflexivity|].
  destruct (make_strings _) as [urls|].
  2:{ exists []. injection Hrun as <- <-. cbn. rewrite <- app_assoc. auto. }
  match type of Hrun with
  | context [Token_loop ?f ?h ?s0 ?u ?c ?l ?w0] =>
      destruct (Token_loop_calls h s0 u f c l w0) as (log & Hcalls & Hlog);
      destruct (Token_loop f h s0 u c l w0) as [signedAll w3]
  end.
  cbn [snd calls] in Hcalls.
  destruct signedAll as [[urls'|e]|reason|].
  - unfold Until, observe, request in Hrun. unfold bind, ret in Hrun.
    destruct (clock_Now (backend w3)) as [now st4]. cbn [backend calls] in Hrun.
    destruct (svc_GeneratePresignedUrl _ st4) as [[curl|e] st5];
      injection Hrun as <- <-; eexists (log ++ [_]); cbn [calls];
      rewrite Hcalls, <- !app_assoc;
      (split; [reflexivity|]); (split; [|repeat split]);
      apply Forall_app; (split; [exact Hlog|]);
      (constructor; [reflexivity|constructor]).
  - injection Hrun as <- <-. exists log. rewrite Hcalls, <- !app_assoc.
    split; [reflexivity|]. split; [exact Hlog|]. split; [reflexivity | exact I].
  - injection Hrun as <- <-. exists log. rewrite Hcalls, <- !app_assoc.
    split; [reflexivity|]. split; [exact Hlog|]. exact I.
  - injection Hrun as <- <-. exists log. rewrite Hcalls, <- !app_assoc.
    split; [reflexivity|]. split; [exact Hlog|]. exact I.
Qed.

(** X14: the requests of [Token] are a HEAD of the destination, then,
    when that fails, one request for a multipart upload and after it
    signing requests only.  No path sends an abort: when a signature
    fails after the store has issued the upload, [Token] returns the
    error and the upload stays open at the store. *)
Theorem Token_sends_no_abort handler s file (w : World St) :
  exists h rest,
    calls (snd (Token handler s file w)) = calls w ++ h :: rest
    /\ fst h = CallHeadObject (BucketName (policy handler)) (SavePath (Props file))
    /\ (rest = []
        \/ exists c signs,
             rest = c :: signs
             /\ fst c = CallCreateMultipartUpload (BucketName (policy handler))
                          (SavePath (SessionProps s)) (ExpireAt (SessionProps s))
                          (mimeTypeOf file)
             /\ Forall (fun x => isPresign (fst x) = true) signs).
Proof.
  destruct (Token handler s file w) as [out w'] eqn:Hrun.
  apply Token_run in Hrun. cbv zeta in Hrun.
  destruct Hrun as (hr & st1 & _ & Hrun). cbn [snd].
  destruct hr as [m|he].
  { destruct Hrun as [_ ->]. eexists _, []. cbn [calls fst]. auto. }
  destruct Hrun as (cr & st2 & _ & Hrun).
  destruct cr as [id|e].
  - destruct Hrun as (signs & -> & Hsigns & _).
    eexists _, _. split; [reflexivity|]. split; [reflexivity|].
    right. eexists _, signs. split; [reflexivity|]. auto.
  - destruct Hrun as [_ ->].
    eexists _, _. split; [reflexivity|]. split; [reflexivity|].
    right. eexists _, []. split; [reflexivity|]. auto.
Qed.

(** X15: the session [Token] hands back keeps its properties, its
    secret and its sentinel task.  When the destination exists it is
    handed back untouched.  Otherwise it carries the chunk size of the
    driver and the callback address, also when the call fails later; its
    upload ID is left alone when the store refuses the multipart upload,
    and is the ID the store issued once it has issued one, in which case
    a credential returned carries the same upload ID, chunk size and
    session ID. *)
Theorem Token_session_and_credential handler s file (w w' : World St) s' r :
  Token handler s file w = (Returned (s', r), w') ->
  SessionProps s' = SessionProps s
  /\ CallbackSecret s' = CallbackSecret s
  /\ SentinelTaskID s' = SentinelTaskID s
  /\ (s' = s /\ r = Err ErrFileExisted
      \/ SessionChunkSize s' = chunkSize handler
         /\ Callback s' = MasterSlaveCallbackUrl SiteURL
                            (UploadSessionID (SessionProps s)) (CallbackSecret s)
         /\ (UploadID s' = UploadID s
             /\ (exists e, r = Err (Errorf "failed to create multipart upload" e))
             \/ (exists c, In (c, ReplyString (Ok (UploadID s'))) (sentBetween w w'))
                /\ match r with
                   | Ok cred => agrees cred s'
                   | Err _ => True
                   end)).
Proof.
  intros Hrun. apply Token_run in Hrun. cbv zeta in Hrun.
  destruct Hrun as (hr & st1 & _ & Hrun).
  destruct hr as [m|he].
  { destruct Hrun as [[= <- <-] _]. auto 10. }
  destruct Hrun as (cr & st2 & _ & Hrun).
  destruct cr as [id|e].
  - destruct Hrun as (signs & Hcalls & _ & -> & Hcred).
    repeat split. right. repeat split. right. split; [|exact Hcred].
    eexists. unfold sentBetween. rewrite Hcalls, drop_app_length.
    right. left. reflexivity.
  - destruct Hrun as [[= -> ->] _].
    repeat split. right. repeat split. left. split; [reflexivity|]. eauto.
Qed.

(** X16: [CancelToken] on the session [Token] hands back aborts the
    upload [Token] created: once the store has answered the request for
    a multipart upload with an ID, also when [Token] failed afterwards,
    the one request [CancelToken] sends is the abort of that ID under the
    key of the session, and its answer is what [CancelToken] returns. *)
Theorem CancelToken_aborts_upload_of_Token handler s file (w w' : World St) s' r
        bucket key expires contentType id :
  Token handler s file w = (Returned (s', r), w') ->
  In (CallCreateMultipartUpload bucket key expires contentType, ReplyString (Ok id))
     (sentBetween w w') ->
  exists err st,
    CancelToken handler s' w'
    = (err, {| backend := st;
               calls := calls w' ++ [(CallAbortMultipartUpload bucket key id,
                                      ReplyError err)] |})
    /\ bucket = BucketName (policy handler)
    /\ key = SavePath (SessionProps s).
Proof.
  intros Hrun Hin. apply Token_run in Hrun. cbv zeta in Hrun.
  destruct Hrun as (hr & st1 & _ & Hrun). unfold sentBetween in Hin.
  destruct hr as [m|he].
  { destruct Hrun as [_ ->]. cbn [calls] in Hin. rewrite drop_app_length in Hin.
    destruct Hin as [[=]|[]]. }
  destruct Hrun as (cr & st2 & _ & Hrun).
  destruct cr as [id'|e].
  - destruct Hrun as (signs & Hcalls & Hsigns & -> & _).
    rewrite Hcalls, drop_app_length in Hin.
    destruct Hin as [[=]|[Hin|Hin]].
    + injection Hin as <- <- _ _ <-.
      unfold CancelToken, request. cbn [UploadID SessionProps withUpload prepared].
      destruct (svc_AbortMultipartUpload _ _ _ _) as [err st]. eauto.
    + rewrite List.Forall_forall in Hsigns. apply Hsigns in Hin. discriminate.
  - destruct Hrun as [_ ->]. cbn [calls] in Hin. rewrite drop_app_length in Hin.
    destruct Hin as [[=]|[[=]|[]]].
Qed.

(** *** Put: any failure of the HEAD request counts as absence *)

(** X17: without the overwrite bit, [Put] goes on to the transfer
    whenever the HEAD of the destination fails, whatever the error (a
    missing object, a refused or a broken request alike): it then sends
    one upload of the declared size under the detected content type and
    returns what the upload answers. *)
Theorem Put_uploads_after_any_head_error handler file (w : World St) e st :
  overwrite file = false ->
  svc_HeadObject (BucketName (policy handler)) (SavePath (Props file)) (backend w)
    = (Err e, st) ->
  exists r st',
    svc_Upload (BucketName (policy handler)) (SavePath (Props file))
      (PropsSize (Props file)) (mimeTypeOf file) st = (r, st')
    /\ Put handler file w
       = (r, {| backend := st';
                calls := calls w
                  ++ [(CallHeadObject (BucketName (policy handler)) (SavePath (Props file)),
                       ReplyMeta (Err e));
                      (CallUpload (BucketName (policy handler)) (SavePath (Props file))
                         (PropsSize (Props file)) (mimeTypeOf file),
                       ReplyError r)] |}).
Proof.
  intros Hmode Hhead. unfold Put. rewrite Hmode. cbn [negb].
  unfold bind, Meta, Put_upload, request. rewrite Hhead.
  unfold bind. cbn [backend calls].
  destruct (svc_Upload _ _ _ _ st) as [r st']. exists r, st'. split; [reflexivity|].
  rewrite <- app_assoc. destruct r; reflexivity.
Qed.

(** *** The time-to-live handed to the signer *)

Lemma quot_seconds_bounds a :
  - 2 ^ 63 <= a <= 2 ^ 63 - 1 ->
  - 9223372036 <= Z.quot a 1000000000 <= 9223372036.
Proof.
  intros Ha. destruct (Z.le_gt_cases 0 a) as [Hpos|Hneg].
  - rewrite Z.quot_div_nonneg by lia.
    pose proof (Z.div_pos a 1000000000 Hpos ltac:(lia)).
    pose proof (Z.div_lt_upper_bound a 1000000000 9223372037 ltac:(lia) ltac:(lia)).
    lia.
  - rewrite <- (Z.opp_involutive a), Z.quot_opp_l by lia.
    rewrite Z.quot_div_nonneg by lia.
    pose proof (Z.div_pos (- a) 1000000000 ltac:(lia) ltac:(lia)).
    pose proof (Z.div_lt_upper_bound (- a) 1000000000 9223372037 ltac:(lia) ltac:(lia)).
    lia.
Qed.

(** X18: the time-to-live [Source] and [Thumb] compute for an expiry
    [t] read at the instant [now] always lies within the whole seconds of
    an [int64] duration, and computing it sends no request.  For an
    expiry that is not in the past it is not negative, and up to the
    seven days of [MaxSourceExpire] ahead it is the distance in whole
    seconds, rounded down; for an expiry in the past it is never
    positive. *)
Theorem ttl_bounds t now st (w : World St) :
  clock_Now (backend w) = (now, st) ->
  let ttl := fst (ttlOf (Some t) w) in
  - 9223372036 <= ttl <= 9223372036
  /\ (now <= t ->
      0 <= ttl
      /\ (t - now <= 604800 * 1000000000 ->
          ttl * 1000000000 <= t - now < (ttl + 1) * 1000000000))
  /\ (t < now -> ttl <= 0)
  /\ calls (snd (ttlOf (Some t) w)) = calls w.
Proof.
  intros Hclock. unfold ttlOf, Until, observe. unfold bind, ret. rewrite Hclock.
  cbn [fst snd calls]. unfold Seconds, Sub, MinInt64, MaxInt64.
  split; [|split; [|split; [|reflexivity]]].
  - destruct (t - now <? - 2 ^ 63) eqn:E1; [vm_compute; split; discriminate|].
    destruct (2 ^ 63 - 1 <? t - now) eqn:E2; [vm_compute; split; discriminate|].
    apply Z.ltb_ge in E1, E2. apply quot_seconds_bounds. lia.
  - intros Hfuture.
    destruct (t - now <? - 2 ^ 63) eqn:E1; [apply Z.ltb_lt in E1; lia|].
    destruct (2 ^ 63 - 1 <? t - now) eqn:E2.
    + split; [vm_compute; discriminate|]. apply Z.ltb_lt in E2. lia.
    + split; [apply Z.quot_pos; lia|]. intros _.
      rewrite Z.quot_div_nonneg by lia.
      pose proof (Z.div_mod (t - now) 1000000000 ltac:(lia)) as Hdm.
      pose proof (Z.mod_pos_bound (t - now) 1000000000 ltac:(lia)) as Hb.
      lia.
  - intros Hpast.
    destruct (t - now <? - 2 ^ 63) eqn:E1; [vm_compute; discriminate|].
    destruct (2 ^ 63 - 1 <? t - now) eqn:E2; [apply Z.ltb_lt in E2; lia|].
    rewrite <- (Z.opp_involutive (t - now)), Z.quot_opp_l by lia.
    pose proof (Z.quot_pos (- (t - now)) 1000000000 ltac:(lia) ltac:(lia)). lia.
Qed.

End Driver.
End ks3_props.

(** * Properties of the listing *)

Module ks3_list_props.
Import golang ks3 ks3_list.

Section Listing.
Context {St : Type} {lister : Lister St}.

(** The loop that fetches the pages, whatever the store answers. *)
Lemma fetchPages_spec :
  forall fuel opt objects commons (w : Listing St),
  exists pages,
    sent (snd (fetchPages fuel opt objects commons w)) = sent w ++ pages
    /\ reported (snd (fetchPages fuel opt objects commons w)) = reported w
    /\ chained opt pages
    /\ (length pages <= fuel)%nat
    /\ Forall (fun p => withMarker (fst p) None = withMarker opt None) pages
    /\ match fst (fetchPages fuel opt objects commons w) with
       | OutOfFuel => length pages = fuel /\ forallb truncated pages = true
       | Panicked _ =>
           exists input res, last pages = Some (input, Ok res) /\ IsTruncated res = None
       | Returned (Err err) => exists input, last pages = Some (input, Err err)
       | Returned (Ok (opt', objects', commons')) =>
           objects' = objects ++ objectsOf pages
           /\ commons' = commons ++ commonsOf pages
           /\ InputPrefix opt' = InputPrefix opt
           /\ exists input res,
                last pages = Some (input, Ok res) /\ IsTruncated res = Some false
       end.
Proof.
  induction fuel as [|fuel IH]; intros opt objects commons w.
  { exists []. cbn. rewrite app_nil_r. repeat split; auto. }
  cbn [fetchPages]. unfold then_, ListObjects.
  destruct (svc_ListObjects opt (remote w)) as [[res|err] st].
  2:{ exists [(opt, Err err)]. cbn. repeat split; auto; [lia | eauto]. }
  destruct (IsTruncated res) as [[|]|] eqn:Htr.
  - match goal with
    | |- context [fetchPages fuel ?o ?os ?cs ?w0] =>
        destruct (IH o os cs w0) as (pages & Hsent & Hrep & Hchain & Hlen & Hsame & Hout)
    end.
    exists ((opt, Ok res) :: pages). rewrite Hsent, Hrep. cbn [sent reported].
    rewrite <- app_assoc. split; [reflexivity|]. split; [reflexivity|].
    split. { cbn. unfold truncated. cbn. rewrite Htr. auto. }
    split. { cbn. lia. }
    split. { constructor; [reflexivity|]. exact Hsame. }
    destruct (fst (fetchPages fuel _ _ _ _)) as [[[[opt' objects'] commons']|err]|reason|].
    + destruct Hout as (-> & -> & Hprefix & input & res' & Hlast & Hdone).
      unfold objectsOf, commonsOf. cbn [flat_map snd]. rewrite <- !app_assoc.
      repeat split; [exact Hprefix|].
      exists input, res'. split; [|exact Hdone].
      destruct pages; [discriminate | exact Hlast].
    + destruct Hout as (input & Hlast). exists input.
      destruct pages; [discriminate | exact Hlast].
    + destruct Hout as (input & res' & Hlast & Hnil). exists input, res'.
      split; [|exact Hnil]. destruct pages; [discriminate | exact Hlast].
    + destruct Hout as [<- Hall]. split; [reflexivity|].
      cbn [forallb]. unfold truncated at 1. cbn. rewrite Htr. exact Hall.
  - exists [(opt, Ok res)]. cbn. unfold objectsOf, commonsOf. cbn.
    rewrite !app_nil_r. repeat split; auto; [unfold truncated; cbn; rewrite Htr; auto
                                            | lia | eauto].
  - exists [(opt, Ok res)]. cbn.
    repeat split; auto; [unfold truncated; cbn; rewrite Htr; auto | lia | eauto].
Qed.

(** Fuel that is enough stays enough. *)
Lemma fetchPages_more_fuel k :
  forall fuel opt objects commons (w : Listing St),
    fst (fetchPages fuel opt objects commons w) <> OutOfFuel ->
    fetchPages (fuel + k) opt objects commons w = fetchPages fuel opt objects commons w.
Proof.
  induction fuel as [|fuel IH]; intros opt objects commons w Hout.
  { contradiction Hout. reflexivity. }
  cbn [Nat.add fetchPages] in *. unfold then_, ListObjects in *.
  destruct (svc_ListObjects opt (remote w)) as [[res|err] st]; [|reflexivity].
  destruct (IsTruncated res) as [[|]|]; [|reflexivity|reflexivity].
  apply IH. exact Hout.
Qed.

(** The two loops over what the pages hold send nothing and report
    nothing; they panic on a nil pointer only. *)
Lemma directories_spec prefix :
  forall commons res (w : Listing St),
    sent (snd (directories prefix commons res w)) = sent w
    /\ reported (snd (directories prefix commons res w)) = reported w
    /\ match fst (directories prefix commons res w) with
       | Some res' =>
           map untimed res' = map untimed res ++ omap (directoryOf prefix) commons
       | None => Exists (fun c => Prefix c = None) commons
       end.
Proof.
  induction commons as [|c commons IH]; intros res w.
  { cbn. rewrite app_nil_r. auto. }
  cbn [directories].
  change (omap (directoryOf prefix) (c :: commons))
    with (match directoryOf prefix c with
          | Some y => y :: omap (directoryOf prefix) commons
          | None => omap (directoryOf prefix) commons
          end).
  unfold directoryOf at 1.
  destruct (Prefix c) as [p|] eqn:Hp.
  2:{ cbn. repeat split. left. exact Hp. }
  destruct (filepath_Rel prefix p) as [rel|].
  - unfold then_, Now. destruct (time_Now (remote w)) as [now st].
    match goal with
    | |- context [directories prefix commons ?r ?w0] =>
        destruct (IH r w0) as (Hsent & Hrep & Hres)
    end.
    rewrite Hsent, Hrep. split; [reflexivity|]. split; [reflexivity|].
    destruct (fst (directories prefix commons _ _)) as [res'|].
    + rewrite Hres, map_app, <- app_assoc. reflexivity.
    + right. exact Hres.
  - destruct (IH res w) as (Hsent & Hrep & Hres).
    split; [exact Hsent|]. split; [exact Hrep|].
    destruct (fst (directories prefix commons res w)) as [res'|];
      [exact Hres | right; exact Hres].
Qed.

Lemma files_spec prefix :
  forall objects res (w : Listing St),
    sent (snd (files prefix objects res w)) = sent w
    /\ reported (snd (files prefix objects res w)) = reported w
    /\ match fst (files prefix objects res w) with
       | Some res' =>
           map untimed res' = map untimed res ++ omap (fileOf prefix) objects
       | None => Exists (fun o => Key o = None \/ ObjectSize o = None) objects
       end.
Proof.
  induction objects as [|o objects IH]; intros res w.
  { cbn. rewrite app_nil_r. auto. }
  cbn [files].
  change (omap (fileOf prefix) (o :: objects))
    with (match fileOf prefix o with
          | Some y => y :: omap (fileOf prefix) objects
          | None => omap (fileOf prefix) objects
          end).
  unfold fileOf at 1.
  destruct (Key o) as [key|] eqn:Hk.
  2:{ cbn. repeat split. left. left. exact Hk. }
  destruct (filepath_Rel prefix key) as [rel|].
  - destruct (ObjectSize o) as [size|] eqn:Hs.
    2:{ cbn. repeat split. left. right. exact Hs. }
    unfold then_, Now. destruct (time_Now (remote w)) as [now st].
    match goal with
    | |- context [files prefix objects ?r ?w0] =>
        destruct (IH r w0) as (Hsent & Hrep & Hres)
    end.
    rewrite Hsent, Hrep. split; [reflexivity|]. split; [reflexivity|].
    destruct (fst (files prefix objects _ _)) as [res'|].
    + rewrite Hres, map_app, <- app_assoc. reflexivity.
    + right. exact Hres.
  - destruct (IH res w) as (Hsent & Hrep & Hres).
    split; [exact Hsent|]. split; [exact Hrep|].
    destruct (fst (files prefix objects res w)) as [res'|].
    + rewrite Hres. destruct (ObjectSize o); reflexivity.
    + right. exact Hres.
Qed.

(** [List], outcome by outcome. *)
Lemma List_spec fuel handler base onProgress recursive (w : Listing St) :
  exists pages,
    sent (snd (List fuel handler base onProgress recursive w)) = sent w ++ pages
    /\ chained (firstRequest handler base recursive) pages
    /\ (length pages <= fuel)%nat
    /\ Forall (fun p => withMarker (fst p) None = firstRequest handler base recursive) pages
    /\ match fst (List fuel handler base onProgress recursive w) with
       | OutOfFuel =>
           length pages = fuel /\ forallb truncated pages = true
           /\ reported (snd (List fuel handler base onProgress recursive w)) = reported w
       | Returned (Err err) =>
           (exists input, last pages = Some (input, Err err))
           /\ reported (snd (List fuel handler base onProgress recursive w)) = reported w
       | Returned (Ok res) =>
           onProgress = true
           /\ map untimed res
              = omap (directoryOf (prefixOf base)) (commonsOf pages)
                  ++ omap (fileOf (prefixOf base)) (objectsOf pages)
           /\ reported (snd (List fuel handler base onProgress recursive w))
              = reported w ++ [Z.of_nat (length (commonsOf pages));
                               Z.of_nat (length (objectsOf pages))]
           /\ exists input res',
                last pages = Some (input, Ok res') /\ IsTruncated res' = Some false
       | Panicked _ =>
           (exists input res',
               last pages = Some (input, Ok res') /\ IsTruncated res' <> Some true)
           /\ ((exists input res',
                   last pages = Some (input, Ok res') /\ IsTruncated res' = None)
               \/ Exists (fun c => Prefix c = None) (commonsOf pages)
               \/ onProgress = false
               \/ Exists (fun o => Key o = None \/ ObjectSize o = None) (objectsOf pages))
       end.
Proof.
  unfold List, then_. cbv zeta. fold (firstRequest handler base recursive).
  destruct (fetchPages_spec fuel (firstRequest handler base recursive) [] [] w)
    as (pages & Hsent & Hrep & Hchain & Hlen & Hsame & Hout).
  exists pages.
  destruct (fetchPages fuel (firstRequest handler base recursive) [] [] w)
    as [[[[[opt objects] commons]|err]|reason|] w1]; cbn [fst snd] in *.
  - destruct Hout as (-> & -> & Hprefix & Hlast). cbn [app] in *.
    change (InputPrefix (firstRequest handler base recursive)) with (prefixOf base)
      in Hprefix.
    rewrite Hprefix.
    destruct (directories_spec (prefixOf base) (commonsOf pages) [] w1)
      as (Hsent1 & Hrep1 & Hdirs).
    destruct (directories (prefixOf base) (commonsOf pages) [] w1) as [[dirs|] w2];
      cbn [fst snd] in *.
    2:{ unfold unit_. cbn [fst snd]. rewrite Hsent1.
        split; [exact Hsent|]. split; [exact Hchain|]. split; [exact Hlen|].
        split; [exact Hsame|]. split; [|auto].
        destruct Hlast as (input & res' & Hlast & Hdone). exists input, res'.
        split; [exact Hlast | congruence]. }
    destruct onProgress; cbn [negb].
    2:{ unfold unit_. cbn [fst snd]. rewrite Hsent1.
        split; [exact Hsent|]. split; [exact Hchain|]. split; [exact Hlen|].
        split; [exact Hsame|]. split; [|auto].
        destruct Hlast as (input & res' & Hlast & Hdone). exists input, res'.
        split; [exact Hlast | congruence]. }
    unfold report. cbn [remote sent reported].
    match goal with
    | |- context [files _ _ dirs ?w0] =>
        destruct (files_spec (prefixOf base) (objectsOf pages) dirs w0)
          as (Hsent2 & Hrep2 & Hfiles);
        destruct (files (prefixOf base) (objectsOf pages) dirs w0) as [[res|] w3]
    end; cbn [fst snd sent reported remote] in *.
    + unfold unit_. cbn [fst snd sent reported].
      rewrite Hsent2, Hsent1, Hrep2, Hrep1, Hrep, Hfiles, Hdirs.
      repeat split; auto. rewrite <- app_assoc. reflexivity.
    + unfold unit_. cbn [fst snd]. rewrite Hsent2, Hsent1.
      split; [exact Hsent|]. split; [exact Hchain|]. split; [exact Hlen|].
      split; [exact Hsame|]. split; [|auto].
      destruct Hlast as (input & res' & Hlast & Hdone). exists input, res'.
      split; [exact Hlast | congruence].
  - unfold unit_. cbn [fst snd]. repeat split; auto.
  - unfold unit_. cbn [fst snd].
    split; [exact Hsent|]. split; [exact Hchain|]. split; [exact Hlen|].
    split; [exact Hsame|].
    destruct Hout as (input & res' & Hlast & Hnil). split.
    + exists input, res'. split; [exact Hlast | congruence].
    + left. exists input, res'. auto.
  - unfold unit_. cbn [fst snd]. destruct Hout as [Hn Hall]. repeat split; auto.
Qed.

Lemma last_truncated (pages : list exchange) p :
  last pages = Some p -> forallb truncated pages = true -> truncated p = true.
Proof.
  induction pages as [|q pages IH]; [discriminate|].
  cbn [forallb]. intros Hlast Hall. apply andb_true_iff in Hall as [Hq Hall].
  destruct pages as [|q' pages]; [injection Hlast as <-; exact Hq|].
  apply IH; [exact Hlast | exact Hall].
Qed.

Lemma length_omap_le {A B} (f : A -> option B) l : (length (omap f l) <= length l)%nat.
Proof.
  induction l as [|a l IH]; [reflexivity|].
  change (omap f (a :: l))
    with (match f a with Some y => y :: omap f l | None => omap f l end).
  destruct (f a); cbn [length]; lia.
Qed.

(** X20: the requests of [List] are all for the policy's bucket and the
    prefix made of [base] (one leading slash dropped, a closing slash
    added unless empty), at most 1000 keys each, with the delimiter [/]
    exactly when the listing is not recursive.  The first carries no
    marker; after a page that announces more, the next carries the marker
    that page gave, also when it gave none; the first page that announces
    no more, or fails, is the last.  The loop itself sets no bound: the
    embedding runs out of fuel exactly when every page fetched announced
    more, and fuel that is enough gives the same run as any greater
    fuel. *)
Theorem List_pagination fuel handler base onProgress recursive (w : Listing St) :
  exists pages,
    sent (snd (List fuel handler base onProgress recursive w)) = sent w ++ pages
    /\ chained (firstRequest handler base recursive) pages
    /\ Forall (fun p => withMarker (fst p) None = firstRequest handler base recursive) pages
    /\ (length pages <= fuel)%nat
    /\ (fst (List fuel handler base onProgress recursive w) = OutOfFuel
        <-> length pages = fuel /\ forallb truncated pages = true)
    /\ (fst (List fuel handler base onProgress recursive w) <> OutOfFuel ->
        forall k, List (fuel + k) handler base onProgress recursive w
                  = List fuel handler base onProgress recursive w).
Proof.
  destruct (List_spec fuel handler base onProgress recursive w)
    as (pages & Hsent & Hchain & Hlen & Hsame & Hout).
  exists pages. split; [exact Hsent|]. split; [exact Hchain|].
  split; [exact Hsame|]. split; [exact Hlen|]. split.
  - destruct (fst (List fuel handler base onProgress recursive w))
      as [[res|err]|reason|].
    + destruct Hout as (_ & _ & _ & input & res' & Hlast & Hdone).
      split; [discriminate|]. intros [_ Hall].
      apply (last_truncated _ _ Hlast) in Hall.
      unfold truncated in Hall. cbn in Hall. rewrite Hdone in Hall. discriminate.
    + destruct Hout as [(input & Hlast) _].
      split; [discriminate|]. intros [_ Hall].
      apply (last_truncated _ _ Hlast) in Hall. discriminate.
    + destruct Hout as [(input & res' & Hlast & Hnot) _].
      split; [discriminate|]. intros [_ Hall].
      apply (last_truncated _ _ Hlast) in Hall.
      unfold truncated in Hall. cbn in Hall.
      destruct (IsTruncated res') as [[|]|]; [contradiction Hnot|..];
        auto; discriminate.
    + destruct Hout as (Hn & Hall & _). split; auto.
  - intros Hfuel k. unfold List, then_ in *. cbv zeta in *.
    rewrite fetchPages_more_fuel; [reflexivity|].
    intros Hpages. apply Hfuel.
    destruct (fetchPages fuel _ [] [] w) as [out w1]. cbn [fst] in Hpages.
    subst out. reflexivity.
Qed.

(** X21: a page that fails ends [List] with that page's error as it
    is: everything the earlier pages held is dropped, no entry is
    returned and no progress is reported. *)
Theorem List_error_discards_pages fuel handler base onProgress recursive
        (w : Listing St) pages input err :
  sent (snd (List fuel handler base onProgress recursive w))
  = sent w ++ pages ++ [(input, Err err)] ->
  fst (List fuel handler base onProgress recursive w) = Returned (Err err)
  /\ reported (snd (List fuel handler base onProgress recursive w)) = reported w.
Proof.
  intros Hlog.
  destruct (List_spec fuel handler base onProgress recursive w)
    as (pages' & Hsent & _ & _ & _ & Hout).
  rewrite Hlog in Hsent. apply app_inv_head in Hsent. subst pages'.
  rewrite last_snoc in Hout.
  destruct (fst (List fuel handler base onProgress recursive w))
    as [[res|err']|reason|].
  - destruct Hout as (_ & _ & _ & input' & res' & [=] & _).
  - destruct Hout as [(input' & [= _ <-]) Hrep]. auto.
  - destruct Hout as [(input' & res' & [=] & _) _].
  - destruct Hout as (_ & Hall & _).
    rewrite forallb_app in Hall. apply andb_true_iff in Hall as [_ Hall].
    discriminate.
Qed.

(** X22: the entries [List] returns are the directories of all pages
    followed by the files of all pages, each in the order of the pages: a
    directory per common prefix, with size 0, and a file per object, with
    the key as its source; a prefix or key that [filepath.Rel] rejects
    leaves no entry.  The callback is told the number of common prefixes,
    then the number of objects, those left out included; without a
    callback the call does not return.  And [List] does return entries
    when the last page fetched announces no more, no pointer it reads is
    nil and the callback is set. *)
Theorem List_directories_first fuel handler base onProgress recursive (w : Listing St) :
  (forall res,
      fst (List fuel handler base onProgress recursive w) = Returned (Ok res) ->
      exists pages,
        sent (snd (List fuel handler base onProgress recursive w)) = sent w ++ pages
        /\ map untimed res
           = omap (directoryOf (prefixOf base)) (commonsOf pages)
               ++ omap (fileOf (prefixOf base)) (objectsOf pages)
        /\ reported (snd (List fuel handler base onProgress recursive w))
           = reported w ++ [Z.of_nat (length (commonsOf pages));
                            Z.of_nat (length (objectsOf pages))]
        /\ (length res <= length (commonsOf pages) + length (objectsOf pages))%nat
        /\ onProgress = true)
  /\ (forall pages input last_,
         sent (snd (List fuel handler base onProgress recursive w)) = sent w ++ pages ->
         last pages = Some (input, Ok last_) ->
         IsTruncated last_ = Some false ->
         Forall (fun c => Prefix c <> None) (commonsOf pages) ->
         Forall (fun o => Key o <> None /\ ObjectSize o <> None) (objectsOf pages) ->
         onProgress = true ->
         exists res, fst (List fuel handler base onProgress recursive w) = Returned (Ok res)).
Proof.
  destruct (List_spec fuel handler base onProgress recursive w)
    as (pages & Hsent & _ & _ & _ & Hout).
  split.
  - intros res Hrun. rewrite Hrun in Hout. destruct Hout as (Hcb & Hres & Hrep & _).
    exists pages. repeat split; auto.
    rewrite <- (length_map untimed), Hres, length_app.
    pose proof (length_omap_le (directoryOf (prefixOf base)) (commonsOf pages)).
    pose proof (length_omap_le (fileOf (prefixOf base)) (objectsOf pages)).
    lia.
  - intros pages' input last_ Hlog Hlast Hdone Hprefixes Hobjects Hcb.
    rewrite Hlog in Hsent. apply app_inv_head in Hsent. subst pages'.
    destruct (fst (List fuel handler base onProgress recursive w))
      as [[res|err]|reason|].
    + eauto.
    + destruct Hout as [(input' & Hlast') _]. congruence.
    + destruct Hout as [_ [(input' & res' & Hlast' & Hnil)|[Hnil|[Hnil|Hnil]]]].
      * congruence.
      * apply List.Exists_exists in Hnil as (c & Hin & Hnil).
        rewrite List.Forall_forall in Hprefixes. destruct (Hprefixes c Hin Hnil).
      * congruence.
      * apply List.Exists_exists in Hnil as (o & Hin & Hnil).
        rewrite List.Forall_forall in Hobjects. destruct (Hobjects o Hin) as [Hk Hs].
        destruct Hnil; contradiction.
    + destruct Hout as (_ & Hall & _).
      apply (last_truncated _ _ Hlast) in Hall.
      unfold truncated in Hall. cbn in Hall. rewrite Hdone in Hall. discriminate.
Qed.

End Listing.
End ks3_list_props.

(** * The further properties against the in-memory store *)

Module ks3_props_examples.
Import golang ks3 ks3_spec ks3_more ks3_props fake fake_more.

(** X11 at work: a batch size of -1. *)
Lemma Delete_negative_batch_panics_witness :
  exists reason,
    Delete brokenHandler ["a"] (holding [("a", 9)])
    = (Panicked reason, holding [("a", 9)]).
Proof.
  apply (Delete_negative_batch_panics brokenHandler ["a"] (holding [("a", 9)]) eq_refl).
Defined.

(** X12 at work: three keys in batches of two make two requests. *)
Lemma Delete_request_count_witness :
  exists r log w',
    Delete pairsHandler ["a"; "b"; "c"] guarded = (Returned r, w')
    /\ calls w' = calls guarded ++ log
    /\ Z.of_nat (length log) = 2
    /\ Forall (fun x => isDeleteCall (fst x) = true) log.
Proof.
  destruct (Delete_request_count pairsHandler ["a"; "b"; "c"] guarded
              ltac:(simpl; lia)) as (r & log & w' & Hrun & Hcalls & Hlen & Hlog & _).
  exists r, log, w'. auto.
Defined.

(** X13 at work: the locked key [a] comes back with the refusal. *)
Lemma Delete_error_comes_with_failed_keys_witness :
  fst (Delete handler ["a"] guarded)
  = Returned (["a"], Some (AwsError "AccessDenied" "Access Denied"))
  /\ ["a"] <> []
  /\ exists x,
       In x (sentBetween guarded (snd (Delete handler ["a"] guarded)))
       /\ callError x = Some (AwsError "AccessDenied" "Access Denied").
Proof.
  split; [reflexivity|].
  pose proof (Delete_error_comes_with_failed_keys handler ["a"] guarded
                (snd (Delete handler ["a"] guarded)) ["a"]
                (AwsError "AccessDenied" "Access Denied")
                ltac:(simpl; lia)) as Hfailed.
  apply Hfailed. reflexivity.
Defined.

Lemma tokenRun_returns :
  tokenRun = (Returned (issuedSession, issuedCredential), snd tokenRun).
Proof. vm_compute. reflexivity. Qed.

(** X15 at work: the session and the credential of the upload to [f]. *)
Lemma Token_session_and_credential_witness :
  UploadID issuedSession = "upload-0"
  /\ SessionChunkSize issuedSession = 4
  /\ match issuedCredential with
     | Ok cred => agrees cred issuedSession
     | Err _ => True
     end.
Proof.
  destruct (Token_session_and_credential publicHandler (session "f" 10 7)
              (uploadRequest "f" 10 0) (holding []) (snd tokenRun)
              issuedSession issuedCredential tokenRun_returns)
    as (_ & _ & _ & [[_ Hexists]|(Hsize & _ & [[_ [e Hfail]]|[_ Hagree]])]).
  - discriminate Hexists.
  - discriminate Hfail.
  - split; [reflexivity|]. split; [exact Hsize | exact Hagree].
Defined.

(** X16 at work: cancelling the upload to [f]. *)
Lemma CancelToken_aborts_upload_of_Token_witness :
  exists err st,
    CancelToken publicHandler issuedSession (snd tokenRun)
    = (err, {| backend := st;
               calls := calls (snd tokenRun)
                 ++ [(CallAbortMultipartUpload "bucket" "f" "upload-0",
                      ReplyError err)] |}).
Proof.
  destruct (CancelToken_aborts_upload_of_Token publicHandler (session "f" 10 7)
              (uploadRequest "f" 10 0) (holding []) (snd tokenRun)
              issuedSession issuedCredential
              "bucket" "f" 3600000000000 "application/octet-stream" "upload-0"
              tokenRun_returns
              ltac:(vm_compute; right; left; reflexivity))
    as (err & st & Hrun & _).
  exists err, st. exact Hrun.
Defined.

(** X17 at work: the key [n] is free, the HEAD fails, the upload goes
    out. *)
Lemma Put_uploads_after_any_head_error_witness :
  map fst (calls (snd (Put handler (uploadRequest "n" 5 0) (holding []))))
  = [CallHeadObject "bucket" "n";
     CallUpload "bucket" "n" 5 "application/octet-stream"].
Proof.
  pose proof (Put_uploads_after_any_head_error handler (uploadRequest "n" 5 0) (holding [])
                (AwsError "NotFound" "Not Found") (with_objects empty [])) as Hput.
  destruct (Hput eq_refl eq_refl) as (r & st' & _ & ->).
  reflexivity.
Defined.

(** X18 at work: an expiry 10 s in the past, and one 10.5 s ahead. *)
Lemma ttl_bounds_witness :
  fst (ttlOf (Some 90000000000) at100s) <= 0
  /\ 0 <= fst (ttlOf (Some 110500000000) at100s)
  /\ fst (ttlOf (Some 110500000000) at100s) * 1000000000 <= 10500000000.
Proof.
  pose proof (ttl_bounds 90000000000 100000000000 (backend at100s) at100s) as Hpast.
  pose proof (ttl_bounds 110500000000 100000000000 (backend at100s) at100s) as Hahead.
  split; [|split].
  - destruct (Hpast eq_refl) as (_ & _ & Hle & _). apply Hle. lia.
  - destruct (Hahead eq_refl) as (_ & Hge & _). apply (proj1 (Hge ltac:(lia))).
  - destruct (Hahead eq_refl) as (_ & Hge & _).
    apply (proj2 (Hge ltac:(lia)) ltac:(lia)).
Defined.

End ks3_props_examples.

(** * The listing against the scripted store *)

Module ks3_list_examples.
Import golang ks3 fake ks3_list ks3_list_props fake_lister.

(** X20 at work: two pages take two requests, the second with the
    marker of the first page; with fuel for one page only the embedding
    stops short. *)
Lemma List_pagination_witness :
  map fst (sent (snd (List 5 handler "/docs" true false (script [Ok page1; Ok page2]))))
  = [docsRequest; withMarker docsRequest (Some "docs/a.txt")]
  /\ List (5 + 3) handler "/docs" true false (script [Ok page1; Ok page2])
     = List 5 handler "/docs" true false (script [Ok page1; Ok page2])
  /\ fst (List 1 handler "/docs" true false (script [Ok page1; Ok page2])) = OutOfFuel.
Proof.
  destruct (List_pagination 5 handler "/docs" true false (script [Ok page1; Ok page2]))
    as (pages & _ & _ & _ & _ & _ & Hmore).
  destruct (List_pagination 1 handler "/docs" true false (script [Ok page1; Ok page2]))
    as (pages1 & Hsent1 & _ & _ & _ & Hfuel & _).
  split; [reflexivity|]. split.
  - apply Hmore. discriminate.
  - apply Hfuel. vm_compute in Hsent1. subst pages1. split; reflexivity.
Defined.

(** X21 at work: the second page times out. *)
Lemma List_error_discards_pages_witness :
  fst (List 5 handler "/docs" true false (script [Ok page1; Err timeout]))
  = Returned (Err timeout)
  /\ reported (snd (List 5 handler "/docs" true false (script [Ok page1; Err timeout])))
     = [].
Proof.
  pose proof (List_error_discards_pages 5 handler "/docs" true false
                (script [Ok page1; Err timeout])
                [(docsRequest, Ok page1)] (withMarker docsRequest (Some "docs/a.txt"))
                timeout) as Hdiscard.
  apply Hdiscard. reflexivity.
Defined.

(** X22 at work: the folder first, then the two files under [docs/];
    the object outside the prefix is counted and left out. *)
Lemma List_directories_first_witness :
  exists res,
    fst (List 5 handler "/docs" true false (script [Ok page1; Ok page2]))
    = Returned (Ok res)
    /\ map Name res = ["sub"; "a.txt"; "b.txt"]
    /\ map IsDir res = [true; false; false]
    /\ reported (snd (List 5 handler "/docs" true false (script [Ok page1; Ok page2])))
       = [1; 3].
Proof.
  pose proof (List_directories_first 5 handler "/docs" true false
                (script [Ok page1; Ok page2])) as [Hentries Hreturns].
  destruct (Hreturns [(docsRequest, Ok page1);
                      (withMarker docsRequest (Some "docs/a.txt"), Ok page2)]
              (withMarker docsRequest (Some "docs/a.txt")) page2
              eq_refl eq_refl eq_refl
              ltac:(repeat constructor; discriminate)
              ltac:(repeat constructor; discriminate)
              eq_refl) as (res & Hres).
  exists res. split; [exact Hres|].
  destruct (Hentries res Hres) as (pages & Hsent & _ & Hrep & _ & _).
  vm_compute in Hsent. subst pages.
  vm_compute in Hres. injection Hres as <-.
  split; [reflexivity|]. split; [reflexivity|]. exact Hrep.
Defined.

End ks3_list_examples.

(** * Properties of the archive routines *)

Module manager_spec.
Import golang golang_spec manager.

Lemma extend_nil w : extend w [] [] = w.
Proof. destruct w; unfold extend; simpl. rewrite !app_nil_r. reflexivity. Qed.

Lemma extend_extend w evs ents evs' ents' :
  extend (extend w evs ents) evs' ents' = extend w (evs ++ evs') (ents ++ ents').
Proof. unfold extend; simpl. rewrite !app_assoc. reflexivity. Qed.

(** *** The listing cache *)

(** The cache key determines the entity and the encoding. *)
Lemma getArchiveListCacheKey_inj id1 enc1 id2 enc2 :
  getArchiveListCacheKey id1 enc1 = getArchiveListCacheKey id2 enc2 ->
  id1 = id2 /\ enc1 = enc2.
Proof.
  unfold getArchiveListCacheKey. simpl. intros Heq.
  injection Heq as Heq.
  change (itoa id1 +:+ String "_" enc1 = itoa id2 +:+ String "_" enc2) in Heq.
  apply split_at_underscore in Heq as [Hid Henc];
    auto using itoa_no_underscore.
  split; [apply itoa_inj; exact Hid | exact Henc].
Qed.

(** A lookup that misses keeps missing while nothing is stored and the
    clock does not run backwards. *)
Lemma kv_Get_miss_later key w w2 :
  fst (kv_Get key w) = None ->
  kv w2 !! key = kv w !! key ->
  now w <= now w2 ->
  kv_Get key w2 = (None, w2).
Proof.
  unfold kv_Get. intros Hmiss -> Hnow.
  destruct (kv w !! key) as [[value expires]|]; [|reflexivity].
  destruct (now w <? expires) eqn:E; [discriminate|].
  apply Z.ltb_ge in E.
  destruct (now w2 <? expires) eqn:E2; [lia | reflexivity].
Qed.

Lemma ListArchiveFiles_miss_spec file te enc key w :
  ListArchiveFiles_miss file te enc key w =
    match GetEntitySource (env w) 0 (Some te) with
    | Err err => (Err (Errorf "failed to get entity source" err), w)
    | Ok es =>
        let id := ID (SourceEntity es) in
        match decoded (env w) file es (EntitySize te) enc with
        | None =>
            (Err (ErrNotSupportedAction ("not supported archive format: " +:+ Ext file)),
             extend w [EvOpen id; EvClose id] [])
        | Some (fmt, Err err) =>
            (Err (Errorf "failed to read file list" err),
             extend w [EvOpen id; EvDecode fmt id; EvClose id] [])
        | Some (fmt, Ok fileList) =>
            (Ok fileList,
             extend (stored w key fileList) [EvOpen id; EvDecode fmt id; EvClose id] [])
        end
    end.
Proof.
  unfold ListArchiveFiles_miss, decoded, getZipFileList, get7zFileList.
  unfold bind, ask, ret, id, emit, kv_Set, extend, stored; simpl.
  destruct (GetEntitySource (env w) 0 (Some te)) as [es|err]; [|reflexivity].
  destruct (String.eqb (Ext file) "zip"); simpl.
  - destruct (zip_NewReader (env w) es (EntitySize te)) as [files|err]; simpl;
      rewrite ?app_nil_r, <- ?app_assoc; reflexivity.
  - destruct (String.eqb (Ext file) "7z"); simpl.
    + destruct (sevenzip_NewReader (env w) es (EntitySize te)) as [files|err]; simpl;
        rewrite ?app_nil_r, <- ?app_assoc; reflexivity.
    + rewrite ?app_nil_r, <- ?app_assoc. reflexivity.
Qed.

Lemma ListArchiveFiles_unfold uri entity enc w :
  ListArchiveFiles uri entity enc w =
    match resolveTarget (env w) uri entity enc with
    | Err err => (Err err, w)
    | Ok (file, te, dec) =>
        match fst (kv_Get (getArchiveListCacheKey (ID te) enc) w) with
        | Some res => (Ok res, w)
        | None => ListArchiveFiles_miss file te dec (getArchiveListCacheKey (ID te) enc) w
        end
    end.
Proof.
  unfold ListArchiveFiles, bind, ask, ret, id; simpl.
  destruct (resolveTarget (env w) uri entity enc) as [[[file te] dec]|err]; [|reflexivity].
  unfold kv_Get.
  destruct (kv w !! getArchiveListCacheKey (ID te) enc) as [[value expires]|];
    [|reflexivity].
  destruct (now w <? expires); reflexivity.
Qed.

(** C9: when the format decoder fails, [ListArchiveFiles] returns the
    wrapped error having opened the source and run the decoder once, and
    leaves the listing cache as it was; the same request made again, with
    the cache untouched since and the clock not running backwards, opens
    the source and runs the decoder again. *)
Theorem failed_decode_not_cached uri entity enc w w' cause :
  ListArchiveFiles uri entity enc w
    = (Err (Errorf "failed to read file list" cause), w') ->
  kv w' = kv w
  /\ exists fmt id,
       w' = extend w [EvOpen id; EvDecode fmt id; EvClose id] []
       /\ forall w2,
            env w2 = env w -> kv w2 = kv w' -> now w <= now w2 ->
            ListArchiveFiles uri entity enc w2
            = (Err (Errorf "failed to read file list" cause),
               extend w2 [EvOpen id; EvDecode fmt id; EvClose id] []).
Proof.
  rewrite ListArchiveFiles_unfold.
  destruct (resolveTarget (env w) uri entity enc) as [[[file te] dec]|err] eqn:Hres.
  2:{ intros [= Herr _]. revert Hres Herr. unfold resolveTarget.
      destruct (Get (env w) uri); [|congruence].
      destruct (Type_ a); [|congruence].
      destruct (_ && _); [congruence|].
      destruct (FindDesiredEntity _ _ _); [|congruence].
      destruct (String.eqb enc ""); [congruence|].
      destruct (lookupEncoding _); congruence. }
  destruct (fst (kv_Get (getArchiveListCacheKey (ID te) enc) w)) eqn:Hmiss;
    [discriminate|].
  rewrite ListArchiveFiles_miss_spec.
  destruct (GetEntitySource (env w) 0 (Some te)) as [es|err] eqn:Hes; [|discriminate].
  destruct (decoded (env w) file es (EntitySize te) dec) as [[fmt [fileList|err]]|] eqn:Hdec;
    simpl; try discriminate.
  intros [= -> <-]. split; [reflexivity|].
  exists fmt, (ID (SourceEntity es)). split; [reflexivity|].
  intros w2 Henv Hkv Hnow.
  rewrite ListArchiveFiles_unfold, Henv, Hres.
  rewrite (kv_Get_miss_later _ w w2 Hmiss) by (rewrite ?Hkv; auto).
  simpl. rewrite ListArchiveFiles_miss_spec, Henv, Hes, Hdec. reflexivity.
Qed.

(** C8: a call that misses the cache and succeeds opens the source and
    runs the decoder once, and stores the listing under the key of
    [(entity ID, encoding)].  A later call for the same encoding, made
    within [ArchiveListCacheTTL] (3600) seconds on the cache as the first
    call left it, returns that listing without any event (no source is
    opened, no decoder runs) when it resolves to the same entity ID.
    When it resolves to another entity ID for which the cache held no
    live entry, it takes the miss path again.  Keys are equal only for
    equal entity IDs and equal encoding names. *)
Theorem listing_cached_within_ttl
        uri1 entity1 uri2 entity2 enc w1 w1' w2 listing file1 te1 dec1 file2 te2 dec2 :
  resolveTarget (env w1) uri1 entity1 enc = Ok (file1, te1, dec1) ->
  fst (kv_Get (getArchiveListCacheKey (ID te1) enc) w1) = None ->
  ListArchiveFiles uri1 entity1 enc w1 = (Ok listing, w1') ->
  resolveTarget (env w2) uri2 entity2 enc = Ok (file2, te2, dec2) ->
  kv w2 = kv w1' ->
  now w1 <= now w2 < now w1 + ArchiveListCacheTTL ->
  (exists fmt id,
      w1' = extend (stored w1 (getArchiveListCacheKey (ID te1) enc) listing)
                   [EvOpen id; EvDecode fmt id; EvClose id] [])
  /\ (if ID te2 =? ID te1
      then ListArchiveFiles uri2 entity2 enc w2 = (Ok listing, w2)
      else fst (kv_Get (getArchiveListCacheKey (ID te2) enc) w1) = None ->
           ListArchiveFiles uri2 entity2 enc w2
           = ListArchiveFiles_miss file2 te2 dec2
               (getArchiveListCacheKey (ID te2) enc) w2)
  /\ (forall id id' e e',
        getArchiveListCacheKey id e = getArchiveListCacheKey id' e' ->
        id = id' /\ e = e').
Proof.
  intros Hres1 Hmiss Hrun Hres2 Hkv Hnow.
  rewrite ListArchiveFiles_unfold, Hres1, Hmiss, ListArchiveFiles_miss_spec in Hrun.
  destruct (GetEntitySource (env w1) 0 (Some te1)) as [es|err]; [|discriminate].
  destruct (decoded (env w1) file1 es (EntitySize te1) dec1) as [[fmt [fileList|err]]|];
    simpl in Hrun; try discriminate.
  injection Hrun as -> <-.
  split; [eauto|]. split; [|intros; apply getArchiveListCacheKey_inj; assumption].
  simpl in Hkv.
  destruct (ID te2 =? ID te1) eqn:Eid.
  - apply Z.eqb_eq in Eid.
    rewrite ListArchiveFiles_unfold, Hres2, Eid.
    unfold kv_Get. rewrite Hkv, lookup_insert_eq.
    destruct (now w2 <? now w1 + ArchiveListCacheTTL) eqn:E; [reflexivity|lia].
  - apply Z.eqb_neq in Eid. intros Hmiss2.
    rewrite ListArchiveFiles_unfold, Hres2.
    rewrite (kv_Get_miss_later _ w1 w2 Hmiss2); [reflexivity | | lia].
    rewrite Hkv. apply lookup_insert_ne.
    intros Hkey. apply getArchiveListCacheKey_inj in Hkey as [Hid _]. congruence.
Qed.

(** *** Creating an archive *)

Lemma after_nil e o c : after e o c [] = c.
Proof. destruct c; unfold after, failuresIn; simpl. f_equal; lia. Qed.

Lemma after_cons e o c t ts :
  after e o c (t :: ts) =
  after e o {| failed := failed c + (if fails e o t then 1 else 0);
               compressed := wrap64 (compressed c + FileSize (snd t)) |} ts.
Proof.
  unfold after, failuresIn; simpl.
  destruct (fails e o t); simpl; f_equal; lia.
Qed.

Lemma after_app e o c ts ts' :
  after e o c (ts ++ ts') = after e o (after e o c ts) ts'.
Proof.
  revert c. induction ts as [|t ts IH]; intros c.
  - rewrite after_nil. reflexivity.
  - simpl. rewrite !after_cons. apply IH.
Qed.

Lemma withinLimit_app o total l l' :
  withinLimit o total (l ++ l') =
  withinLimit o total l && withinLimit o (totalOf total l) l'.
Proof.
  revert total. induction l as [|s l IH]; intros total; simpl; [reflexivity|].
  rewrite IH, andb_assoc. reflexivity.
Qed.

Lemma compressFileToArchive_spec o t w :
  exists evs,
    compressFileToArchive (fst t) (snd t) (ArchiveCompression o) (DryRun o) w
    = (fst (compressOutcome (env w) o t),
       extend w evs (snd (compressOutcome (env w) o t))).
Proof.
  unfold compressFileToArchive, compressOutcome, headerOf, bind, ask, ret, id; simpl.
  destruct (GetEntitySource _ _ _) as [es|err]; simpl.
  2:{ exists []. rewrite extend_nil. reflexivity. }
  destruct (DryRun o); simpl.
  { eexists [_]. unfold emit, extend; simpl; rewrite app_nil_r; reflexivity. }
  destruct (CreateHeaderError _ _) as [err|]; simpl.
  { exists []. rewrite extend_nil. reflexivity. }
  destruct (CopyError _ _) as [err|]; simpl; exists [];
    unfold push_entry, extend; simpl; rewrite app_nil_r; reflexivity.
Qed.

Lemma archiveOne_spec o t c w :
  exists evs,
    archiveOne o (fst t) (snd t) c w
    = ({| failed := failed c + (if fails (env w) o t then 1 else 0);
          compressed := wrap64 (compressed c + FileSize (snd t)) |},
       extend w evs (entriesOf (env w) o t)).
Proof.
  unfold archiveOne, bind, fails, entriesOf.
  destruct (compressFileToArchive_spec o t w) as (evs & ->).
  destruct (fst (compressOutcome (env w) o t)) as [err|];
    destruct (ProgressFunc o); unfold emit, ret, bind; simpl;
    eexists; unfold extend; simpl;
    rewrite <- ?app_assoc, ?Z.add_0_r; reflexivity.
Qed.

Lemma overLimit_within o total s sizes n :
  withinLimit o total (s :: sizes) = true ->
  overLimit o {| failed := n; compressed := wrap64 (total + s) |} = false
  /\ withinLimit o (wrap64 (total + s)) sizes = true.
Proof.
  simpl. intros H. apply andb_true_iff in H as [H1 H2].
  split; [|exact H2].
  unfold overLimit; simpl. apply negb_true_iff in H1. exact H1.
Qed.

(** A walk whose files stay within the ceiling visits them all. *)
Lemma walkFiles_within o root :
  forall l c w,
    let ts := map (fun f => (TrimPrefix (UriDir f) (UriDir root), f))
                  (List.filter archivable l) in
    withinLimit o (compressed c) (sizesOf ts) = true ->
    exists evs,
      walkFiles (walkFunc o root) l c w
      = ((None, after (env w) o c ts),
         extend w evs (flat_map (entriesOf (env w) o) ts)).
Proof.
  induction l as [|f l IH]; intros c w ts Hlim.
  - exists []. simpl. rewrite after_nil, extend_nil. reflexivity.
  - cbn [walkFiles]. unfold bind. unfold walkFunc at 1. subst ts.
    cbn [List.filter] in *.
    assert (Ha : archivable f = match Type_ f, IsSymbolic f with
                                | FileTypeFolder, _ | _, true => false
                                | _, _ => true
                                end) by reflexivity.
    destruct (Type_ f); [destruct (IsSymbolic f)|]; rewrite Ha in *; clear Ha.
    + (* a symbolic link *)
      unfold ret. apply IH. exact Hlim.
    + (* a file *)
      cbn [map sizesOf] in Hlim |- *. unfold bind.
      destruct (archiveOne_spec o (TrimPrefix (UriDir f) (UriDir root), f) c w)
        as (evs & Hone).
      cbn [fst snd] in Hone. rewrite Hone.
      destruct (overLimit_within o _ _ _
                  (failed c + (if fails (env w) o (TrimPrefix (UriDir f) (UriDir root), f)
                               then 1 else 0)) Hlim) as [Hover Hrest].
      cbn [snd] in *. rewrite Hover. unfold ret.
      match goal with
      | |- context [walkFiles _ _ ?c' ?w'] =>
          destruct (IH c' w' Hrest) as (evs' & Hrun)
      end.
      rewrite Hrun. cbn [env extend]. rewrite extend_extend.
      exists (evs ++ evs'). rewrite after_cons. cbn [flat_map]. reflexivity.
    + (* a folder *)
      unfold ret. apply IH. exact Hlim.
Qed.

(** The roots, all within the ceiling, are all archived. *)
Lemma archiveRoots_within o :
  forall files c w,
    let ts := flat_map targetsOf files in
    withinLimit o (compressed c) (sizesOf ts) = true ->
    exists evs,
      archiveRoots o files c w
      = ((None, after (env w) o c ts),
         extend w evs (flat_map (entriesOf (env w) o) ts)).
Proof.
  induction files as [|file files IH]; intros c w ts Hlim.
  - exists []. simpl. rewrite after_nil, extend_nil. reflexivity.
  - subst ts. cbn [flat_map] in Hlim |- *.
    unfold sizesOf in Hlim. rewrite map_app, withinLimit_app in Hlim.
    apply andb_true_iff in Hlim as [Hhere Hrest].
    cbn [archiveRoots].
    assert (Ht : targetsOf file = match Type_ file with
                                  | FileTypeFile => [("/", file)]
                                  | FileTypeFolder =>
                                      map (fun f => (TrimPrefix (UriDir f) (UriDir file), f))
                                          (List.filter archivable (descendants file))
                                  end) by reflexivity.
    destruct (Type_ file); rewrite Ht in *; clear Ht.
    + (* a file at the root *)
      unfold bind.
      destruct (archiveOne_spec o ("/", file) c w) as (evs & Hone).
      cbn [fst snd] in Hone. rewrite Hone.
      cbn [map] in Hhere.
      destruct (overLimit_within o _ _ _
                  (failed c + (if fails (env w) o ("/", file) then 1 else 0)) Hhere)
        as [Hover _].
      cbn [snd] in *. rewrite Hover.
      cbn [sizesOf map totalOf fold_left snd] in Hrest.
      match goal with
      | |- context [archiveRoots _ _ ?c' ?w'] =>
          destruct (IH c' w' Hrest) as (evs' & Hrun)
      end.
      rewrite Hrun. cbn [env extend]. rewrite extend_extend.
      exists (evs ++ evs'). cbn [app]. rewrite after_cons. cbn [flat_map]. reflexivity.
    + (* a folder at the root *)
      unfold bind, Walk.
      destruct (walkFiles_within o file (descendants file) c w Hhere) as (evs & Hwalk).
      rewrite Hwalk.
      match goal with
      | |- context [archiveRoots _ _ ?c' ?w'] =>
          destruct (IH c' w' Hrest) as (evs' & Hrun)
      end.
      rewrite Hrun. cbn [env extend]. rewrite extend_extend.
      exists (evs ++ evs'). rewrite after_app, flat_map_app. reflexivity.
Qed.


Lemma complete_entry_of e o t :
  fails e o t = false -> DryRun o = false ->
  entriesOf e o t = [{| EntryHeader := headerOf e o t; EntryComplete := true |}].
Proof.
  unfold fails, entriesOf, compressOutcome. intros Hok Hdry. rewrite Hdry in *.
  destruct (GetEntitySource _ _ _); simpl in *; [|discriminate].
  destruct (CreateHeaderError _ _); simpl in *; [discriminate|].
  destruct (CopyError _ _); simpl in *; [discriminate|reflexivity].
Qed.

(** C7 (amended): over roots that all resolve, and as long as the
    cumulative size stays within the configured ceiling (or none is
    configured), [CreateArchive] returns no error and a failure count
    equal to the number of files whose read or compression failed: each
    such failure adds one and the files after it are still processed.
    The archive gains exactly the entries of the files in order, and,
    outside dry-run mode, a complete entry for every file that did not
    fail. *)
Theorem file_failures_counted_not_fatal uris o w files :
  resolveRoots (env w) uris = Ok files ->
  withinLimit o 0 (sizesOf (flat_map targetsOf files)) = true ->
  fst (CreateArchive uris o w)
    = (Z.of_nat (length (List.filter (fails (env w) o) (flat_map targetsOf files))), None)
  /\ archive (snd (CreateArchive uris o w))
     = archive w ++ flat_map (entriesOf (env w) o) (flat_map targetsOf files)
  /\ (forall t,
        In t (flat_map targetsOf files) ->
        fails (env w) o t = false -> DryRun o = false ->
        In {| EntryHeader := headerOf (env w) o t; EntryComplete := true |}
           (archive (snd (CreateArchive uris o w)))).
Proof.
  intros Hres Hlim.
  destruct (archiveRoots_within o files {| failed := 0; compressed := 0 |} w Hlim)
    as (evs & Hrun).
  assert (Hall : CreateArchive uris o w
                 = ((failuresIn (env w) o (flat_map targetsOf files), None),
                    snd (close_archive
                           (extend w evs (flat_map (entriesOf (env w) o)
                                                   (flat_map targetsOf files)))))).
  { unfold CreateArchive, bind, ask, ret, id. simpl. rewrite Hres, Hrun.
    unfold after. simpl. reflexivity. }
  rewrite Hall. simpl. split; [reflexivity|]. split; [reflexivity|].
  intros t Hin Hok Hdry. apply in_or_app. right.
  apply in_flat_map. exists t. split; [exact Hin|].
  rewrite (complete_entry_of _ _ _ Hok Hdry). left. reflexivity.
Qed.

End manager_spec.

(** * The archive routines over a small tree *)

Module manager_examples.
Import golang manager manager_spec fakefs.

(** C7, counterexample: three resolvable files of 10 bytes, the first
    unreadable, under a ceiling of 15 bytes.  The call returns a failure
    count of 0 with the size error, and [c] never reaches the archive. *)
Lemma failure_count_lost_on_abort :
  fst (CreateArchive uris (options 15) oneUnreadable)
    = (0, Some ErrArchiveSrcSizeTooBig)
  /\ archive (snd (CreateArchive uris (options 15) oneUnreadable))
     = [entry "/a" 10 false; entry "/b" 10 true]
  /\ events (snd (CreateArchive uris (options 15) oneUnreadable))
     = [EvWarnCompress "cloudreve://my/a" (OtherError "unexpected EOF")].
Proof. repeat split. Qed.

(** C7 at work: with no ceiling, the unreadable [a] is counted once and
    [b] and [c] are archived whole. *)
Lemma file_failures_counted_not_fatal_witness :
  fst (CreateArchive uris (options 0) oneUnreadable) = (1, None)
  /\ In (entry "/b" 10 true) (archive (snd (CreateArchive uris (options 0) oneUnreadable)))
  /\ In (entry "/c" 10 true) (archive (snd (CreateArchive uris (options 0) oneUnreadable))).
Proof.
  destruct (file_failures_counted_not_fatal uris (options 0) oneUnreadable three
              eq_refl eq_refl) as (Hcount & _ & Hentries).
  split; [exact Hcount|]. split.
  - apply (Hentries ("/", file "b" 10 2)); [simpl; auto | reflexivity | reflexivity].
  - apply (Hentries ("/", file "c" 10 3)); [simpl; auto | reflexivity | reflexivity].
Defined.

(** C2, the failing input: under a ceiling of 10 bytes, a folder root
    whose first file has 20 bytes.  The walk stops at that file with the
    size error, which [CreateArchive] logs as a failed walk: it returns a
    failure count of 1 and no error, and the archive is closed over the
    one entry written.  The same file as a root of its own aborts the call
    with the size error. *)
Theorem size_limit_inside_folder_not_fatal :
  let inFolder := CreateArchive ["cloudreve://my/docs"] (options 10)
                    (start (tree [docs] [] []) 0) in
  let atRoot := CreateArchive ["cloudreve://my/big"] (options 10)
                  (start (tree [file "big" 20 1] [] []) 0) in
  fst inFolder = (1, None)
  /\ events (snd inFolder) = [EvWarnWalk "cloudreve://my/docs" ErrArchiveSrcSizeTooBig]
  /\ archive (snd inFolder) = [entry "docs/big" 20 true]
  /\ archiveClosed (snd inFolder) = true
  /\ fst atRoot = (0, Some ErrArchiveSrcSizeTooBig).
Proof.
  cbv zeta. repeat split.
Qed.

(** C9 at work: the corrupt archive is decoded at each call. *)
Lemma failed_decode_not_cached_witness :
  kv (snd (ListArchiveFiles "cloudreve://my/bad.zip" "" "" (start archives 0)))
    = kv (start archives 0)
  /\ exists fmt id,
       snd (ListArchiveFiles "cloudreve://my/bad.zip" "" "" (start archives 0))
       = extend (start archives 0) [EvOpen id; EvDecode fmt id; EvClose id] []
       /\ fst (ListArchiveFiles "cloudreve://my/bad.zip" "" ""
                 (snd (ListArchiveFiles "cloudreve://my/bad.zip" "" "" (start archives 0))))
          = Err (Errorf "failed to read file list"
                   (Errorf "failed to create zip reader"
                      (OtherError "zip: not a valid zip file"))).
Proof.
  destruct (failed_decode_not_cached "cloudreve://my/bad.zip" "" "" (start archives 0)
              (snd (ListArchiveFiles "cloudreve://my/bad.zip" "" "" (start archives 0)))
              (Errorf "failed to create zip reader" (OtherError "zip: not a valid zip file"))
              eq_refl) as (Hkv & fmt & id & Hw & Hagain).
  split; [exact Hkv|].
  exists fmt, id. split; [exact Hw|].
  rewrite (Hagain _ eq_refl eq_refl ltac:(simpl; lia)). reflexivity.
Defined.

(** C8 at work: listed at 100 s, the archive is answered from the cache
    at 3699 s. *)
Lemma listing_cached_within_ttl_witness :
  let first := ListArchiveFiles zipUri "" "gbk" (start archives 100) in
  let again := {| env := archives; kv := kv (snd first); now := 3699;
                  events := []; archive := []; archiveClosed := false |} in
  events (snd first) = [EvOpen 1; EvDecode "zip" 1; EvClose 1]
  /\ ListArchiveFiles zipUri "" "gbk" again
     = (Ok [{| Name := "readme.txt"; Size := 12; UpdatedAt := Some 0;
               IsDirectory := false |}], again).
Proof.
  intros first again.
  split; [reflexivity|].
  pose proof (listing_cached_within_ttl zipUri "" zipUri "" "gbk"
                (start archives 100) (snd first) again
                [{| Name := "readme.txt"; Size := 12; UpdatedAt := Some 0;
                    IsDirectory := false |}]
                (zipFile "z.zip" 20 1) {| ID := 1; EntitySize := 20 |} (Some "gbk")
                (zipFile "z.zip" 20 1) {| ID := 1; EntitySize := 20 |} (Some "gbk")
                eq_refl eq_refl eq_refl eq_refl eq_refl
                ltac:(simpl; unfold ArchiveListCacheTTL; lia)) as (_ & Hhit & _).
  exact Hhit.
Defined.

End manager_examples.

(** * Further properties of the archive routines *)

Module manager_props.
Import golang golang_spec manager manager_spec manager_more.

(** *** The log and the counters of one file *)

Lemma wrap64_in_range z : - 2 ^ 63 <= z < 2 ^ 63 -> wrap64 z = z.
Proof.
  intros Hz. unfold wrap64. rewrite Z.mod_small by lia. lia.
Qed.

Lemma warnings_app evs evs' : warnings (evs ++ evs') = warnings evs + warnings evs'.
Proof.
  unfold warnings. rewrite List.filter_app, length_app. lia.
Qed.

Lemma compressFileToArchive_log o t w :
  compressFileToArchive (fst t) (snd t) (ArchiveCompression o) (DryRun o) w
  = (fst (compressOutcome (env w) o t),
     extend w
       (match GetEntitySource (env w) (PrimaryEntityID (snd t)) None with
        | Ok es =>
            if DryRun o
            then [EvDryRun (JoinFromSlash (env w) (fst t) (DisplayName (snd t)))
                           (SourceEntity es)]
            else []
        | Err _ => []
        end)
       (snd (compressOutcome (env w) o t))).
Proof.
  unfold compressFileToArchive, compressOutcome, headerOf, bind, ask, ret, id; simpl.
  destruct (GetEntitySource _ _ _) as [es|err]; simpl.
  2:{ rewrite extend_nil. reflexivity. }
  destruct (DryRun o); simpl.
  { unfold emit, extend; simpl. rewrite app_nil_r. reflexivity. }
  destruct (CreateHeaderError _ _) as [err|]; simpl.
  { rewrite extend_nil. reflexivity. }
  destruct (CopyError _ _) as [err|]; simpl;
    unfold push_entry, extend; simpl; rewrite app_nil_r; reflexivity.
Qed.

Lemma archiveOne_log o t c w :
  archiveOne o (fst t) (snd t) c w
  = ({| failed := failed c + (if fails (env w) o t then 1 else 0);
        compressed := wrap64 (compressed c + FileSize (snd t)) |},
     extend w (logOfOne (env w) o (compressed c) t) (entriesOf (env w) o t)).
Proof.
  unfold archiveOne, bind, fails, entriesOf, logOfOne.
  rewrite compressFileToArchive_log.
  destruct (fst (compressOutcome (env w) o t)) as [err|];
    destruct (ProgressFunc o); unfold emit, ret, bind; simpl;
    unfold extend; simpl;
    rewrite <- ?app_assoc, ?app_nil_r, ?Z.add_0_r; reflexivity.
Qed.

Lemma warnings_logOfOne e o total t :
  warnings (logOfOne e o total t) = if fails e o t then 1 else 0.
Proof.
  unfold logOfOne, fails, warnings.
  destruct (GetEntitySource _ _ _); destruct (DryRun o);
    destruct (fst (compressOutcome e o t)); destruct (ProgressFunc o); reflexivity.
Qed.

Lemma warnings_logOf e o ts :
  forall total, warnings (logOf e o total ts) = failuresIn e o ts.
Proof.
  induction ts as [|t ts IH]; intros total; [reflexivity|].
  cbn [logOf]. rewrite warnings_app, warnings_logOfOne, IH.
  unfold failuresIn. cbn [List.filter].
  destruct (fails e o t); cbn [length]; lia.
Qed.

(** A walk processes an initial segment of its files: all of them, or
    those up to the one that brings the counter over the ceiling. *)
Lemma walkFiles_general o root :
  forall l c w,
  exists r ts',
    walkFiles (walkFunc o root) l c w
    = ((r, after (env w) o c ts'),
       extend w (logOf (env w) o (compressed c) ts')
                (flat_map (entriesOf (env w) o) ts'))
    /\ ts' `prefix_of` walkTargets root l
    /\ (r = None /\ ts' = walkTargets root l
        \/ r = Some ErrArchiveSrcSizeTooBig
           /\ over o (totalOf (compressed c) (sizesOf ts')) = true).
Proof.
  induction l as [|f l IH]; intros c w.
  - exists None, []. simpl. rewrite after_nil, extend_nil. auto.
  - cbn [walkFiles]. unfold bind. unfold walkFunc at 1. unfold walkTargets.
    cbn [List.filter].
    assert (Ha : archivable f = match Type_ f, IsSymbolic f with
                                | FileTypeFolder, _ | _, true => false
                                | _, _ => true
                                end) by reflexivity.
    destruct (Type_ f); [destruct (IsSymbolic f)|]; rewrite Ha; clear Ha.
    + unfold ret. apply IH.
    + unfold bind.
      pose proof (archiveOne_log o (TrimPrefix (UriDir f) (UriDir root), f) c w) as Hone.
      cbn [fst snd] in Hone. rewrite Hone. clear Hone. cbn [map].
      destruct (overLimit o _) eqn:Hover; unfold ret.
      * exists (Some ErrArchiveSrcSizeTooBig), [(TrimPrefix (UriDir f) (UriDir root), f)].
        rewrite after_cons, after_nil. cbn [logOf flat_map fst snd].
        rewrite !app_nil_r. split; [reflexivity|]. split.
        { eexists. reflexivity. }
        right. split; [reflexivity|]. exact Hover.
      * match goal with
        | |- context [walkFiles _ _ ?c' ?w'] =>
            destruct (IH c' w') as (r & ts' & Hrun & Hpre & Hend)
        end.
        exists r, ((TrimPrefix (UriDir f) (UriDir root), f) :: ts').
        rewrite Hrun. cbn [env extend compressed]. rewrite extend_extend.
        rewrite after_cons. cbn [logOf flat_map fst snd sizesOf map totalOf fold_left].
        split; [reflexivity|]. split.
        { apply prefix_cons. exact Hpre. }
        destruct Hend as [[-> ->]|[-> Hov]]; [left; auto | right; auto].
    + unfold ret. apply IH.
Qed.

Lemma progress_logOfOne e o total t :
  List.filter isProgress (logOfOne e o total t)
  = if ProgressFunc o
    then [EvProgress (wrap64 (total + FileSize (snd t))) (FileSize (snd t)) 0]
    else [].
Proof.
  unfold logOfOne.
  destruct (GetEntitySource _ _ _); destruct (DryRun o);
    destruct (fst (compressOutcome e o t)); destruct (ProgressFunc o); reflexivity.
Qed.

Lemma progress_logOf e o ts :
  forall total,
    List.filter isProgress (logOf e o total ts)
    = if ProgressFunc o then progressOf total ts else [].
Proof.
  induction ts as [|t ts IH]; intros total.
  - destruct (ProgressFunc o); reflexivity.
  - cbn [logOf progressOf]. rewrite List.filter_app, progress_logOfOne, IH.
    destruct (ProgressFunc o); reflexivity.
Qed.

Lemma progressOf_app ts ts' :
  forall total,
    progressOf total (ts ++ ts')
    = progressOf total ts ++ progressOf (totalOf total (sizesOf ts)) ts'.
Proof.
  induction ts as [|t ts IH]; intros total; [reflexivity|].
  cbn [app progressOf sizesOf map totalOf fold_left]. rewrite IH. reflexivity.
Qed.

Lemma totalOf_app total l l' : totalOf total (l ++ l') = totalOf (totalOf total l) l'.
Proof.
  unfold totalOf. apply fold_left_app.
Qed.

(** The roots after any run: the files processed are a subsequence of
    the roots' files, the failure counter has grown by one for each
    warning logged, and the byte counter by the size of each file
    processed, which is what the progress reports tell. *)
Lemma archiveRoots_general o :
  forall files c w,
  exists r c' evs ts',
    archiveRoots o files c w
    = ((r, c'), extend w evs (flat_map (entriesOf (env w) o) ts'))
    /\ ts' `sublist_of` flat_map targetsOf files
    /\ failed c' = failed c + warnings evs
    /\ (r = None \/ r = Some ErrArchiveSrcSizeTooBig)
    /\ compressed c' = totalOf (compressed c) (sizesOf ts')
    /\ List.filter isProgress evs
       = (if ProgressFunc o then progressOf (compressed c) ts' else []).
Proof.
  induction files as [|file files IH]; intros c w.
  - exists None, c, [], []. simpl. rewrite extend_nil.
    repeat split; auto; [unfold warnings; simpl; lia | destruct (ProgressFunc o); reflexivity].
  - cbn [archiveRoots flat_map].
    assert (Ht : targetsOf file = match Type_ file with
                                  | FileTypeFile => [("/", file)]
                                  | FileTypeFolder => walkTargets file (descendants file)
                                  end) by reflexivity.
    destruct (Type_ file); rewrite Ht; clear Ht.
    + unfold bind. pose proof (archiveOne_log o ("/", file) c w) as Hone.
      cbn [fst snd] in Hone. rewrite Hone. clear Hone.
      destruct (overLimit o _) eqn:Hover; unfold ret.
      * eexists (Some ErrArchiveSrcSizeTooBig), _, _, [("/", file)].
        cbn [flat_map]. rewrite app_nil_r. split; [reflexivity|].
        split; [apply sublist_inserts_r; reflexivity|].
        split; [cbn [failed]; rewrite warnings_logOfOne; reflexivity|].
        split; [auto|]. split; [reflexivity|].
        rewrite progress_logOfOne. destruct (ProgressFunc o); reflexivity.
      * match goal with
        | |- context [archiveRoots _ _ ?c' ?w'] =>
            destruct (IH c' w')
              as (r & c'' & evs & ts' & Hrun & Hsub & Hcount & Hr & Hbytes & Hprog)
        end.
        rewrite Hrun. cbn [env extend]. rewrite extend_extend.
        eexists r, c'', _, (("/", file) :: ts'). cbn [flat_map].
        split; [reflexivity|]. split; [apply sublist_skip; exact Hsub|].
        split; [rewrite Hcount, warnings_app, warnings_logOfOne; cbn [failed]; lia|].
        split; [exact Hr|]. split; [exact Hbytes|].
        rewrite List.filter_app, progress_logOfOne, Hprog.
        destruct (ProgressFunc o); reflexivity.
    + unfold bind, Walk.
      destruct (walkFiles_general o file (descendants file) c w)
        as (r & ts1 & Hwalk & Hpre & Hend).
      rewrite Hwalk.
      destruct Hend as [[-> ->]|[-> Hov]].
      * match goal with
        | |- context [archiveRoots _ _ ?c' ?w'] =>
            destruct (IH c' w')
              as (r & c'' & evs & ts' & Hrun & Hsub & Hcount & Hr & Hbytes & Hprog)
        end.
        rewrite Hrun. cbn [env extend]. rewrite extend_extend.
        eexists r, c'', _, (_ ++ ts'). rewrite flat_map_app.
        split; [reflexivity|]. split; [apply sublist_app; [reflexivity | exact Hsub]|].
        split; [rewrite Hcount, warnings_app, warnings_logOf; unfold after;
                cbn [failed]; lia|].
        split; [exact Hr|]. unfold after in Hbytes, Hprog. cbn [compressed] in Hbytes, Hprog.
        split.
        { unfold sizesOf in *. rewrite map_app, totalOf_app. exact Hbytes. }
        rewrite List.filter_app, progress_logOf, Hprog, progressOf_app.
        destruct (ProgressFunc o); reflexivity.
      * unfold bind, emit. cbn [env extend events archive kv now archiveClosed].
        match goal with
        | |- context [archiveRoots _ _ ?c' ?w'] =>
            destruct (IH c' w')
              as (r & c'' & evs & ts' & Hrun & Hsub & Hcount & Hr & Hbytes & Hprog)
        end.
        rewrite Hrun.
        eexists r, c'', (logOf (env w) o (compressed c) ts1
                           ++ [EvWarnWalk (Uri file) ErrArchiveSrcSizeTooBig] ++ evs),
                (ts1 ++ ts').
        rewrite flat_map_app. split.
        { unfold extend. cbn. rewrite <- !app_assoc. reflexivity. }
        split.
        { apply sublist_app; [|exact Hsub].
          destruct Hpre as [rest ->]. apply sublist_inserts_r. reflexivity. }
        split.
        { rewrite Hcount, !warnings_app, warnings_logOf. unfold after. cbn [failed].
          unfold warnings at 2. cbn. lia. }
        split; [exact Hr|]. unfold after in Hbytes, Hprog. cbn [compressed] in Hbytes, Hprog.
        split.
        { unfold sizesOf in *. rewrite map_app, totalOf_app. exact Hbytes. }
        rewrite !List.filter_app, progress_logOf, Hprog, progressOf_app.
        destruct (ProgressFunc o); reflexivity.
Qed.

(** *** CreateArchive: roots that do not resolve *)

Lemma resolveRoots_app e pre files :
  resolveRoots e pre = Ok files ->
  forall rest,
    resolveRoots e (pre ++ rest)
    = match resolveRoots e rest with
      | Ok files' => Ok (files ++ files')
      | Err err => Err err
      end.
Proof.
  revert files. induction pre as [|uri pre IH]; intros files Hpre rest.
  - injection Hpre as <-. simpl. destruct (resolveRoots e rest); reflexivity.
  - simpl in *. destruct (Get e uri) as [file|err]; [|discriminate].
    destruct (resolveRoots e pre) as [files0|err] eqn:Hpre0; [|discriminate].
    injection Hpre as <-. rewrite (IH files0 eq_refl rest).
    destruct (resolveRoots e rest); reflexivity.
Qed.

(** X1: every root is resolved before anything is written.  When the
    roots before [uri] resolve and [uri] does not, [CreateArchive] returns
    a failure count of 0 and the error of [uri] wrapped with its name,
    whatever roots follow, and leaves the archive, the log and the rest of
    the world as they were: no entry is written and the archive is not
    closed. *)
Theorem CreateArchive_unresolved_root pre uri post o w files cause :
  resolveRoots (env w) pre = Ok files ->
  Get (env w) uri = Err cause ->
  CreateArchive (pre ++ uri :: post) o w
  = ((0, Some (Errorf ("failed to get file " +:+ uri) cause)), w).
Proof.
  intros Hpre Hbad. unfold CreateArchive, bind, ask, ret, id. cbn [fst snd].
  rewrite (resolveRoots_app _ _ _ Hpre). cbn [resolveRoots]. rewrite Hbad. reflexivity.
Qed.

(** *** CreateArchive: what reaches the archive *)

Lemma targetsOf_are_files root t :
  In t (targetsOf root) -> Type_ (snd t) = FileTypeFile.
Proof.
  unfold targetsOf. destruct (Type_ root) eqn:Hroot.
  - intros [<-|[]]. exact Hroot.
  - intros Hin. apply in_map_iff in Hin as (f & <- & Hf).
    apply filter_In in Hf as [_ Hf]. unfold archivable in Hf. simpl.
    destruct (Type_ f); [reflexivity | discriminate].
Qed.

Lemma entriesOf_header e o t en :
  In en (entriesOf e o t) -> EntryHeader en = headerOf e o t.
Proof.
  unfold entriesOf, compressOutcome.
  destruct (GetEntitySource _ _ _); simpl; [|intros []].
  destruct (DryRun o); simpl; [intros []|].
  destruct (CreateHeaderError _ _); simpl; [intros []|].
  destruct (CopyError _ _); simpl; intros [<-|[]]; reflexivity.
Qed.

Lemma CreateArchive_resolved uris o w files :
  resolveRoots (env w) uris = Ok files ->
  exists r c' evs ts',
    CreateArchive uris o w
    = (match r with Some err => (0, Some err) | None => (failed c', None) end,
       snd (close_archive (extend w evs (flat_map (entriesOf (env w) o) ts'))))
    /\ ts' `sublist_of` flat_map targetsOf files
    /\ failed c' = warnings evs
    /\ (r = None \/ r = Some ErrArchiveSrcSizeTooBig)
    /\ List.filter isProgress evs = (if ProgressFunc o then progressOf 0 ts' else []).
Proof.
  intros Hres.
  destruct (archiveRoots_general o files {| failed := 0; compressed := 0 |} w)
    as (r & c' & evs & ts' & Hrun & Hsub & Hcount & Hr & _ & Hprog).
  exists r, c', evs, ts'. split; [|auto].
  unfold CreateArchive, bind, ask, ret, id. cbn [fst snd]. rewrite Hres.
  cbn [fst snd]. rewrite Hrun. destruct r; reflexivity.
Qed.

(** X2: when the roots resolve, whatever happens afterwards the archive
    only grows, and it is closed when the call returns, also on the size
    error.  Every entry written is the entry of a file of the roots: of a
    root that is a file, or of a descendant of a folder root that is
    neither a folder nor a symbolic link; no entry is written for a
    folder.  All entries carry the one method the option chooses: store
    without compression, deflate with it.  The listing cache is not
    touched. *)
Theorem CreateArchive_entries uris o w files :
  resolveRoots (env w) uris = Ok files ->
  exists ents,
    archive (snd (CreateArchive uris o w)) = archive w ++ ents
    /\ Forall (fun en =>
                 HeaderMethod (EntryHeader en) = methodOf o
                 /\ exists t, In t (flat_map targetsOf files)
                              /\ Type_ (snd t) = FileTypeFile
                              /\ EntryHeader en = headerOf (env w) o t) ents
    /\ archiveClosed (snd (CreateArchive uris o w)) = true
    /\ kv (snd (CreateArchive uris o w)) = kv w.
Proof.
  intros Hres.
  destruct (CreateArchive_resolved uris o w files Hres)
    as (r & c' & evs & ts' & -> & Hsub & _ & _ & _).
  exists (flat_map (entriesOf (env w) o) ts'). cbn.
  split; [reflexivity|]. split; [|auto].
  apply List.Forall_forall. intros en Hen.
  apply in_flat_map in Hen as (t & Ht & Hen).
  apply entriesOf_header in Hen.
  assert (Hin : In t (flat_map targetsOf files)).
  { apply list_elem_of_In. eapply sublist_submseteq in Hsub.
    apply (elem_of_submseteq _ _ _ (proj2 (list_elem_of_In _ _) Ht) Hsub). }
  split.
  - rewrite Hen. reflexivity.
  - exists t. split; [exact Hin|]. split; [|exact Hen].
    apply in_flat_map in Hin as (root & _ & Hroot).
    eapply targetsOf_are_files; eauto.
Qed.

(** X3: when the roots resolve, the failure count returned without an
    error is exactly the number of warnings the call logged: one per
    file that failed to compress and one per folder whose walk ended with
    an error.  When an error is returned it is the size error and the
    count is 0. *)
Theorem CreateArchive_count_is_warnings uris o w files :
  resolveRoots (env w) uris = Ok files ->
  exists evs,
    events (snd (CreateArchive uris o w)) = events w ++ evs
    /\ match fst (CreateArchive uris o w) with
       | (n, None) => n = warnings evs
       | (n, Some err) => n = 0 /\ err = ErrArchiveSrcSizeTooBig
       end.
Proof.
  intros Hres.
  destruct (CreateArchive_resolved uris o w files Hres)
    as (r & c' & evs & ts' & -> & _ & Hcount & Hr & _).
  exists evs. cbn. split; [reflexivity|].
  destruct Hr as [-> | ->]; cbn; auto.
Qed.

(** X4: in dry-run mode nothing is written: the archive is left as it
    was, whatever the roots, and the only error [compressFileToArchive]
    can return is that of an entity source that does not open. *)
Theorem CreateArchive_dry_run_writes_nothing uris o w :
  DryRun o = true ->
  archive (snd (CreateArchive uris o w)) = archive w
  /\ forall parent file compression err,
       fst (compressFileToArchive parent file compression (DryRun o) w) = Some err ->
       exists cause,
         GetEntitySource (env w) (PrimaryEntityID file) None = Err cause
         /\ err = Errorf ("failed to get entity source for file " +:+ Uri file) cause.
Proof.
  intros Hdry. split.
  - destruct (resolveRoots (env w) uris) as [files|err] eqn:Hres.
    + destruct (CreateArchive_resolved uris o w files Hres)
        as (r & c' & evs & ts' & -> & _ & _ & _ & _).
      cbn. replace (flat_map (entriesOf (env w) o) ts') with (@nil ZipEntry).
      { apply app_nil_r. }
      symmetry. clear - Hdry.
      induction ts' as [|t ts' IH]; [reflexivity|].
      simpl. rewrite IH.
      unfold entriesOf, compressOutcome. rewrite Hdry.
      destruct (GetEntitySource _ _ _); reflexivity.
    + unfold CreateArchive, bind, ask, ret, id. cbn [fst snd]. rewrite Hres. reflexivity.
  - intros parent file compression err. rewrite Hdry.
    unfold compressFileToArchive, bind, ask, ret, id, emit. cbn [fst snd].
    destruct (GetEntitySource _ _ _) as [es|cause]; cbn [fst]; [discriminate|].
    intros [= <-]. eauto.
Qed.


(** *** CreateArchive: the size ceiling over file roots *)

Lemma withinLimit_sum o sizes :
  forall total,
    0 <= total -> Forall (fun s => 0 <= s) sizes -> total + sumZ sizes < 2 ^ 63 ->
    over o total = false ->
    withinLimit o total sizes = negb (over o (total + sumZ sizes)).
Proof.
  induction sizes as [|s sizes IH]; intros total Htotal Hpos Hsum Hover.
  - simpl. rewrite Z.add_0_r, Hover. reflexivity.
  - apply Forall_cons in Hpos as [Hs Hpos]. cbn [withinLimit sumZ] in *.
    assert (Hsizes : 0 <= sumZ sizes).
    { clear - Hpos. induction Hpos; simpl; lia. }
    rewrite wrap64_in_range by lia.
    fold (over o (total + s)).
    destruct (over o (total + s)) eqn:Hhere; cbn [negb andb].
    + unfold over in *. apply andb_true_iff in Hhere as [H0 Hm].
      apply Z.ltb_lt in H0, Hm.
      replace (0 <? MaxArchiveSize o) with true by (symmetry; apply Z.ltb_lt; lia).
      replace (MaxArchiveSize o <? total + (s + sumZ sizes)) with true
        by (symmetry; apply Z.ltb_lt; lia).
      reflexivity.
    + rewrite (IH (total + s)) by (auto; lia). f_equal. f_equal. lia.
Qed.

Lemma targets_of_file_roots files :
  forallb isFileRoot files = true ->
  flat_map targetsOf files = map (fun f => ("/", f)) files.
Proof.
  induction files as [|f files IH]; [reflexivity|].
  cbn [forallb flat_map map]. intros H. apply andb_true_iff in H as [Hf Hrest].
  rewrite (IH Hrest). unfold targetsOf, isFileRoot in *.
  destruct (Type_ f); [reflexivity | discriminate].
Qed.

(** Over file roots, passing the ceiling ends the loop with the size
    error. *)
Lemma archiveRoots_files_over o :
  forall files c w,
    forallb isFileRoot files = true ->
    withinLimit o (compressed c) (map FileSize files) = false ->
    exists c' w',
      archiveRoots o files c w = ((Some ErrArchiveSrcSizeTooBig, c'), w').
Proof.
  induction files as [|f files IH]; intros c w Hfiles Hlim; [discriminate|].
  cbn [forallb] in Hfiles. apply andb_true_iff in Hfiles as [Hf Hfiles].
  cbn [archiveRoots]. unfold isFileRoot in Hf.
  destruct (Type_ f); [|discriminate].
  unfold bind. pose proof (archiveOne_log o ("/", f) c w) as Hone.
  cbn [fst snd] in Hone. rewrite Hone. clear Hone.
  cbn [map withinLimit] in Hlim.
  destruct (overLimit o _) eqn:Hover; unfold ret; [eauto|].
  unfold overLimit in Hover. cbn [compressed] in Hover. rewrite Hover in Hlim.
  cbn [negb andb] in Hlim.
  match goal with
  | |- context [archiveRoots _ _ ?c' ?w'] => apply (IH c' w' Hfiles Hlim)
  end.
Qed.

(** X5: over roots that are all files, of sizes that are not negative
    and sum up below 2^63, [CreateArchive] returns the size error exactly
    when a positive ceiling is configured and the total size of the roots
    is above it, and returns no error otherwise. *)
Theorem file_roots_abort_iff_over_ceiling uris o w files :
  resolveRoots (env w) uris = Ok files ->
  forallb isFileRoot files = true ->
  Forall (fun f => 0 <= FileSize f) files ->
  sumZ (map FileSize files) < 2 ^ 63 ->
  snd (fst (CreateArchive uris o w))
  = if (0 <? MaxArchiveSize o) && (MaxArchiveSize o <? sumZ (map FileSize files))
    then Some ErrArchiveSrcSizeTooBig
    else None.
Proof.
  intros Hres Hfiles Hpos Hsum.
  assert (Hlim : withinLimit o 0 (map FileSize files)
                 = negb (over o (sumZ (map FileSize files)))).
  { rewrite (withinLimit_sum o _ 0); [reflexivity | lia | | lia |].
    - apply Forall_map. exact Hpos.
    - unfold over. destruct (0 <? MaxArchiveSize o) eqn:E; [|reflexivity].
      apply Z.ltb_lt in E. cbn. apply Z.ltb_ge. lia. }
  fold (over o (sumZ (map FileSize files))).
  unfold CreateArchive, bind, ask, ret, id. cbn [fst snd]. rewrite Hres.
  destruct (over o (sumZ (map FileSize files))) eqn:Hover; cbn [negb] in Hlim.
  - destruct (archiveRoots_files_over o files {| failed := 0; compressed := 0 |} w
                Hfiles Hlim) as (c' & w' & ->).
    reflexivity.
  - assert (Hlim' : withinLimit o 0 (sizesOf (flat_map targetsOf files)) = true).
    { rewrite (targets_of_file_roots _ Hfiles). unfold sizesOf.
      rewrite map_map. exact Hlim. }
    destruct (archiveRoots_within o files {| failed := 0; compressed := 0 |} w Hlim')
      as (evs & ->).
    reflexivity.
Qed.

(** *** ListArchiveFiles: what a call leaves behind *)

(** X7: whatever its result, a call of [ListArchiveFiles] writes no
    archive and changes the world in two ways only.  It adds to the log
    nothing, or the opening and the closing of one source with at most
    one run of a decoder in between: a source that was opened is closed
    on every path, also when the format is not supported or the decoder
    fails.  And it leaves the listing cache as it was whenever it returns
    an error; a listing it returns is either served with the world
    untouched or stored under the key of the request for
    [ArchiveListCacheTTL] seconds from now. *)
Theorem ListArchiveFiles_footprint uri entity enc w :
  exists evs,
    sourceUse evs
    /\ events (snd (ListArchiveFiles uri entity enc w)) = events w ++ evs
    /\ archive (snd (ListArchiveFiles uri entity enc w)) = archive w
    /\ archiveClosed (snd (ListArchiveFiles uri entity enc w)) = archiveClosed w
    /\ now (snd (ListArchiveFiles uri entity enc w)) = now w
    /\ match fst (ListArchiveFiles uri entity enc w) with
       | Err _ => kv (snd (ListArchiveFiles uri entity enc w)) = kv w
       | Ok fileList =>
           snd (ListArchiveFiles uri entity enc w) = w
           \/ exists id,
                kv (snd (ListArchiveFiles uri entity enc w))
                = <[getArchiveListCacheKey id enc
                    := (fileList, now w + ArchiveListCacheTTL)]> (kv w)
       end.
Proof.
  rewrite ListArchiveFiles_unfold.
  destruct (resolveTarget (env w) uri entity enc) as [[[file te] dec]|err].
  2:{ exists []. cbn. rewrite app_nil_r. repeat split; auto using NotOpened. }
  destruct (fst (kv_Get _ w)) as [res|].
  { exists []. cbn. rewrite app_nil_r. repeat split; auto using NotOpened. }
  rewrite ListArchiveFiles_miss_spec.
  destruct (GetEntitySource (env w) 0 (Some te)) as [es|err].
  2:{ exists []. cbn. rewrite app_nil_r. repeat split; auto using NotOpened. }
  cbv zeta.
  destruct (decoded _ _ _ _ _) as [[fmt [fileList|err]]|].
  - eexists. split; [apply (DecodedOnce fmt (ID (SourceEntity es)))|].
    cbn. rewrite ?app_nil_r. repeat split. right. exists (ID te). reflexivity.
  - eexists. split; [apply (DecodedOnce fmt (ID (SourceEntity es)))|].
    cbn. rewrite ?app_nil_r. repeat split.
  - eexists. split; [apply (OpenedAndClosed (ID (SourceEntity es)))|].
    cbn. rewrite ?app_nil_r. repeat split.
Qed.

(** X8: the cache key is made of the encoding as the request spells it,
    not of the table key it selects.  After a call for one spelling, a
    call for the same entity under another spelling, for which nothing is
    cached, is not served from the cache: it goes on to open the
    source. *)
Theorem cache_entry_per_encoding_spelling uri entity enc1 enc2 w file te dec :
  resolveTarget (env w) uri entity enc2 = Ok (file, te, dec) ->
  enc1 <> enc2 ->
  kv w !! getArchiveListCacheKey (ID te) enc2 = None ->
  ListArchiveFiles uri entity enc2 (snd (ListArchiveFiles uri entity enc1 w))
  = ListArchiveFiles_miss file te dec (getArchiveListCacheKey (ID te) enc2)
      (snd (ListArchiveFiles uri entity enc1 w)).
Proof.
  intros Hres Hne Hmiss.
  assert (Henv : env (snd (ListArchiveFiles uri entity enc1 w)) = env w).
  { rewrite ListArchiveFiles_unfold.
    destruct (resolveTarget (env w) uri entity enc1) as [[[file1 te1] dec1]|err];
      [|reflexivity].
    destruct (fst (kv_Get _ w)); [reflexivity|].
    rewrite ListArchiveFiles_miss_spec.
    destruct (GetEntitySource _ _ _); [|reflexivity]. cbv zeta.
    destruct (decoded _ _ _ _ _) as [[fmt [l|err]]|]; reflexivity. }
  assert (Hkv : kv (snd (ListArchiveFiles uri entity enc1 w))
                !! getArchiveListCacheKey (ID te) enc2 = None).
  { destruct (ListArchiveFiles_footprint uri entity enc1 w)
      as (evs & _ & _ & _ & _ & _ & Hkv).
    destruct (fst (ListArchiveFiles uri entity enc1 w)) as [l|err].
    - destruct Hkv as [-> | [id ->]]; [exact Hmiss|].
      rewrite lookup_insert_ne; [exact Hmiss|].
      intros Heq. apply getArchiveListCacheKey_inj in Heq as [_ Heq]. auto.
    - rewrite Hkv. exact Hmiss. }
  rewrite ListArchiveFiles_unfold, Henv, Hres.
  unfold kv_Get. rewrite Hkv. reflexivity.
Qed.

(** *** Text encodings *)

(** X9: the text encoding of a zip listing changes names only, and only
    those of entries not flagged as UTF-8 that the decoder accepts.  With
    and without an encoding the listing has an entry for each file of the
    central directory, with the same size, time and directory flag; the
    two entries are equal when the file is flagged as UTF-8 or its name
    does not decode. *)
Theorem zip_encoding_changes_names_only es size enc w files :
  zip_NewReader (env w) es size = Ok files ->
  exists l l0,
    fst (getZipFileList es size (Some enc) w) = Ok l
    /\ fst (getZipFileList es size None w) = Ok l0
    /\ snd (getZipFileList es size (Some enc) w) = snd (getZipFileList es size None w)
    /\ forall (i : nat) f,
         files !! i = Some f ->
         exists a b,
           l !! i = Some a /\ l0 !! i = Some b
           /\ sameButName a b
           /\ Size a = InfoSize f
           /\ Name b = FormSlash (env w) (HdrName f)
           /\ (HdrNonUTF8 f = false \/ decodeString (env w) enc (HdrName f) = None
               -> a = b).
Proof.
  intros Hzip.
  unfold getZipFileList, bind, ask, ret, id, emit. cbn [fst snd env]. rewrite Hzip.
  eexists _, _. split; [reflexivity|]. split; [reflexivity|]. split; [reflexivity|].
  intros i f Hi. cbn [fst].
  exists (zipFileEntry (env w) (Some enc) f), (zipFileEntry (env w) None f).
  rewrite !list_lookup_fmap, Hi. cbn.
  repeat split.
  intros [Hflag|Hdec]; unfold zipFileEntry.
  - rewrite Hflag. reflexivity.
  - rewrite Hdec. destruct (HdrNonUTF8 f); reflexivity.
Qed.

Lemma hasUpper_8I : hasUpper "iso8859_8I" = true.
Proof. reflexivity. Qed.

(** X10: the key [iso8859_8I] of [ZipEncodings] is the only one with an
    upper-case letter, and the table is looked up with the request's
    encoding in lower case.  With a [strings.ToLower] that leaves no
    upper-case ASCII letter, no request selects that entry: every
    encoding selected is another key of the table. *)
Theorem encoding_8I_never_selected e uri entity zipEncoding file te enc :
  (forall s, hasUpper (ToLower e s) = false) ->
  resolveTarget e uri entity zipEncoding = Ok (file, te, Some enc) ->
  In enc ZipEncodings /\ enc <> "iso8859_8I"
  /\ List.filter hasUpper ZipEncodings = ["iso8859_8I"].
Proof.
  intros Hlower Hres. split; [|split; [|reflexivity]]; revert Hres; unfold resolveTarget.
  all: destruct (Get e uri) as [f|]; [|discriminate].
  all: destruct (Type_ f); [|discriminate].
  all: destruct (_ && _); [discriminate|].
  all: destruct (FindDesiredEntity e f entity); [|discriminate].
  all: destruct (String.eqb zipEncoding ""); [discriminate|].
  all: unfold lookupEncoding.
  all: destruct (existsb _ ZipEncodings) eqn:Hin; [|discriminate].
  all: intros [= _ _ <-].
  - apply existsb_exists in Hin as (k & Hk & Heq).
    apply String.eqb_eq in Heq. subst k. exact Hk.
  - intros Heq. specialize (Hlower zipEncoding). rewrite Heq in Hlower. discriminate.
Qed.

End manager_props.

(** * The further properties over the small tree *)

Module manager_props_examples.
Import golang manager manager_spec manager_more manager_props fakefs fakefs_more.

(** X1 at work: a missing root between two files that exist. *)
Lemma CreateArchive_unresolved_root_witness :
  CreateArchive (["cloudreve://my/a"] ++ "cloudreve://my/missing" :: ["cloudreve://my/b"])
    (options 0) oneUnreadable
  = ((0, Some (Errorf "failed to get file cloudreve://my/missing"
                 (OtherError "not found"))),
     oneUnreadable).
Proof.
  apply (CreateArchive_unresolved_root ["cloudreve://my/a"] "cloudreve://my/missing"
           ["cloudreve://my/b"] (options 0) oneUnreadable [file "a" 10 1]
           (OtherError "not found") eq_refl eq_refl).
Defined.

(** X2 at work: the three files, under a ceiling of 15 bytes. *)
Lemma CreateArchive_entries_witness :
  exists ents,
    archive (snd (CreateArchive uris (options 15) oneUnreadable))
    = archive oneUnreadable ++ ents
    /\ Forall (fun en =>
                 HeaderMethod (EntryHeader en) = methodOf (options 15)
                 /\ exists t, In t (flat_map targetsOf three)
                              /\ Type_ (snd t) = FileTypeFile
                              /\ EntryHeader en = headerOf (env oneUnreadable) (options 15) t)
              ents
    /\ archiveClosed (snd (CreateArchive uris (options 15) oneUnreadable)) = true
    /\ kv (snd (CreateArchive uris (options 15) oneUnreadable)) = kv oneUnreadable.
Proof.
  apply (CreateArchive_entries uris (options 15) oneUnreadable three eq_refl).
Defined.

(** X3 at work: the three files without a ceiling. *)
Lemma CreateArchive_count_is_warnings_witness :
  exists evs,
    events (snd (CreateArchive uris (options 0) oneUnreadable))
    = events oneUnreadable ++ evs
    /\ match fst (CreateArchive uris (options 0) oneUnreadable) with
       | (n, None) => n = warnings evs
       | (n, Some err) => n = 0 /\ err = ErrArchiveSrcSizeTooBig
       end.
Proof.
  apply (CreateArchive_count_is_warnings uris (options 0) oneUnreadable three eq_refl).
Defined.

(** X4 at work: a rehearsal over the three files. *)
Lemma CreateArchive_dry_run_writes_nothing_witness :
  archive (snd (CreateArchive uris rehearsal oneUnreadable)) = []
  /\ events (snd (CreateArchive uris rehearsal oneUnreadable))
     = [EvDryRun "/a" {| ID := 1; EntitySize := 1 |}; EvProgress 10 10 0;
        EvDryRun "/b" {| ID := 2; EntitySize := 2 |}; EvProgress 20 10 0;
        EvDryRun "/c" {| ID := 3; EntitySize := 3 |}; EvProgress 30 10 0].
Proof.
  split; [|reflexivity].
  apply (proj1 (CreateArchive_dry_run_writes_nothing uris rehearsal oneUnreadable eq_refl)).
Defined.

(** X5 at work: 30 bytes under a ceiling of 15, and under one of 30. *)
Lemma file_roots_abort_iff_over_ceiling_witness :
  snd (fst (CreateArchive uris (options 15) oneUnreadable)) = Some ErrArchiveSrcSizeTooBig
  /\ snd (fst (CreateArchive uris (options 30) oneUnreadable)) = None.
Proof.
  assert (Hsizes : Forall (fun f => 0 <= FileSize f) three).
  { repeat constructor; simpl; lia. }
  split.
  - apply (file_roots_abort_iff_over_ceiling uris (options 15) oneUnreadable three
             eq_refl eq_refl Hsizes eq_refl).
  - apply (file_roots_abort_iff_over_ceiling uris (options 30) oneUnreadable three
             eq_refl eq_refl Hsizes eq_refl).
Defined.


(** X8 at work: listed as [gbk], the archive is decoded again when
    asked as [GBK]. *)
Lemma cache_entry_per_encoding_spelling_witness :
  events (snd (ListArchiveFiles zipUri "" "GBK"
                 (snd (ListArchiveFiles zipUri "" "gbk" (start archives 0)))))
  = [EvOpen 1; EvDecode "zip" 1; EvClose 1; EvOpen 1; EvDecode "zip" 1; EvClose 1].
Proof.
  rewrite (cache_entry_per_encoding_spelling zipUri "" "gbk" "GBK" (start archives 0)
             (zipFile "z.zip" 20 1) {| ID := 1; EntitySize := 20 |} (Some "gbk")
             eq_refl ltac:(discriminate) eq_refl).
  reflexivity.
Defined.

(** X9 at work: the listing of [z.zip] with and without an encoding. *)
Lemma zip_encoding_changes_names_only_witness :
  exists l l0,
    fst (getZipFileList source1 20 (Some "gbk") (start archives 0)) = Ok l
    /\ fst (getZipFileList source1 20 None (start archives 0)) = Ok l0
    /\ snd (getZipFileList source1 20 (Some "gbk") (start archives 0))
       = snd (getZipFileList source1 20 None (start archives 0))
    /\ forall (i : nat) f,
         [readme] !! i = Some f ->
         exists a b,
           l !! i = Some a /\ l0 !! i = Some b
           /\ sameButName a b
           /\ Size a = InfoSize f
           /\ Name b = FormSlash archives (HdrName f)
           /\ (HdrNonUTF8 f = false \/ decodeString archives "gbk" (HdrName f) = None
               -> a = b).
Proof.
  apply (zip_encoding_changes_names_only source1 20 "gbk" (start archives 0) [readme]
           eq_refl).
Defined.

Lemma asciiLower_not_upper c : isUpper (asciiLower c) = false.
Proof.
  destruct c as [[] [] [] [] [] [] [] []]; reflexivity.
Qed.

Lemma lower_no_upper s : hasUpper (lower s) = false.
Proof.
  induction s as [|c s IH]; [reflexivity|].
  cbn [lower hasUpper]. rewrite asciiLower_not_upper, IH. reflexivity.
Qed.

(** X10 at work: [GBK] selects the key [gbk]. *)
Lemma encoding_8I_never_selected_witness :
  In "gbk" ZipEncodings /\ "gbk" <> "iso8859_8I".
Proof.
  destruct (encoding_8I_never_selected archives zipUri "" "GBK"
              (zipFile "z.zip" 20 1) {| ID := 1; EntitySize := 20 |} "gbk"
              lower_no_upper eq_refl) as (Hin & Hne & _).
  split; [exact Hin | exact Hne].
Defined.

End manager_props_examples.
